(** * Power BI dependency analyzer: metadata store, sharing reports, impact search

    A shallow embedding of the two analyzers of the repository,

    - [src/mcp_analyzer.py], class [MCPStreamlitBridge]: one SQLite table
      [projects] whose rows carry the extracted model as JSON text
      (module [Mcp] below), and
    - [src/powerbi_analyzer.py], class [PowerBIDependencyAnalyzer]: a
      normalized schema with child tables (module [Normalized] below),

    together with the Python and SQLite primitives they rely on. *)

From Stdlib Require Import ZArith String Ascii List Bool Lia DecimalString.
From stdpp Require Import base option list strings sorting gmap.

#[local] Set Warnings "-register-all,-clear-no-such-hyp".
Local Open Scope string_scope.
Local Open Scope Z_scope.

(** ** Python primitives *)

Module Py.

(** *** Strings.  Text is modelled as byte strings restricted to ASCII:
    [lower] and [strip] act on the ASCII letters and white space only. *)

Definition lower_char (c : ascii) : ascii :=
  let n := nat_of_ascii c in
  if (65 <=? n)%nat && (n <=? 90)%nat then ascii_of_nat (n + 32) else c.

(** [s.lower()] *)
Fixpoint lower (s : string) : string :=
  match s with
  | EmptyString => EmptyString
  | String c s' => String (lower_char c) (lower s')
  end.

(** [needle in hay] on strings: substring containment. *)
Fixpoint contains (needle hay : string) : bool :=
  String.prefix needle hay ||
  match hay with
  | EmptyString => false
  | String _ hay' => contains needle hay'
  end.

(** [hay.find(needle)]: lowest index of an occurrence, or [-1]. *)
Fixpoint find (needle hay : string) : Z :=
  if String.prefix needle hay then 0
  else match hay with
       | EmptyString => -1
       | String _ hay' =>
           let i := find needle hay' in
           if i <? 0 then -1 else i + 1
       end.

Fixpoint drop (n : nat) (s : string) : string :=
  match n, s with
  | O, _ => s
  | S n', String _ s' => drop n' s'
  | S _, EmptyString => EmptyString
  end.

(** [s[start:]] for a start index that is not negative. *)
Definition slice_from (start : Z) (s : string) : string :=
  drop (Z.to_nat start) s.

(** The characters [str.strip()] removes: tab, line feed, vertical tab,
    form feed, carriage return, the separators 28 to 31 and space. *)
Definition is_space (c : ascii) : bool :=
  let n := nat_of_ascii c in
  ((9 <=? n)%nat && (n <=? 13)%nat) ||
  ((28 <=? n)%nat && (n <=? 32)%nat).

Fixpoint lstrip_chars (cs : list ascii) : list ascii :=
  match cs with
  | c :: cs' => if is_space c then lstrip_chars cs' else cs
  | [] => []
  end.

(** [s.strip()] *)
Definition strip (s : string) : string :=
  string_of_list_ascii
    (rev (lstrip_chars (rev (lstrip_chars (list_ascii_of_string s))))).

(** [sep.join(l)] *)
Fixpoint join (sep : string) (l : list string) : string :=
  match l with
  | [] => ""
  | [x] => x
  | x :: rest => x ++ sep ++ join sep rest
  end.

(** Truth value of a string in a condition: [if s:]. *)
Definition truthy (s : string) : bool :=
  match s with EmptyString => false | _ => true end.

(** Order of [sorted] on strings: code point order. *)
Definition str_le (s t : string) : Prop := String.leb s t = true.

#[export] Instance str_le_dec s t : Decision (str_le s t) :=
  decide (String.leb s t = true).

(** [sorted(project_set)] *)
Definition sorted (l : list string) : list string := merge_sort str_le l.

(** *** Exceptions.  [JSONDecodeError] is the [None] of [json_loads]; the
    others leave the functions below through [Raise]. *)

Inductive exn := TypeError | KeyError | AttributeError | DatabaseError.

Inductive result (A : Type) : Type :=
| Ok (a : A)
| Raise (e : exn).
Arguments Ok {A} a.
Arguments Raise {A} e.

#[export] Instance result_ret : MRet result := fun _ a => Ok a.
#[export] Instance result_bind : MBind result := fun _ _ f m =>
  match m with
  | Ok a => f a
  | Raise e => Raise e
  end.
#[export] Instance result_fmap : FMap result := fun _ _ f m =>
  match m with
  | Ok a => Ok (f a)
  | Raise e => Raise e
  end.

(** A [for] loop whose body updates the state [S] and may raise. *)
Fixpoint for_each {A S : Type} (body : A → S → result S)
    (l : list A) (s : S) : result S :=
  match l with
  | [] => Ok s
  | a :: l' =>
      match body a s with
      | Ok s' => for_each body l' s'
      | Raise e => Raise e
      end
  end.

(** [[f(x) for x in l]] for an [f] that may raise. *)
Fixpoint traverse {A B : Type} (f : A → result B) (l : list A)
  : result (list B) :=
  match l with
  | [] => Ok []
  | a :: l' =>
      match f a with
      | Ok b =>
          match traverse f l' with
          | Ok bs => Ok (b :: bs)
          | Raise e => Raise e
          end
      | Raise e => Raise e
      end
  end.

(** *** Decoded JSON values, as [json.loads] returns them. Numbers are
    restricted to integers; the keys of an object are distinct. *)

Inductive json :=
| JNull
| JBool (b : bool)
| JNum (n : Z)
| JStr (s : string)
| JArr (items : list json)
| JObj (fields : list (string * json)).

Fixpoint assoc (k : string) (fields : list (string * json)) : option json :=
  match fields with
  | [] => None
  | (k', v) :: rest => if String.eqb k k' then Some v else assoc k rest
  end.

Fixpoint chars (s : string) : list json :=
  match s with
  | EmptyString => []
  | String c s' => JStr (String c EmptyString) :: chars s'
  end.

(** [for x in v]: the items of a list, the keys of a dict, the characters
    of a string; [TypeError] for the values that are not iterable. *)
Definition iter (v : json) : result (list json) :=
  match v with
  | JArr items => Ok items
  | JObj fields => Ok (map (λ kv, JStr (fst kv)) fields)
  | JStr s => Ok (chars s)
  | _ => Raise TypeError
  end.

(** [v[k]] for a string [k] *)
Definition getitem (v : json) (k : string) : result json :=
  match v with
  | JObj fields =>
      match assoc k fields with
      | Some x => Ok x
      | None => Raise KeyError
      end
  | _ => Raise TypeError
  end.

(** [v.get(k, default)] *)
Definition get (v : json) (k : string) (dflt : json) : result json :=
  match v with
  | JObj fields => Ok (default dflt (assoc k fields))
  | _ => Raise AttributeError
  end.

(** The receiver of a string method such as [v.lower()]: only strings
    have it. *)
Definition as_str (v : json) : result string :=
  match v with
  | JStr s => Ok s
  | _ => Raise AttributeError
  end.

(** Truth value of a TEXT column read from SQLite: NULL and the empty
    string are false. *)
Definition truthy_text (t : option string) : bool :=
  match t with
  | Some s => truthy s
  | None => false
  end.

(** [x in [a, b]] on strings *)
Definition in_list (x : string) (l : list string) : bool :=
  existsb (String.eqb x) l.

(** Dictionary keys: the hashable decoded values. *)
Inductive key :=
| KNone
| KBool (b : bool)
| KNum (n : Z)
| KStr (s : string).

#[export] Instance key_eq_dec : EqDecision key.
Proof. solve_decision. Defined.

(** Hashing a value that is used as a dictionary key; lists and dicts are
    unhashable. *)
Definition hash_key (v : json) : result key :=
  match v with
  | JNull => Ok KNone
  | JBool b => Ok (KBool b)
  | JNum n => Ok (KNum n)
  | JStr s => Ok (KStr s)
  | JArr _ | JObj _ => Raise TypeError
  end.

(** [cursor.lastrowid or existing[0]], where [existing] is the fetched
    [(id, file_hash)] or [None] *)
Definition lastrowid_or (lastrowid : Z) (existing : option (Z * string))
  : result Z :=
  if lastrowid =? 0 then
    match existing with
    | Some (i, _) => Ok i
    | None => Raise TypeError
    end
  else Ok lastrowid.

(** The library functions the analyzers call on text: [json.loads]
    ([None] stands for [JSONDecodeError]), [json.dumps], and the rendering
    of a value that is not a string inside an f-string. *)
Class Codec := {
  json_loads : string → option json;
  json_dumps : json → string;
  format_other : json → string;
}.

(** [f"{v}"] *)
Definition fstr `{Codec} (v : json) : string :=
  match v with
  | JStr s => s
  | _ => format_other v
  end.

End Py.

(** ** SQLite tables with an [INTEGER PRIMARY KEY AUTOINCREMENT] rowid *)

Module Sqlite.

(** The rows of a table in rowid order, and the counter SQLite keeps for
    the table in [sqlite_sequence]: the largest rowid it has handed out. *)
Record sql_table (A : Type) := {
  rows : list A;
  seq : Z;
}.
Arguments rows {A} _.
Arguments seq {A} _.

Definition empty_table {A : Type} : sql_table A := {| rows := []; seq := 0 |}.

Definition max_rowid {A : Type} (rowid : A → Z) (l : list A) : Z :=
  foldr Z.max 0 (map rowid l).

(** The rowid of the next inserted row: one more than every rowid the
    table holds or has ever held. *)
Definition next_rowid {A : Type} (rowid : A → Z) (t : sql_table A) : Z :=
  Z.max (seq t) (max_rowid rowid (rows t)) + 1.

(** [INSERT INTO t (...) VALUES (...)] without a rowid: returns the table
    and [cursor.lastrowid]. *)
Definition insert {A : Type} (rowid : A → Z) (mk : Z → A) (t : sql_table A)
  : sql_table A * Z :=
  let i := next_rowid rowid t in
  ({| rows := rows t ++ [mk i]; seq := i |}, i).

(** [DELETE FROM t WHERE P] *)
Definition delete_where {A : Type} (P : A → Prop) `{!∀ x, Decision (P x)}
    (t : sql_table A) : sql_table A :=
  {| rows := filter (λ x, ¬ P x) (rows t); seq := seq t |}.

(** [INSERT OR REPLACE INTO t (...) VALUES (...)] without a rowid: the
    rows that clash with the new one on a UNIQUE column are deleted, then
    the row is stored under a fresh rowid. *)
Definition insert_or_replace {A : Type} (rowid : A → Z) (clash : A → Prop)
    `{!∀ x, Decision (clash x)} (mk : Z → A) (t : sql_table A)
  : sql_table A * Z :=
  let i := next_rowid rowid t in
  ({| rows := filter (λ x, ¬ clash x) (rows t) ++ [mk i]; seq := i |}, i).

(** The invariant SQLite keeps between the table and its counter: no row
    carries a rowid above the counter. *)
Definition rowids_issued {A : Type} (rowid : A → Z) (t : sql_table A) : Prop :=
  Forall (λ x, rowid x ≤ seq t) (rows t).

(** The values of a [SELECT DISTINCT] or of an aggregate over
    [DISTINCT x], in the order in which they are first met. *)
Fixpoint distinct {A : Type} `{EqDecision A} (l : list A) : list A :=
  match l with
  | [] => []
  | x :: l' => x :: filter (λ y, y ≠ x) (distinct l')
  end.

(** [text LIKE pattern]: [%] stands for any run of characters, [_] for
    one character, and ASCII letters match without regard to case. *)
Fixpoint like_chars (pattern text : list ascii) : bool :=
  match pattern with
  | [] => match text with [] => true | _ :: _ => false end
  | c :: pattern' =>
      if Ascii.eqb c "%" then
        (fix any (text : list ascii) : bool :=
           like_chars pattern' text ||
           match text with
           | [] => false
           | _ :: text' => any text'
           end) text
      else
        match text with
        | [] => false
        | d :: text' =>
            (Ascii.eqb c "_" ||
             Ascii.eqb (Py.lower_char c) (Py.lower_char d)) &&
            like_chars pattern' text'
        end
  end.

Definition like (text pattern : string) : bool :=
  like_chars (list_ascii_of_string pattern) (list_ascii_of_string text).

End Sqlite.

(** ** What the analyzers learn from the file system about the file they
    are given: [Path(file_path).stem], [get_file_hash] (MD5 of the
    content), [os.path.getsize]. *)

Module Host.

Record pbix_file := {
  path : string;
  stem : string;
  content_hash : string;
  byte_size : Z;
}.

End Host.

(** ** The denormalized store of [MCPStreamlitBridge] *)

Module Mcp.
Import Py Sqlite Host.

(** A row of table [projects]; the five [_data] columns hold JSON text or
    NULL. *)
Record project := {
  id : Z;
  name : string;
  file_path : string;
  file_hash : string;
  last_analyzed : Z;
  model_size : Z;
  tables_data : option string;
  metadata_data : option string;
  schema_data : option string;
  measures_data : option string;
  relationships_data : option string;
}.

(** The database file holds the single table [projects]. *)
Definition database : Type := sql_table project.

(** [init_database] on a fresh file. *)
Definition init_database : database := empty_table.

(** [SELECT id, file_hash FROM projects WHERE name = ?] with [fetchone]. *)
Definition select_by_name (n : string) (db : database) : option (Z * string) :=
  (λ p, (id p, file_hash p)) <$> head (filter (λ p, name p = n) (rows db)).

(** [DELETE FROM projects WHERE name = ?] *)
Definition delete_by_name (n : string) (db : database) : database :=
  delete_where (λ p, name p = n) db.

Definition with_id (row : project) (i : Z) : project :=
  {| id := i; name := name row; file_path := file_path row;
     file_hash := file_hash row; last_analyzed := last_analyzed row;
     model_size := model_size row; tables_data := tables_data row;
     metadata_data := metadata_data row; schema_data := schema_data row;
     measures_data := measures_data row;
     relationships_data := relationships_data row |}.

(** [INSERT OR REPLACE INTO projects (name, ...) VALUES (...)]; [name] is
    the UNIQUE column. *)
Definition insert_project (row : project) (db : database) : database * Z :=
  insert_or_replace id (λ p, name p = name row) (with_id row) db.

(** The ways [subprocess.run(..., timeout=30)] on the extraction script
    ends: the 30 seconds pass, the script cannot be written or started, or
    the process completes. *)
Inductive run_result :=
| TimeoutExpired
| LaunchError
| CompletedProcess (returncode : Z) (stdout stderr : string).

Definition marker : string := "SUCCESS:".

Section WithCodec.
Context `{Codec}.

(** Lines 263 to 265: the text after the first marker, stripped, decoded. *)
Definition parse_payload (stdout : string) : option json :=
  let json_start := find marker stdout + 8 in
  let json_data := strip (slice_from json_start stdout) in
  json_loads json_data.

(** The arguments of the INSERT, lines 274 to 283, evaluated in order. *)
Definition project_of_payload (project_name : string) (f : pbix_file)
    (now : Z) (data : json) : result project :=
  tables ← getitem data "tables";
  metadata ← getitem data "metadata";
  schema ← get data "schema" (JArr []);
  measures ← getitem data "measures";
  relationships ← getitem data "relationships";
  Ok {| id := 0; name := project_name; file_path := path f;
        file_hash := content_hash f; last_analyzed := now;
        model_size := byte_size f;
        tables_data := Some (json_dumps tables);
        metadata_data := Some (json_dumps metadata);
        schema_data := Some (json_dumps schema);
        measures_data := Some (json_dumps measures);
        relationships_data := Some (json_dumps relationships) |}.

(** The [try] block, lines 95 to 306: run the script, and on return code
    0 with the marker in stdout decode the payload, insert the row and
    commit.  Every exception ends in [project_id = None]. *)
Definition extract_and_store (project_name : string) (f : pbix_file)
    (now : Z) (run : run_result) (existing : option (Z * string))
    (db : database) : database * option Z :=
  match run with
  | CompletedProcess returncode stdout stderr =>
      if (returncode =? 0) && contains marker stdout then
        match parse_payload stdout with
        | Some data =>
            match project_of_payload project_name f now data with
            | Ok row =>
                let '(db', lastrowid) := insert_project row db in
                match lastrowid_or lastrowid existing with
                | Ok project_id => (db', Some project_id)
                | Raise _ => (db', None)
                end
            | Raise _ => (db, None)
            end
        | None => (db, None)
        end
      else (db, None)
  | TimeoutExpired | LaunchError => (db, None)
  end.

(** [analyze_pbix_file_with_mcp(file_path, project_name)]: the database
    after the call and the returned project id ([None] as in Python).
    [now] is [datetime.now()] and [run] the outcome of the subprocess. *)
Definition analyze_pbix_file_with_mcp (f : pbix_file)
    (project_name : option string) (now : Z) (run : run_result)
    (db : database) : database * option Z :=
  let project_name := default (stem f) project_name in
  let file_hash := content_hash f in
  let existing := select_by_name project_name db in
  match existing with
  | Some (i, h) =>
      if String.eqb h file_hash then (db, Some i)
      else
        (* lines 91 to 93: deleted and committed before the extraction *)
        extract_and_store project_name f now run existing
          (delete_by_name project_name db)
  | None => extract_and_store project_name f now run existing db
  end.

(** *** Sharing reports *)

(** The dict [table_usage] / [measure_usage] / [column_usage]: keys in
    insertion order, each with the set of project names. *)
Definition usage := list (key * gset string).

(** [if k not in usage: usage[k] = set()] then [usage[k].add(project)] *)
Fixpoint usage_add (k : key) (project_name : string) (u : usage) : usage :=
  match u with
  | [] => [(k, {[ project_name ]})]
  | (k', ps) :: u' =>
      if decide (k = k') then (k', {[ project_name ]} ∪ ps) :: u'
      else (k', ps) :: usage_add k project_name u'
  end.

(** A row of the returned data frame. *)
Record shared_row := {
  entity_name : key;
  project_count : nat;
  shared_projects : string;
}.

(** The loop that keeps the keys used by more than one project. *)
Definition shared_rows (u : usage) : list shared_row :=
  map (λ kp, {| entity_name := fst kp;
                project_count := size (snd kp);
                shared_projects := join ", " (sorted (elements (snd kp))) |})
      (filter (λ kp, (1 < size (snd kp))%nat) u).

Definition count_ge (r1 r2 : shared_row) : Prop :=
  (project_count r2 ≤ project_count r1)%nat.

#[export] Instance count_ge_dec r1 r2 : Decision (count_ge r1 r2) :=
  decide (project_count r2 ≤ project_count r1)%nat.

(** [DataFrame.sort_values('project_count', ascending=False)]; the order
    among rows of equal count is whatever the sort leaves. *)
Definition sort_values (rows : list shared_row) : list shared_row :=
  merge_sort count_ge rows.

(** [SELECT name, tables_data FROM projects WHERE tables_data IS NOT NULL] *)
Definition select_tables_data (db : database) : list (string * string) :=
  omap (λ p, (λ t, (name p, t)) <$> tables_data p) (rows db).

(** [SELECT name, measures_data FROM projects WHERE measures_data IS NOT NULL] *)
Definition select_measures_data (db : database) : list (string * string) :=
  omap (λ p, (λ t, (name p, t)) <$> measures_data p) (rows db).

(** The loop over the fetched rows that the three reports share: a blob
    that is empty is skipped, one that does not decode is skipped by
    [except json.JSONDecodeError: continue], the others go through the
    inner loop [scan]. *)
Definition collect_usage (scan : string → json → usage → result usage)
    (rows : list (string * string)) : result usage :=
  for_each (λ row u,
      let '(project_name, blob) := row in
      if truthy blob then
        match json_loads blob with
        | Some v => scan project_name v u
        | None => Ok u
        end
      else Ok u) rows [].

(** [for table in tables: table_usage[table['name']].add(project_name)] *)
Definition scan_tables (project_name : string) (tables : json) (u : usage)
  : result usage :=
  ts ← iter tables;
  for_each (λ table u,
      table_name ← getitem table "name";
      k ← hash_key table_name;
      Ok (usage_add k project_name u)) ts u.

(** [for measure in measures: ...], the same on [measure['name']] *)
Definition scan_measures (project_name : string) (measures : json)
    (u : usage) : result usage :=
  ms ← iter measures;
  for_each (λ measure u,
      measure_name ← getitem measure "name";
      k ← hash_key measure_name;
      Ok (usage_add k project_name u)) ms u.

(** The nested loop of [get_shared_columns] with the composite key
    [f"{table_name}.{column_name}"]. *)
Definition scan_columns (project_name : string) (tables : json) (u : usage)
  : result usage :=
  ts ← iter tables;
  for_each (λ table u,
      table_name ← getitem table "name";
      columns ← get table "columns" (JArr []);
      cs ← iter columns;
      for_each (λ column u,
          column_name ← getitem column "name";
          let k := KStr (fstr table_name ++ "." ++ fstr column_name) in
          Ok (usage_add k project_name u)) cs u) ts u.

Definition get_shared_tables (db : database) : result (list shared_row) :=
  table_usage ← collect_usage scan_tables (select_tables_data db);
  Ok (sort_values (shared_rows table_usage)).

Definition get_shared_measures (db : database) : result (list shared_row) :=
  measure_usage ← collect_usage scan_measures (select_measures_data db);
  Ok (sort_values (shared_rows measure_usage)).

Definition get_shared_columns (db : database) : result (list shared_row) :=
  column_usage ← collect_usage scan_columns (select_tables_data db);
  Ok (sort_values (shared_rows column_usage)).

(** *** Impact search *)

Record table_hit := {
  th_project_name : string;
  th_table_name : string;
  th_match_type : string;
}.

Record column_hit := {
  ch_project_name : string;
  ch_table_name : string;
  ch_column_name : string;
  ch_match_type : string;
}.

Record measure_hit := {
  mh_project_name : string;
  mh_table_name : json;
  mh_measure_name : string;
  mh_dax_expression : json;
  mh_match_type : string;
}.

Record reference_hit := {
  rh_project_name : string;
  rh_measure_name : string;
  rh_dax_expression : json;
  rh_match_type : string;
}.

(** The dict [results] with its four lists. *)
Record impact := {
  projects_using_table : list table_hit;
  measures_referencing_item : list reference_hit;
  projects_with_measure : list measure_hit;
  projects_using_column : list column_hit;
}.

Definition no_impact : impact :=
  {| projects_using_table := []; measures_referencing_item := [];
     projects_with_measure := []; projects_using_column := [] |}.

Definition add_table_hit (h : table_hit) (r : impact) : impact :=
  {| projects_using_table := projects_using_table r ++ [h];
     measures_referencing_item := measures_referencing_item r;
     projects_with_measure := projects_with_measure r;
     projects_using_column := projects_using_column r |}.

Definition add_column_hit (h : column_hit) (r : impact) : impact :=
  {| projects_using_table := projects_using_table r;
     measures_referencing_item := measures_referencing_item r;
     projects_with_measure := projects_with_measure r;
     projects_using_column := projects_using_column r ++ [h] |}.

Definition add_measure_hit (h : measure_hit) (r : impact) : impact :=
  {| projects_using_table := projects_using_table r;
     measures_referencing_item := measures_referencing_item r;
     projects_with_measure := projects_with_measure r ++ [h];
     projects_using_column := projects_using_column r |}.

Definition add_reference_hit (h : reference_hit) (r : impact) : impact :=
  {| projects_using_table := projects_using_table r;
     measures_referencing_item := measures_referencing_item r ++ [h];
     projects_with_measure := projects_with_measure r;
     projects_using_column := projects_using_column r |}.

(** [SELECT name, tables_data, measures_data FROM projects
     WHERE tables_data IS NOT NULL OR measures_data IS NOT NULL] *)
Definition impact_row (p : project)
  : string * option string * option string :=
  (name p, tables_data p, measures_data p).

Definition select_impact_data (db : database)
  : list (string * option string * option string) :=
  map impact_row
      (filter (λ p, is_Some (tables_data p) ∨ is_Some (measures_data p))
              (rows db)).

(** Lines 461 to 468: the columns of one table. *)
Definition check_column (search_term_lower project_name table_name : string)
    (column : json) (results : impact) : result impact :=
  column_name ← getitem column "name";
  c ← as_str column_name;
  if contains search_term_lower (lower c) then
    Ok (add_column_hit
          {| ch_project_name := project_name; ch_table_name := table_name;
             ch_column_name := c; ch_match_type := "Column Name" |} results)
  else Ok results.

(** Lines 451 to 468: one table, its name and then its columns. *)
Definition check_table (search_term_lower project_name : string)
    (table : json) (results : impact) : result impact :=
  table_name ← getitem table "name";
  t ← as_str table_name;
  let results :=
    if contains search_term_lower (lower t) then
      add_table_hit
        {| th_project_name := project_name; th_table_name := t;
           th_match_type := "Table Name" |} results
    else results in
  columns ← get table "columns" (JArr []);
  cs ← iter columns;
  for_each (check_column search_term_lower project_name t) cs results.

(** Lines 476 to 495: one measure, its name and then its expression. *)
Definition check_measure (search_term_lower project_name : string)
    (measure : json) (results : impact) : result impact :=
  measure_name ← getitem measure "name";
  m ← as_str measure_name;
  results ←
    (if contains search_term_lower (lower m) then
       table_name ← get measure "table_name" (JStr "Unknown");
       dax ← get measure "expression" (JStr "");
       Ok (add_measure_hit
             {| mh_project_name := project_name; mh_table_name := table_name;
                mh_measure_name := m; mh_dax_expression := dax;
                mh_match_type := "Measure Name" |} results)
     else Ok results);
  dax ← get measure "expression" (JStr "");
  e ← as_str dax;
  if contains search_term_lower (lower e) then
    Ok (add_reference_hit
          {| rh_project_name := project_name; rh_measure_name := m;
             rh_dax_expression := dax;
             rh_match_type := "DAX Expression Reference" |} results)
  else Ok results.

(** Lines 472 to 497: the measures of one project. *)
Definition check_measures (search_term_lower search_type project_name : string)
    (measures_json : option string) (results : impact) : result impact :=
  if truthy_text measures_json && in_list search_type ["all"; "measure"] then
    match json_loads (default "" measures_json) with
    | Some measures =>
        ms ← iter measures;
        for_each (check_measure search_term_lower project_name) ms results
    | None => Ok results
    end
  else Ok results.

(** Lines 446 to 497: the body of the loop over the projects.  A
    [tables_data] that does not decode ends the iteration for the project
    ([continue] at line 470) before its measures are looked at. *)
Definition check_project (search_term_lower search_type : string)
    (row : string * option string * option string) (results : impact)
  : result impact :=
  let '(project_name, tables_json, measures_json) := row in
  if truthy_text tables_json && in_list search_type ["all"; "table"] then
    match json_loads (default "" tables_json) with
    | Some tables =>
        ts ← iter tables;
        results ← for_each (check_table search_term_lower project_name)
                    ts results;
        check_measures search_term_lower search_type project_name
          measures_json results
    | None => Ok results
    end
  else
    check_measures search_term_lower search_type project_name
      measures_json results.

(** [analyze_impact(search_term, search_type)] *)
Definition analyze_impact (search_term search_type : string) (db : database)
  : result impact :=
  let search_term_lower := lower search_term in
  for_each (check_project search_term_lower search_type)
    (select_impact_data db) no_impact.

End WithCodec.
End Mcp.

(** ** The normalized store of [PowerBIDependencyAnalyzer] *)

Module Normalized.
Import Py Sqlite Host.

Record project := {
  id : Z;
  name : string;
  file_path : string;
  file_hash : string;
  last_analyzed : Z;
  model_size : Z;
  table_count : Z;
  measure_count : Z;
}.

Record table_row := {
  table_id : Z;
  table_project_id : Z;
  table_name : string;
  row_count : Z;
  column_count : Z;
}.

Record column_row := {
  column_id : Z;
  column_table_id : Z;
  column_name : string;
  data_type : string;
  is_calculated : bool;
}.

Record measure_row := {
  measure_id : Z;
  measure_project_id : Z;
  measure_table_name : string;
  measure_name : string;
  dax_expression : string;
}.

Record relationship_row := {
  relationship_id : Z;
  relationship_project_id : Z;
  from_table : string;
  from_column : string;
  to_table : string;
  to_column : string;
  cardinality : string;
}.

Record power_query_row := {
  query_id : Z;
  query_project_id : Z;
  query_name : string;
  m_expression : string;
}.

(** The six tables [init_database] creates.  The FOREIGN KEY clauses have
    no ON DELETE action and the connection never turns foreign keys on, so
    they constrain nothing. *)
Record database := {
  projects : sql_table project;
  tables : sql_table table_row;
  columns : sql_table column_row;
  measures : sql_table measure_row;
  relationships : sql_table relationship_row;
  power_queries : sql_table power_query_row;
}.

Definition init_database : database :=
  {| projects := empty_table; tables := empty_table; columns := empty_table;
     measures := empty_table; relationships := empty_table;
     power_queries := empty_table |}.

Definition with_projects (t : sql_table project) (db : database) : database :=
  {| projects := t; tables := tables db; columns := columns db;
     measures := measures db; relationships := relationships db;
     power_queries := power_queries db |}.

Definition with_tables (t : sql_table table_row) (db : database) : database :=
  {| projects := projects db; tables := t; columns := columns db;
     measures := measures db; relationships := relationships db;
     power_queries := power_queries db |}.

Definition with_columns (t : sql_table column_row) (db : database) : database :=
  {| projects := projects db; tables := tables db; columns := t;
     measures := measures db; relationships := relationships db;
     power_queries := power_queries db |}.

Definition with_measures (t : sql_table measure_row) (db : database) : database :=
  {| projects := projects db; tables := tables db; columns := columns db;
     measures := t; relationships := relationships db;
     power_queries := power_queries db |}.

Definition with_relationships (t : sql_table relationship_row) (db : database)
  : database :=
  {| projects := projects db; tables := tables db; columns := columns db;
     measures := measures db; relationships := t;
     power_queries := power_queries db |}.

Definition with_power_queries (t : sql_table power_query_row) (db : database)
  : database :=
  {| projects := projects db; tables := tables db; columns := columns db;
     measures := measures db; relationships := relationships db;
     power_queries := t |}.

(** The object [PbixModel(file_path)] gives, with the attributes the
    analyzer reads. *)
Record model_column := {
  mc_name : string;
  mc_data_type : string;
  mc_is_calculated : bool;
}.

Record model_measure := {
  mm_name : string;
  mm_expression : string;
}.

Record model_table := {
  mt_name : string;
  mt_row_count : Z;
  mt_columns : list model_column;
  mt_measures : list model_measure;
}.

Record model_relationship := {
  mr_from_table : string;
  mr_from_column : string;
  mr_to_table : string;
  mr_to_column : string;
  mr_cardinality : string;
}.

Record model_query := {
  mq_name : string;
  mq_expression : string;
}.

Record pbix_model := {
  model_tables : list model_table;
  model_relationships : list model_relationship;
  model_queries : list model_query;
}.

(** [SELECT id, file_hash FROM projects WHERE name = ?] with [fetchone]. *)
Definition select_by_name (n : string) (db : database) : option (Z * string) :=
  (λ p, (id p, file_hash p)) <$>
    head (filter (λ p, name p = n) (rows (projects db))).

(** Lines 149 to 161: [INSERT OR REPLACE INTO projects]. *)
Definition insert_project (project_name : string) (f : pbix_file) (now : Z)
    (model : pbix_model) (db : database) : database * Z :=
  let '(t, lastrowid) :=
    insert_or_replace id (λ p, name p = project_name)
      (λ i, {| id := i; name := project_name; file_path := path f;
               file_hash := content_hash f; last_analyzed := now;
               model_size := byte_size f;
               table_count := Z.of_nat (length (model_tables model));
               measure_count :=
                 Z.of_nat (length (concat (map mt_measures
                                             (model_tables model)))) |})
      (projects db) in
  (with_projects t db, lastrowid).

(** Lines 165 to 170, in the order of the source: the rows of [tables]
    go first, so the sub-select of the second statement finds none of
    them. *)
Definition clear_project_data (project_id : Z) (db : database) : database :=
  let db := with_tables
              (delete_where (λ t, table_project_id t = project_id) (tables db))
              db in
  let table_ids :=
    map table_id
        (filter (λ t, table_project_id t = project_id) (rows (tables db))) in
  let db := with_columns
              (delete_where (λ c, column_table_id c ∈ table_ids) (columns db))
              db in
  let db := with_measures
              (delete_where (λ m, measure_project_id m = project_id)
                            (measures db)) db in
  let db := with_relationships
              (delete_where (λ r, relationship_project_id r = project_id)
                            (relationships db)) db in
  with_power_queries
    (delete_where (λ q, query_project_id q = project_id) (power_queries db))
    db.

Definition store_column (table_id : Z) (db : database) (column : model_column)
  : database :=
  with_columns
    (fst (insert column_id
            (λ i, {| column_id := i; column_table_id := table_id;
                     column_name := mc_name column;
                     data_type := mc_data_type column;
                     is_calculated := mc_is_calculated column |})
            (columns db))) db.

Definition store_measure (project_id : Z) (table : model_table)
    (db : database) (measure : model_measure) : database :=
  with_measures
    (fst (insert measure_id
            (λ i, {| measure_id := i; measure_project_id := project_id;
                     measure_table_name := mt_name table;
                     measure_name := mm_name measure;
                     dax_expression := mm_expression measure |})
            (measures db))) db.

(** Lines 173 to 194: one table with its columns and measures. *)
Definition store_table (project_id : Z) (db : database) (table : model_table)
  : database :=
  let '(t, table_id) :=
    insert table_id
      (λ i, {| table_id := i; table_project_id := project_id;
               table_name := mt_name table; row_count := mt_row_count table;
               column_count := Z.of_nat (length (mt_columns table)) |})
      (tables db) in
  let db := with_tables t db in
  let db := foldl (store_column table_id) db (mt_columns table) in
  foldl (store_measure project_id table) db (mt_measures table).

Definition store_relationship (project_id : Z) (db : database)
    (rel : model_relationship) : database :=
  with_relationships
    (fst (insert relationship_id
            (λ i, {| relationship_id := i;
                     relationship_project_id := project_id;
                     from_table := mr_from_table rel;
                     from_column := mr_from_column rel;
                     to_table := mr_to_table rel;
                     to_column := mr_to_column rel;
                     cardinality := mr_cardinality rel |})
            (relationships db))) db.

Definition store_query (project_id : Z) (db : database) (query : model_query)
  : database :=
  with_power_queries
    (fst (insert query_id
            (λ i, {| query_id := i; query_project_id := project_id;
                     query_name := mq_name query;
                     m_expression := mq_expression query |})
            (power_queries db))) db.

(** Lines 148 to 214: the replacement, committed as a whole at the end. *)
Definition replace_project (project_name : string) (f : pbix_file) (now : Z)
    (model : pbix_model) (existing : option (Z * string)) (db : database)
  : database * option Z :=
  let '(db1, lastrowid) := insert_project project_name f now model db in
  match lastrowid_or lastrowid existing with
  | Ok project_id =>
      let db2 := clear_project_data project_id db1 in
      let db3 := foldl (store_table project_id) db2 (model_tables model) in
      let db4 := foldl (store_relationship project_id) db3
                       (model_relationships model) in
      let db5 := foldl (store_query project_id) db4 (model_queries model) in
      (db5, Some project_id)
  | Raise _ => (db, None)
  end.

(** [analyze_pbix_file(file_path, project_name)].  [available] is the flag
    [PBIXRAY_AVAILABLE] and [loaded] what [PbixModel(file_path)] gives,
    [None] when it raises. *)
Definition analyze_pbix_file (available : bool) (loaded : option pbix_model)
    (f : pbix_file) (project_name : option string) (now : Z) (db : database)
  : database * option Z :=
  if negb available then (db, None)
  else
    match loaded with
    | None => (db, None)
    | Some model =>
        let project_name := default (stem f) project_name in
        let existing := select_by_name project_name db in
        match existing with
        | Some (i, h) =>
            if String.eqb h (content_hash f) then (db, Some i)
            else replace_project project_name f now model existing db
        | None => replace_project project_name f now model existing db
        end
    end.

(** *** Sharing reports *)

(** A row of the returned data frame. *)
Record shared_row := {
  entity_name : string;
  project_count : nat;
  shared_projects : string;
}.

Definition count_ge (r1 r2 : shared_row) : Prop :=
  (project_count r2 ≤ project_count r1)%nat.

#[export] Instance count_ge_dec r1 r2 : Decision (count_ge r1 r2) :=
  decide (project_count r2 ≤ project_count r1)%nat.

(** [FROM tables t JOIN projects p ON t.project_id = p.id], as the pairs
    [(t.table_name, p.name)]. *)
Definition tables_of_projects (db : database) : list (string * string) :=
  t ← rows (tables db);
  p ← rows (projects db);
  if decide (table_project_id t = id p) then [(table_name t, name p)] else [].

(** [FROM measures m JOIN projects p ON m.project_id = p.id], as the pairs
    [(m.measure_name, p.name)]. *)
Definition measures_of_projects (db : database) : list (string * string) :=
  m ← rows (measures db);
  p ← rows (projects db);
  if decide (measure_project_id m = id p) then [(measure_name m, name p)]
  else [].

(** The project names of one group, for [COUNT(DISTINCT p.name)] and
    [GROUP_CONCAT(DISTINCT p.name)]. *)
Definition group_names (entity : string) (pairs : list (string * string))
  : list string :=
  distinct (map snd (filter (λ np, fst np = entity) pairs)).

(** [GROUP BY] the entity name, [HAVING COUNT(DISTINCT p.name) > 1],
    [ORDER BY project_count DESC]; [GROUP_CONCAT] joins with a comma.
    SQLite fixes neither the order of the names inside a group nor the
    order among rows of equal count. *)
Definition group_report (pairs : list (string * string)) : list shared_row :=
  merge_sort count_ge
    (filter (λ r, (1 < project_count r)%nat)
       (map (λ n, {| entity_name := n;
                     project_count := length (group_names n pairs);
                     shared_projects := join "," (group_names n pairs) |})
            (distinct (pairs.*1)))).

Definition get_shared_tables (db : database) : list shared_row :=
  group_report (tables_of_projects db).

Definition get_shared_measures (db : database) : list shared_row :=
  group_report (measures_of_projects db).

(** *** Impact of a table, a measure or a column *)

(** The dict [results]: a key is present when its argument was given. *)
Record impact := {
  projects_using_table : option (list string);
  measures_referencing_table : option (list (string * string * string));
  projects_with_measure : option (list (string * string * string));
  projects_using_column : option (list (string * string));
}.

(** [FROM projects p JOIN tables t ON p.id = t.project_id] *)
Definition projects_with_tables (db : database)
  : list (project * table_row) :=
  p ← rows (projects db);
  t ← rows (tables db);
  if decide (id p = table_project_id t) then [(p, t)] else [].

(** [FROM projects p JOIN measures m ON p.id = m.project_id] *)
Definition projects_with_measures (db : database)
  : list (project * measure_row) :=
  p ← rows (projects db);
  m ← rows (measures db);
  if decide (id p = measure_project_id m) then [(p, m)] else [].

(** [analyze_impact(table_name, measure_name, column_name)].  Names are
    compared with [=], expressions with [LIKE '%name%'].  The column query
    selects [t.table_name] although its tables alias is [tb], so SQLite
    refuses it and the call raises. *)
Definition analyze_impact (table_name measure_name column_name : option string)
    (db : database) : result impact :=
  let using_table :=
    if truthy_text table_name then
      Some (distinct
              (map (λ pt, name (fst pt))
                   (filter (λ pt, Normalized.table_name (snd pt)
                                  = default "" table_name)
                           (projects_with_tables db))))
    else None in
  let referencing :=
    if truthy_text table_name then
      Some (distinct
              (map (λ pm, (name (fst pm), Normalized.measure_name (snd pm),
                           dax_expression (snd pm)))
                   (filter (λ pm, like (dax_expression (snd pm))
                                       ("%" ++ default "" table_name ++ "%")
                                  = true)
                           (projects_with_measures db))))
    else None in
  let with_measure :=
    if truthy_text measure_name then
      Some (distinct
              (map (λ pm, (name (fst pm), measure_table_name (snd pm),
                           dax_expression (snd pm)))
                   (filter (λ pm, Normalized.measure_name (snd pm)
                                  = default "" measure_name)
                           (projects_with_measures db))))
    else None in
  if truthy_text column_name then Raise DatabaseError
  else Ok {| projects_using_table := using_table;
             measures_referencing_table := referencing;
             projects_with_measure := with_measure;
             projects_using_column := None |}.

End Normalized.

(** ** A reference codec, to run the analyzers on concrete text

    A reader and a printer for the part of JSON the extraction script
    writes: objects, arrays, strings with the short escapes, integers and
    the three literals, printed with the separators of [json.dumps]. *)

Module Reference.
Import Py.

Definition dquote : ascii := ascii_of_nat 34.
Definition backslash : ascii := ascii_of_nat 92.
Definition squote : ascii := ascii_of_nat 39.

Definition is_ws (c : ascii) : bool :=
  let n := nat_of_ascii c in
  (n =? 32)%nat || (n =? 9)%nat || (n =? 10)%nat || (n =? 13)%nat.

Fixpoint skip_ws (cs : list ascii) : list ascii :=
  match cs with
  | c :: cs' => if is_ws c then skip_ws cs' else cs
  | [] => []
  end.

Definition is_digit (c : ascii) : bool :=
  let n := nat_of_ascii c in (48 <=? n)%nat && (n <=? 57)%nat.

Fixpoint read_digits (cs : list ascii) (acc : Z) : Z * list ascii :=
  match cs with
  | c :: cs' =>
      if is_digit c
      then read_digits cs' (10 * acc + Z.of_nat (nat_of_ascii c - 48))
      else (acc, cs)
  | [] => (acc, [])
  end.

(** An integer without sign: a lone [0], or digits that do not start
    with [0]. *)
Definition read_nat (cs : list ascii) : option (Z * list ascii) :=
  match cs with
  | c :: cs' =>
      if Ascii.eqb c "0" then
        match cs' with
        | d :: _ => if is_digit d then None else Some (0, cs')
        | [] => Some (0, cs')
        end
      else if is_digit c then Some (read_digits cs 0)
      else None
  | [] => None
  end.

Definition unescape (c : ascii) : option ascii :=
  if Ascii.eqb c dquote then Some dquote
  else if Ascii.eqb c backslash then Some backslash
  else if Ascii.eqb c "/" then Some "/"%char
  else if Ascii.eqb c "n" then Some (ascii_of_nat 10)
  else if Ascii.eqb c "t" then Some (ascii_of_nat 9)
  else if Ascii.eqb c "r" then Some (ascii_of_nat 13)
  else if Ascii.eqb c "b" then Some (ascii_of_nat 8)
  else if Ascii.eqb c "f" then Some (ascii_of_nat 12)
  else None.

(** The characters of a string after its opening quote, up to the closing
    one. *)
Fixpoint read_string (cs : list ascii) : option (string * list ascii) :=
  match cs with
  | [] => None
  | c :: cs' =>
      if Ascii.eqb c dquote then Some (EmptyString, cs')
      else if Ascii.eqb c backslash then
        match cs' with
        | e :: cs'' =>
            match unescape e, read_string cs'' with
            | Some x, Some (s, rest) => Some (String x s, rest)
            | _, _ => None
            end
        | [] => None
        end
      else if (nat_of_ascii c <? 32)%nat then None
      else
        match read_string cs' with
        | Some (s, rest) => Some (String c s, rest)
        | None => None
        end
  end.

Fixpoint strip_prefix (word cs : list ascii) : option (list ascii) :=
  match word, cs with
  | [], _ => Some cs
  | w :: word', c :: cs' =>
      if Ascii.eqb w c then strip_prefix word' cs' else None
  | _ :: _, [] => None
  end.

(** A later field with the same key replaces the value of the earlier
    one, as in the dict [json.loads] builds. *)
Fixpoint dict_set (k : string) (v : json) (fields : list (string * json))
  : list (string * json) :=
  match fields with
  | [] => [(k, v)]
  | (k', v') :: rest =>
      if String.eqb k k' then (k', v) :: rest
      else (k', v') :: dict_set k v rest
  end.

Fixpoint read_value (fuel : nat) (cs : list ascii)
  : option (json * list ascii) :=
  match fuel with
  | O => None
  | S fuel =>
      match skip_ws cs with
      | [] => None
      | c :: rest =>
          if Ascii.eqb c "{" then
            match skip_ws rest with
            | d :: rest' =>
                if Ascii.eqb d "}" then Some (JObj [], rest')
                else
                  match read_fields fuel (d :: rest') [] with
                  | Some (fields, r) => Some (JObj fields, r)
                  | None => None
                  end
            | [] => None
            end
          else if Ascii.eqb c "[" then
            match skip_ws rest with
            | d :: rest' =>
                if Ascii.eqb d "]" then Some (JArr [], rest')
                else
                  match read_items fuel (d :: rest') with
                  | Some (items, r) => Some (JArr items, r)
                  | None => None
                  end
            | [] => None
            end
          else if Ascii.eqb c dquote then
            match read_string rest with
            | Some (s, r) => Some (JStr s, r)
            | None => None
            end
          else if Ascii.eqb c "-" then
            match read_nat rest with
            | Some (n, r) => Some (JNum (- n), r)
            | None => None
            end
          else if is_digit c then
            match read_nat (c :: rest) with
            | Some (n, r) => Some (JNum n, r)
            | None => None
            end
          else
            match strip_prefix (list_ascii_of_string "null") (c :: rest),
                  strip_prefix (list_ascii_of_string "true") (c :: rest),
                  strip_prefix (list_ascii_of_string "false") (c :: rest) with
            | Some r, _, _ => Some (JNull, r)
            | _, Some r, _ => Some (JBool true, r)
            | _, _, Some r => Some (JBool false, r)
            | _, _, _ => None
            end
      end
  end
with read_items (fuel : nat) (cs : list ascii)
  : option (list json * list ascii) :=
  match fuel with
  | O => None
  | S fuel =>
      match read_value fuel cs with
      | Some (v, r) =>
          match skip_ws r with
          | c :: r' =>
              if Ascii.eqb c "," then
                match read_items fuel r' with
                | Some (vs, r'') => Some (v :: vs, r'')
                | None => None
                end
              else if Ascii.eqb c "]" then Some ([v], r')
              else None
          | [] => None
          end
      | None => None
      end
  end
with read_fields (fuel : nat) (cs : list ascii) (acc : list (string * json))
  : option (list (string * json) * list ascii) :=
  match fuel with
  | O => None
  | S fuel =>
      match skip_ws cs with
      | q :: r0 =>
          if Ascii.eqb q dquote then
            match read_string r0 with
            | Some (k, r1) =>
                match skip_ws r1 with
                | c :: r2 =>
                    if Ascii.eqb c ":" then
                      match read_value fuel r2 with
                      | Some (v, r3) =>
                          let acc := dict_set k v acc in
                          match skip_ws r3 with
                          | d :: r4 =>
                              if Ascii.eqb d "," then read_fields fuel r4 acc
                              else if Ascii.eqb d "}" then Some (acc, r4)
                              else None
                          | [] => None
                          end
                      | None => None
                      end
                    else None
                | [] => None
                end
            | None => None
            end
          else None
      | [] => None
      end
  end.

(** [json.loads]: one value and nothing but white space after it. *)
Definition loads (s : string) : option json :=
  match read_value (S (String.length s)) (list_ascii_of_string s) with
  | Some (v, rest) =>
      match skip_ws rest with
      | [] => Some v
      | _ :: _ => None
      end
  | None => None
  end.

Definition escape_char (c : ascii) : string :=
  if Ascii.eqb c dquote then String backslash (String dquote EmptyString)
  else if Ascii.eqb c backslash
  then String backslash (String backslash EmptyString)
  else if Ascii.eqb c (ascii_of_nat 10) then String backslash "n"
  else if Ascii.eqb c (ascii_of_nat 9) then String backslash "t"
  else if Ascii.eqb c (ascii_of_nat 13) then String backslash "r"
  else String c EmptyString.

Fixpoint escape (s : string) : string :=
  match s with
  | EmptyString => EmptyString
  | String c s' => escape_char c ++ escape s'
  end.

Definition quote (s : string) : string :=
  String dquote (escape s ++ String dquote EmptyString).

Definition decimal (n : Z) : string :=
  NilEmpty.string_of_int (Z.to_int n).

(** [json.dumps] with its default separators. *)
Fixpoint dumps (v : json) : string :=
  match v with
  | JNull => "null"
  | JBool true => "true"
  | JBool false => "false"
  | JNum n => decimal n
  | JStr s => quote s
  | JArr items => "[" ++ join ", " (map dumps items) ++ "]"
  | JObj fields =>
      "{" ++ join ", " (map (λ kv, quote (fst kv) ++ ": " ++ dumps (snd kv))
                             fields) ++ "}"
  end.

(** [str] of a value that is not a string, with strings inside lists and
    dicts between single quotes. *)
Fixpoint repr (v : json) : string :=
  match v with
  | JNull => "None"
  | JBool true => "True"
  | JBool false => "False"
  | JNum n => decimal n
  | JStr s => String squote (s ++ String squote EmptyString)
  | JArr items => "[" ++ join ", " (map repr items) ++ "]"
  | JObj fields =>
      "{" ++ join ", "
               (map (λ kv, String squote (fst kv ++ String squote EmptyString)
                           ++ ": " ++ repr (snd kv)) fields) ++ "}"
  end.

#[export] Instance codec : Codec :=
  {| json_loads := loads; json_dumps := dumps; format_other := repr |}.

End Reference.

(** ** The vocabulary of the specification *)

Module Spec.
Import Py Sqlite Host.

Section WithCodec.
Context `{Codec}.

(** *** The extraction *)

(** The payload is an object that has the keys the INSERT reads with
    [data[...]]. *)
Definition has_payload_keys (data : json) : Prop :=
  ∃ fields tables metadata measures relationships,
    data = JObj fields ∧
    assoc "tables" fields = Some tables ∧
    assoc "metadata" fields = Some metadata ∧
    assoc "measures" fields = Some measures ∧
    assoc "relationships" fields = Some relationships.

(** The ways an extraction fails: the time limit, a script that does not
    start, an exit code other than 0, no marker in stdout, text after the
    marker that does not decode, a payload without the keys. *)
Inductive extraction_fails : Mcp.run_result → Prop :=
| fails_timeout : extraction_fails Mcp.TimeoutExpired
| fails_launch : extraction_fails Mcp.LaunchError
| fails_exit rc out err :
    rc ≠ 0 → extraction_fails (Mcp.CompletedProcess rc out err)
| fails_marker rc out err :
    contains Mcp.marker out = false →
    extraction_fails (Mcp.CompletedProcess rc out err)
| fails_decode rc out err :
    Mcp.parse_payload out = None →
    extraction_fails (Mcp.CompletedProcess rc out err)
| fails_keys rc out err data :
    Mcp.parse_payload out = Some data → ¬ has_payload_keys data →
    extraction_fails (Mcp.CompletedProcess rc out err).

(** The success condition in the words of the specification: somewhere in
    the stream stands the marker, followed by one JSON object with the
    keys tables, metadata, schema, measures and relationships. *)
Definition has_five_keys (v : json) : bool :=
  match v with
  | JObj fields =>
      forallb (λ k, bool_decide (is_Some (assoc k fields)))
              ["tables"; "metadata"; "schema"; "measures"; "relationships"]
  | _ => false
  end.

Fixpoint spec_success (stdout : string) : bool :=
  (String.prefix Mcp.marker stdout &&
   match json_loads (strip (drop 8 stdout)) with
   | Some v => has_five_keys v
   | None => false
   end) ||
  match stdout with
  | EmptyString => false
  | String _ stdout' => spec_success stdout'
  end.

(** *** The impact search *)

(** An ASCII upper case letter. *)
Definition is_upper (c : ascii) : bool :=
  let n := nat_of_ascii c in (65 <=? n)%nat && (n <=? 90)%nat.

(** Two characters that are equal, or an upper case letter and its lower
    case form. *)
Definition same_letter (c d : ascii) : bool :=
  Ascii.eqb c d ||
  (is_upper c && Ascii.eqb d (ascii_of_nat (nat_of_ascii c + 32))) ||
  (is_upper d && Ascii.eqb c (ascii_of_nat (nat_of_ascii d + 32))).

(** Two strings that differ at most in the case of their ASCII letters. *)
Fixpoint case_variant (s t : string) : bool :=
  match s, t with
  | EmptyString, EmptyString => true
  | String c s', String d t' => same_letter c d && case_variant s' t'
  | _, _ => false
  end.

(** [name] contains [term] up to the case of letters. *)
Definition contains_ignoring_case (term name : string) : Prop :=
  ∃ pre mid post,
    name = (pre ++ mid ++ post)%string ∧ case_variant mid term = true.


(** A blob that is not valid JSON and reaches [json.loads]: the empty
    text is false and is not decoded. *)
Definition undecodable (blob : option string) : Prop :=
  ∃ s, blob = Some s ∧ s ≠ EmptyString ∧ json_loads s = None.

(** The project row with its tables blob set to NULL. *)
Definition without_tables (p : Mcp.project) : Mcp.project :=
  {| Mcp.id := Mcp.id p; Mcp.name := Mcp.name p;
     Mcp.file_path := Mcp.file_path p; Mcp.file_hash := Mcp.file_hash p;
     Mcp.last_analyzed := Mcp.last_analyzed p;
     Mcp.model_size := Mcp.model_size p;
     Mcp.tables_data := None;
     Mcp.metadata_data := Mcp.metadata_data p;
     Mcp.schema_data := Mcp.schema_data p;
     Mcp.measures_data := Mcp.measures_data p;
     Mcp.relationships_data := Mcp.relationships_data p |}.


(** A decoded column as the search reads it: its name. *)
Definition column_view (column : json) : result string :=
  column_name ← getitem column "name";
  as_str column_name.

(** A decoded table as the search reads it: its name and the names of its
    columns. *)
Definition table_view (table : json) : result (string * list string) :=
  table_name ← getitem table "name";
  t ← as_str table_name;
  columns ← get table "columns" (JArr []);
  cs ← iter columns;
  names ← traverse column_view cs;
  Ok (t, names).

(** A decoded measure as the search reads it: its name, the table it is
    tagged with, its expression as stored and as text. *)
Record measure_view := {
  mv_name : string;
  mv_table_name : json;
  mv_dax : json;
  mv_text : string;
}.

Definition view_measure (measure : json) : result measure_view :=
  measure_name ← getitem measure "name";
  m ← as_str measure_name;
  table_name ← get measure "table_name" (JStr "Unknown");
  dax ← get measure "expression" (JStr "");
  e ← as_str dax;
  Ok {| mv_name := m; mv_table_name := table_name; mv_dax := dax;
        mv_text := e |}.

(** What the search reads of one project under a scope: the tables when
    the scope has tables and the blob decodes, the measures when the scope
    has measures, the blob decodes and the tables blob did not fail. *)
Record project_view := {
  pv_name : string;
  pv_tables : list (string * list string);
  pv_measures : list measure_view;
}.

Definition view_measures (scope : string) (measures_json : option string)
  : result (list measure_view) :=
  if truthy_text measures_json && in_list scope ["all"; "measure"] then
    match json_loads (default "" measures_json) with
    | Some measures =>
        ms ← iter measures;
        traverse view_measure ms
    | None => Ok []
    end
  else Ok [].

Definition view_project (scope : string)
    (row : string * option string * option string) : result project_view :=
  let '(project_name, tables_json, measures_json) := row in
  if truthy_text tables_json && in_list scope ["all"; "table"] then
    match json_loads (default "" tables_json) with
    | Some tables =>
        ts ← iter tables;
        tvs ← traverse table_view ts;
        mvs ← view_measures scope measures_json;
        Ok {| pv_name := project_name; pv_tables := tvs; pv_measures := mvs |}
    | None =>
        Ok {| pv_name := project_name; pv_tables := []; pv_measures := [] |}
    end
  else
    mvs ← view_measures scope measures_json;
    Ok {| pv_name := project_name; pv_tables := []; pv_measures := mvs |}.

(** The four lists of the search, written as comprehensions over the
    views of the projects. *)
Definition table_hits (term : string) (pvs : list project_view)
  : list Mcp.table_hit :=
  pv ← pvs;
  tv ← pv_tables pv;
  if contains (lower term) (lower (fst tv))
  then [{| Mcp.th_project_name := pv_name pv; Mcp.th_table_name := fst tv;
           Mcp.th_match_type := "Table Name" |}]
  else [].

Definition column_hits (term : string) (pvs : list project_view)
  : list Mcp.column_hit :=
  pv ← pvs;
  tv ← pv_tables pv;
  c ← snd tv;
  if contains (lower term) (lower c)
  then [{| Mcp.ch_project_name := pv_name pv; Mcp.ch_table_name := fst tv;
           Mcp.ch_column_name := c; Mcp.ch_match_type := "Column Name" |}]
  else [].

Definition measure_hits (term : string) (pvs : list project_view)
  : list Mcp.measure_hit :=
  pv ← pvs;
  mv ← pv_measures pv;
  if contains (lower term) (lower (mv_name mv))
  then [{| Mcp.mh_project_name := pv_name pv;
           Mcp.mh_table_name := mv_table_name mv;
           Mcp.mh_measure_name := mv_name mv;
           Mcp.mh_dax_expression := mv_dax mv;
           Mcp.mh_match_type := "Measure Name" |}]
  else [].

Definition reference_hits (term : string) (pvs : list project_view)
  : list Mcp.reference_hit :=
  pv ← pvs;
  mv ← pv_measures pv;
  if contains (lower term) (lower (mv_text mv))
  then [{| Mcp.rh_project_name := pv_name pv;
           Mcp.rh_measure_name := mv_name mv;
           Mcp.rh_dax_expression := mv_dax mv;
           Mcp.rh_match_type := "DAX Expression Reference" |}]
  else [].

(** The search as the specification describes it. *)
Definition search (term scope : string) (db : Mcp.database)
  : result Mcp.impact :=
  pvs ← traverse (view_project scope) (Mcp.select_impact_data db);
  Ok {| Mcp.projects_using_table := table_hits term pvs;
        Mcp.measures_referencing_item := reference_hits term pvs;
        Mcp.projects_with_measure := measure_hits term pvs;
        Mcp.projects_using_column := column_hits term pvs |}.

(** The results [r] with the hits of the views appended. *)
Definition extend (r : Mcp.impact) (term : string) (pvs : list project_view)
  : Mcp.impact :=
  {| Mcp.projects_using_table := Mcp.projects_using_table r ++ table_hits term pvs;
     Mcp.measures_referencing_item :=
       Mcp.measures_referencing_item r ++ reference_hits term pvs;
     Mcp.projects_with_measure :=
       Mcp.projects_with_measure r ++ measure_hits term pvs;
     Mcp.projects_using_column :=
       Mcp.projects_using_column r ++ column_hits term pvs |}.

(** *** The sharing reports of the denormalized store *)

(** The set stored in the dict under a key, empty when the key is
    absent. *)
Fixpoint usage_get (k : key) (u : Mcp.usage) : gset string :=
  match u with
  | [] => ∅
  | (k', ps) :: u' => if decide (k = k') then ps else usage_get k u'
  end.

(** A dict has no key twice, and the loops store no empty set. *)
Definition usage_ok (u : Mcp.usage) : Prop :=
  NoDup (u.*1) ∧ Forall (λ kp, snd kp ≠ ∅) u.

(** One step of a loop that adds project [p] under the keys it owns. *)
Definition add_for (p : string) (u : Mcp.usage) (k : key) : Mcp.usage :=
  Mcp.usage_add k p u.

(** The key under which a table or a measure is counted: its name. *)
Definition name_key (entity : json) : result key :=
  n ← getitem entity "name";
  hash_key n.

(** The names in a decoded tables or measures blob. *)
Definition entity_names (blob : json) : result (list key) :=
  entities ← iter blob;
  traverse name_key entities.

(** The composite key [table.column] of a column. *)
Definition column_key (table_name column : json) : result key :=
  column_name ← getitem column "name";
  Ok (KStr (fstr table_name ++ "." ++ fstr column_name)).

Definition table_column_keys (table : json) : result (list key) :=
  table_name ← getitem table "name";
  columns ← get table "columns" (JArr []);
  cs ← iter columns;
  traverse (column_key table_name) cs.

(** The composite keys in a decoded tables blob. *)
Definition column_names (blob : json) : result (list key) :=
  tables ← iter blob;
  @List.concat key <$> traverse table_column_keys tables.

(** The keys a stored blob contributes: none when it is empty or does not
    decode. *)
Definition stored_keys (keys : json → result (list key)) (blob : string)
  : list key :=
  if truthy blob then
    match json_loads blob with
    | Some v =>
        match keys v with
        | Ok ks => ks
        | Raise _ => []
        end
    | None => []
    end
  else [].

(** The set of the names of the projects that own key [k]. *)
Definition owners (keys : json → result (list key)) (k : key)
    (rows : list (string * string)) : gset string :=
  list_to_set
    (map fst (filter (λ row, k ∈ stored_keys keys (snd row)) rows)).

(** Every blob among the rows that decodes has the shape the loop reads:
    its keys can be listed. *)
Definition readable (keys : json → result (list key))
    (rows : list (string * string)) : Prop :=
  Forall (λ row, ∀ v, truthy (snd row) = true →
                      json_loads (snd row) = Some v →
                      ∃ ks, keys v = Ok ks) rows.

(** What the specification asks of a sharing report over the fetched
    rows: it is ordered by descending project count, no name occurs in
    two of its rows, and its rows are exactly those of the names that more
    than one project owns, with the number of owners and their sorted,
    comma-joined names. *)
Definition sharing_report (keys : json → result (list key))
    (rows : list (string * string)) (report : list Mcp.shared_row) : Prop :=
  Sorted Mcp.count_ge report ∧
  NoDup (Mcp.entity_name <$> report) ∧
  ∀ row, row ∈ report ↔
    (1 < size (owners keys (Mcp.entity_name row) rows))%nat ∧
    Mcp.project_count row = size (owners keys (Mcp.entity_name row) rows) ∧
    Mcp.shared_projects row =
      join ", " (sorted (elements (owners keys (Mcp.entity_name row) rows))).

(** A report function meets the specification on the fetched rows: it
    returns a report when the rows are readable, and what it returns is
    the sharing report of the rows. *)
Definition reports (outcome : result (list Mcp.shared_row))
    (keys : json → result (list key)) (rows : list (string * string))
  : Prop :=
  (readable keys rows → ∃ report, outcome = Ok report) ∧
  (∀ report, outcome = Ok report → sharing_report keys rows report).

(** *** The normalized store *)

(** No child row of the normalized store refers to a project id above
    the counter of table [projects]. *)
Definition references_issued (db : Normalized.database) : Prop :=
  let top := seq (Normalized.projects db) in
  Forall (λ t, Normalized.table_project_id t ≤ top)
         (rows (Normalized.tables db)) ∧
  Forall (λ m, Normalized.measure_project_id m ≤ top)
         (rows (Normalized.measures db)) ∧
  Forall (λ r, Normalized.relationship_project_id r ≤ top)
         (rows (Normalized.relationships db)) ∧
  Forall (λ q, Normalized.query_project_id q ≤ top)
         (rows (Normalized.power_queries db)).

(** Every child row of [db] is still a row of [db']. *)
Definition keeps_children (db db' : Normalized.database) : Prop :=
  rows (Normalized.tables db) ⊆ rows (Normalized.tables db') ∧
  rows (Normalized.columns db) ⊆ rows (Normalized.columns db') ∧
  rows (Normalized.measures db) ⊆ rows (Normalized.measures db') ∧
  rows (Normalized.relationships db) ⊆ rows (Normalized.relationships db') ∧
  rows (Normalized.power_queries db) ⊆ rows (Normalized.power_queries db').

(** The set of the names of the projects joined to entity [n]. *)
Definition pair_owners (n : string) (pairs : list (string * string))
  : gset string :=
  list_to_set (map snd (filter (λ np, fst np = n) pairs)).

(** What holds of a report of the normalized analyzer over the joined
    pairs: it is ordered by descending project count, names no entity
    twice, has a row for every entity that more than one project owns, and
    each of its rows carries the number of owners and their names joined
    by a comma, in some order. *)
Definition sql_sharing_report (pairs : list (string * string))
    (report : list Normalized.shared_row) : Prop :=
  Sorted Normalized.count_ge report ∧
  NoDup (Normalized.entity_name <$> report) ∧
  (∀ n, (1 < size (pair_owners n pairs))%nat →
        ∃ row, row ∈ report ∧ Normalized.entity_name row = n) ∧
  (∀ row, row ∈ report →
     (1 < size (pair_owners (Normalized.entity_name row) pairs))%nat ∧
     Normalized.project_count row
       = size (pair_owners (Normalized.entity_name row) pairs) ∧
     ∃ names,
       names ≡ₚ elements (pair_owners (Normalized.entity_name row) pairs) ∧
       Normalized.shared_projects row = join "," names).

End WithCodec.

End Spec.

(** ** Pages of the application and further Python primitives *)

Module PyText.
Import Py.

(** [s.replace("", new)]: [new] before every character and at the end. *)
Fixpoint interleave (new s : string) : string :=
  match s with
  | EmptyString => new
  | String c s' => new ++ String c (interleave new s')
  end.

(** The scan of [s.replace(old, new)] for a non-empty [old], with [skip]
    characters of a replaced occurrence still to pass over. *)
Fixpoint replace_from (skip : nat) (old new s : string) : string :=
  match s with
  | EmptyString => EmptyString
  | String c s' =>
      match skip with
      | S k => replace_from k old new s'
      | O =>
          if String.prefix old s
          then new ++ replace_from (String.length old - 1) old new s'
          else String c (replace_from 0 old new s')
      end
  end.

(** [s.replace(old, new)]: the occurrences of [old] that do not overlap,
    from the left. *)
Definition replace (old new s : string) : string :=
  match old with
  | EmptyString => interleave new s
  | String _ _ => replace_from 0 old new s
  end.

(** [s.split(sep)] for a separator of one character. *)
Fixpoint split (sep : ascii) (s : string) : list string :=
  match s with
  | EmptyString => [EmptyString]
  | String c s' =>
      if Ascii.eqb c sep then EmptyString :: split sep s'
      else
        match split sep s' with
        | piece :: pieces => String c piece :: pieces
        | [] => [String c EmptyString]
        end
  end.

End PyText.

Module McpPages.
Import Py Sqlite Host Mcp PyText.

(** [ORDER BY last_analyzed DESC] *)
Definition later (p q : project) : Prop := last_analyzed q ≤ last_analyzed p.

#[export] Instance later_dec p q : Decision (later p q) :=
  decide (last_analyzed q ≤ last_analyzed p).

(** [get_all_projects]: [SELECT * FROM projects ORDER BY last_analyzed
    DESC]; the order among rows of equal time is whatever the sort
    leaves. *)
Definition get_all_projects (db : database) : list project :=
  merge_sort later (rows db).

(** [DELETE FROM projects]: the rows go, the AUTOINCREMENT counter of the
    table stays. *)
Definition delete_all (db : database) : database :=
  {| rows := []; seq := seq db |}.

(** [DELETE FROM projects WHERE id = ?] *)
Definition delete_project (i : Z) (db : database) : database :=
  delete_where (λ p, id p = i) db.

(** An uploaded file: its name in the uploader and the temporary copy the
    page writes. *)
Record upload := {
  upload_name : string;
  tmp_file : pbix_file;
}.

(** Lines 586 to 595 of [main]: the project name is the file name without
    [.pbix], the row of that name is deleted and committed, then the copy
    is analyzed. *)
Definition analyze_upload (u : upload) (now : Z) (run : run_result)
    `{Codec} (db : database) : database * option Z :=
  let project_name := replace ".pbix" "" (upload_name u) in
  let db := delete_by_name project_name db in
  analyze_pbix_file_with_mcp (tmp_file u) (Some project_name) now run db.

(** What the page keeps between two runs of the script: the flag
    [st.session_state.confirm_clear] and the database file. *)
Record app := {
  confirm_clear : bool;
  store : database;
}.

(** The buttons of the page File Upload and Analysis and the calls of the
    bridge. *)
Inductive action :=
| ClearAllData
| DeleteProject (i : Z)
| AnalyzeFile (u : upload) (now : Z) (run : run_result)
| Analyze (f : pbix_file) (project_name : option string) (now : Z)
          (run : run_result).

Definition step `{Codec} (a : action) (s : app) : app :=
  match a with
  | ClearAllData =>
      if confirm_clear s
      then {| confirm_clear := false; store := delete_all (store s) |}
      else {| confirm_clear := true; store := store s |}
  | DeleteProject i =>
      {| confirm_clear := confirm_clear s;
         store := delete_project i (store s) |}
  | AnalyzeFile u now run =>
      {| confirm_clear := confirm_clear s;
         store := fst (analyze_upload u now run (store s)) |}
  | Analyze f project_name now run =>
      {| confirm_clear := confirm_clear s;
         store := fst (analyze_pbix_file_with_mcp f project_name now run
                         (store s)) |}
  end.

(** The state after the actions, in order. *)
Definition run_actions `{Codec} (actions : list action) (s : app) : app :=
  foldl (λ s a, step a s) s actions.

(** A fresh session on a fresh database file. *)
Definition start : app :=
  {| confirm_clear := false; store := init_database |}.

End McpPages.

Module McpImpactPage.
Import Py Sqlite Host Mcp PyText.

Section WithCodec.
Context `{Codec}.

(** Lines 777 to 779 of [main]: the search runs when the term has a
    character that is not white space, on the stripped term. *)
Definition impact_page (search_term search_type : string) (db : database)
  : option (result impact) :=
  if truthy search_term && (0 <? Z.of_nat (String.length (strip search_term)))
  then Some (analyze_impact (strip search_term) search_type db)
  else None.

End WithCodec.
End McpImpactPage.

Module McpOverview.
Import Py Sqlite Host Mcp McpPages.

(** What ends the page: the [JSONDecodeError] of [json.loads], which the
    page does not catch, or another exception. *)
Inductive failure :=
| JSONDecodeError
| Raised (e : exn).

Inductive outcome (A : Type) : Type :=
| Shown (a : A)
| Failed (e : failure).
Arguments Shown {A} a.
Arguments Failed {A} e.

(** [total += v] for an [int] total: integers and booleans are added,
    the other values raise. *)
Definition add_count (total : Z) (v : json) : result Z :=
  match v with
  | JNum n => Ok (total + n)
  | JBool b => Ok (total + (if b then 1 else 0))
  | _ => Raise TypeError
  end.

Section WithCodec.
Context `{Codec}.

(** Lines 623 to 626 of [main]: the metadata of one project. *)
Definition count_row (p : project) (totals : Z * Z) : outcome (Z * Z) :=
  if truthy_text (metadata_data p) then
    match json_loads (default "" (metadata_data p)) with
    | Some metadata =>
        match
          (table_count ← get metadata "table_count" (JNum 0);
           total_tables ← add_count (fst totals) table_count;
           measure_count ← get metadata "measure_count" (JNum 0);
           total_measures ← add_count (snd totals) measure_count;
           Ok (total_tables, total_measures))
        with
        | Ok totals => Shown totals
        | Raise e => Failed (Raised e)
        end
    | None => Failed JSONDecodeError
    end
  else Shown totals.

(** Lines 622 to 626: the loop over the rows of the data frame. *)
Fixpoint count_rows (l : list project) (totals : Z * Z) : outcome (Z * Z) :=
  match l with
  | [] => Shown totals
  | p :: l' =>
      match count_row p totals with
      | Shown totals' => count_rows l' totals'
      | Failed e => Failed e
      end
  end.

(** The metrics Total Projects, Total Tables and Total Measures of the
    page Project Overview; [None] when there is no project and the page
    shows its hint instead. *)
Definition project_overview (db : database) : option (outcome (nat * Z * Z)) :=
  let projects := get_all_projects db in
  match projects with
  | [] => None
  | _ :: _ =>
      Some match count_rows projects (0, 0) with
           | Shown (total_tables, total_measures) =>
               Shown (length projects, total_tables, total_measures)
           | Failed e => Failed e
           end
  end.

End WithCodec.
End McpOverview.

(** ** The dependency network of the normalized analyzer *)

Module Network.
Import Py Sqlite Host Normalized PyText.

(** [ORDER BY last_analyzed DESC] *)
Definition later (p q : project) : Prop := last_analyzed q ≤ last_analyzed p.

#[export] Instance later_dec p q : Decision (later p q) :=
  decide (last_analyzed q ≤ last_analyzed p).

(** [get_all_projects]: [SELECT * FROM projects ORDER BY last_analyzed
    DESC]. *)
Definition get_all_projects (db : database) : list project :=
  merge_sort later (rows (projects db)).

(** An edge of a [networkx.Graph] with the attributes the analyzer sets;
    the graph is undirected, so an edge joins its two ends in either
    order. *)
Record edge := {
  edge_u : string;
  edge_v : string;
  weight : Z;
  shared_tables : list string;
}.

(** The graph: its nodes in the order in which they were added, and its
    edges. *)
Record graph := {
  nodes : list string;
  edges : list edge;
}.

Definition empty_graph : graph := {| nodes := []; edges := [] |}.

(** The unordered pair [{x, y}] is the pair [{a, b}]. *)
Definition same_pair (a b x y : string) : bool :=
  (String.eqb x a && String.eqb y b) || (String.eqb x b && String.eqb y a).

Definition joins (a b : string) (e : edge) : bool :=
  same_pair a b (edge_u e) (edge_v e).

(** [G.add_node(n, ...)]: a node that is there is not added again. *)
Definition add_node (n : string) (G : graph) : graph :=
  if decide (n ∈ nodes G) then G
  else {| nodes := nodes G ++ [n]; edges := edges G |}.

(** [G.has_edge(a, b)] *)
Definition has_edge (a b : string) (G : graph) : bool :=
  existsb (joins a b) (edges G).

(** [G[a][b]['weight'] += 1] *)
Definition add_weight (a b : string) (G : graph) : graph :=
  {| nodes := nodes G;
     edges := map (λ e, if joins a b e
                        then {| edge_u := edge_u e; edge_v := edge_v e;
                                weight := weight e + 1;
                                shared_tables := shared_tables e |}
                        else e) (edges G) |}.

(** [G.add_edge(a, b, weight=1, shared_tables=[t])]: the ends become
    nodes when they are not; an edge that is there gets the attributes. *)
Definition add_edge (a b t : string) (G : graph) : graph :=
  let G := add_node b (add_node a G) in
  if has_edge a b G then
    {| nodes := nodes G;
       edges := map (λ e, if joins a b e
                          then {| edge_u := edge_u e; edge_v := edge_v e;
                                  weight := 1; shared_tables := [t] |}
                          else e) (edges G) |}
  else
    {| nodes := nodes G;
       edges := edges G ++ [{| edge_u := a; edge_v := b; weight := 1;
                               shared_tables := [t] |}] |}.

(** Lines 329 to 332: one pair of projects that share the table. *)
Definition link (t : string) (G : graph) (pair : string * string) : graph :=
  let '(a, b) := pair in
  if has_edge a b G then add_weight a b G else add_edge a b t G.

(** The pairs [(l[i], l[j])] with [i < j], in the order of the two
    loops. *)
Fixpoint pairs (l : list string) : list (string * string) :=
  match l with
  | [] => []
  | x :: rest => map (pair x) rest ++ pairs rest
  end.

(** Lines 323 to 332: one row of the report on shared tables. *)
Definition add_shared_table (G : graph) (table_info : shared_row) : graph :=
  if (1 <? project_count table_info)%nat then
    let project_list := split "," (shared_projects table_info) in
    foldl (link (entity_name table_info)) G (pairs project_list)
  else G.

(** [create_dependency_network] *)
Definition create_dependency_network (db : database) : graph :=
  let shared_tables := get_shared_tables db in
  let G := foldl (λ G project, add_node (name project) G) empty_graph
                 (get_all_projects db) in
  foldl add_shared_table G shared_tables.

End Network.

Module NormalizedPages.
Import Py Sqlite Host Normalized Network.

(** A value of a column of dtype [int64]: the sum of such a column wraps
    around. *)
Definition int64 (z : Z) : Z := (z + 2 ^ 63) mod 2 ^ 64 - 2 ^ 63.

(** [column.sum()] of an integer column of a data frame. *)
Definition column_sum (l : list Z) : Z :=
  foldl (λ total x, int64 (total + x)) 0 l.

(** The metrics Total Projects, Total Tables and Total Measures of the
    page Project Overview; [None] when there is no project and the page
    shows its hint instead. *)
Definition project_overview (db : database) : option (nat * Z * Z) :=
  let projects := get_all_projects db in
  match projects with
  | [] => None
  | _ :: _ =>
      Some (length projects,
            column_sum (table_count <$> projects),
            column_sum (measure_count <$> projects))
  end.

End NormalizedPages.

(** ** Vocabulary of the properties of the pages, the stores and the network *)

Module McpStoreSpec.
Import Py Sqlite Host.

(** The store is well formed: no two rows share a name, no two rows
    share an id, and no id is above the counter. *)
Definition store_ok (db : Mcp.database) : Prop :=
  NoDup (Mcp.name <$> rows db) ∧
  NoDup (Mcp.id <$> rows db) ∧
  rowids_issued Mcp.id db.

End McpStoreSpec.

Module RoundTripSpec.
Import Py.

Section WithCodec.
Context `{Codec}.

(** The text [json.dumps] writes for [v] is not empty and [json.loads]
    reads [v] back from it. *)
Definition round_trips (v : json) : Prop :=
  json_dumps v ≠ EmptyString ∧ json_loads (json_dumps v) = Some v.

End WithCodec.
End RoundTripSpec.

Module OverviewSpec.
Import Py Sqlite Host Mcp.

Section WithCodec.
Context `{Codec}.



Definition sum (l : list Z) : Z := foldr Z.add 0 l.

End WithCodec.
End OverviewSpec.

Module LikeSpec.
Import Py.

(** The name has none of the characters that LIKE reads as wild cards. *)
Definition wildcard_free (name : string) : bool :=
  forallb (λ c, negb (Ascii.eqb c "%") && negb (Ascii.eqb c "_"))
          (list_ascii_of_string name).

End LikeSpec.

Module NormalizedStoreSpec.
Import Py Sqlite Host Normalized Spec.

(** What is stored of a column, a measure, a relationship and a query,
    the rowid and the reference apart. *)
Definition column_content (c : column_row) : string * string * bool :=
  (column_name c, data_type c, is_calculated c).

Definition measure_content (m : measure_row) : string * string * string :=
  (measure_table_name m, measure_name m, dax_expression m).

Definition relationship_content (r : relationship_row)
  : string * string * string * string * string :=
  (from_table r, from_column r, to_table r, to_column r, cardinality r).

Definition query_content (q : power_query_row) : string * string :=
  (query_name q, m_expression q).

(** The columns stored for the table with rowid [tid], in storage
    order. *)
Definition stored_columns (tid : Z) (db : database)
  : list (string * string * bool) :=
  column_content <$> filter (λ c, column_table_id c = tid) (rows (columns db)).

(** The tables stored for project id [j], each with its columns. *)
Definition stored_tables (j : Z) (db : database)
  : list (string * Z * Z * list (string * string * bool)) :=
  (λ t, (table_name t, row_count t, column_count t,
         stored_columns (table_id t) db)) <$>
    filter (λ t, table_project_id t = j) (rows (tables db)).

Definition stored_measures (j : Z) (db : database)
  : list (string * string * string) :=
  measure_content <$>
    filter (λ m, measure_project_id m = j) (rows (measures db)).

Definition stored_relationships (j : Z) (db : database)
  : list (string * string * string * string * string) :=
  relationship_content <$>
    filter (λ r, relationship_project_id r = j) (rows (relationships db)).

Definition stored_queries (j : Z) (db : database) : list (string * string) :=
  query_content <$>
    filter (λ q, query_project_id q = j) (rows (power_queries db)).

(** The same of the loaded model. *)
Definition model_columns_view (t : model_table)
  : list (string * string * bool) :=
  (λ c, (mc_name c, mc_data_type c, mc_is_calculated c)) <$> mt_columns t.

Definition model_tables_view (model : pbix_model)
  : list (string * Z * Z * list (string * string * bool)) :=
  (λ t, (mt_name t, mt_row_count t, Z.of_nat (length (mt_columns t)),
         model_columns_view t)) <$> model_tables model.

Definition model_table_measures (t : model_table)
  : list (string * string * string) :=
  (λ m, (mt_name t, mm_name m, mm_expression m)) <$> mt_measures t.

Definition model_measures_view (model : pbix_model)
  : list (string * string * string) :=
  t ← model_tables model; model_table_measures t.

Definition model_relationships_view (model : pbix_model)
  : list (string * string * string * string * string) :=
  (λ r, (mr_from_table r, mr_from_column r, mr_to_table r, mr_to_column r,
         mr_cardinality r)) <$> model_relationships model.

Definition model_queries_view (model : pbix_model)
  : list (string * string) :=
  (λ q, (mq_name q, mq_expression q)) <$> model_queries model.

(** No table has a rowid above the counter of [tables], and no column
    refers to a table above it. *)
Definition tables_issued (db : database) : Prop :=
  rowids_issued table_id (tables db) ∧
  Forall (λ c, column_table_id c ≤ seq (tables db)) (rows (columns db)).

(** The counts on every project row are those of the rows stored under
    its id. *)
Definition counts_agree (db : database) : Prop :=
  Forall (λ p, table_count p = Z.of_nat (length (stored_tables (id p) db)) ∧
               measure_count p
                 = Z.of_nat (length (stored_measures (id p) db)))
         (rows (projects db)).

(** The child rows of [db] refer to project ids up to [top]. *)
Definition references_le (top : Z) (db : database) : Prop :=
  Forall (λ t, table_project_id t ≤ top) (rows (tables db)) ∧
  Forall (λ m, measure_project_id m ≤ top) (rows (measures db)) ∧
  Forall (λ r, relationship_project_id r ≤ top) (rows (relationships db)) ∧
  Forall (λ q, query_project_id q ≤ top) (rows (power_queries db)).

(** The row of table [tables] and what is read back for a model table. *)
Definition model_table_view (t : model_table)
  : string * Z * Z * list (string * string * bool) :=
  (mt_name t, mt_row_count t, Z.of_nat (length (mt_columns t)),
   model_columns_view t).

(** The normalized store is well formed. *)
Definition normalized_ok (db : database) : Prop :=
  NoDup (name <$> rows (projects db)) ∧
  NoDup (id <$> rows (projects db)) ∧
  rowids_issued id (projects db) ∧
  references_issued db ∧
  tables_issued db ∧
  counts_agree db.

End NormalizedStoreSpec.

Module NormalizedReplaceSpec.
Import Py Sqlite Host Normalized.
(** The project row the INSERT OR REPLACE stores. *)
Definition project_row (i : Z) (project_name : string) (f : pbix_file)
    (now : Z) (model : pbix_model) : project :=
  {| id := i; name := project_name; file_path := path f;
     file_hash := content_hash f; last_analyzed := now;
     model_size := byte_size f;
     table_count := Z.of_nat (length (model_tables model));
     measure_count :=
       Z.of_nat (length (concat (map mt_measures (model_tables model)))) |}.
End NormalizedReplaceSpec.

Module NetworkSpec.
Import Py Sqlite Host Normalized PyText Network.

(** The weight of the edge that joins [a] and [b], 0 when there is
    none. *)
Definition weight_of (a b : string) (G : graph) : Z :=
  match List.find (joins a b) (edges G) with
  | Some e => weight e
  | None => 0
  end.

(** The pairs of projects the rows of a report link, in order. *)
Definition linked_pairs (report : list shared_row) : list (string * string) :=
  row ← report;
  if (1 <? project_count row)%nat
  then pairs (split "," (shared_projects row))
  else [].

(** An edge lists one shared table and has a weight of at least 1. *)
Definition edge_ok (e : edge) : Prop :=
  length (shared_tables e) = 1%nat ∧ 1 ≤ weight e.


(** No comma in the text. *)
Definition comma_free (s : string) : Prop :=
  Forall (λ c, c ≠ ","%char) (list_ascii_of_string s).

End NetworkSpec.

Module NormalizedOverviewSpec.
Import Py Sqlite Host Normalized.

(** The rows of a child table that refer to a stored project. *)
Definition owned {A : Type} (project_id : A → Z) (t : sql_table A)
    (db : database) : list A :=
  filter (λ x, project_id x ∈ id <$> rows (projects db)) (rows t).

End NormalizedOverviewSpec.

(** ** Concrete stores and inputs *)

Module Fixtures.
Import Py Sqlite Host Reference.

Definition report_v1 : pbix_file :=
  {| path := "C:/tmp/Report.pbix"; stem := "Report";
     content_hash := "0cc175b9c0f1b6a831c399e269772661"; byte_size := 4096 |}.

(** The same report after an edit: another content hash. *)
Definition report_v2 : pbix_file :=
  {| path := "C:/tmp/Report.pbix"; stem := "Report";
     content_hash := "92eb5ffee6ae2fec3ad71c777531578f"; byte_size := 5120 |}.

Definition sales_tables : json :=
  JArr [JObj [("name", JStr "Sales"); ("row_count", JNum 10);
              ("column_count", JNum 1);
              ("columns", JArr [JObj [("name", JStr "Amount");
                                      ("data_type", JStr "Unknown");
                                      ("is_calculated", JBool false)]])]].

Definition revenue_measures : json :=
  JArr [JObj [("table_name", JStr "Sales"); ("name", JStr "Total Revenue");
              ("expression", JStr "SUM(Sales[Amount])")]].

Definition payload : json :=
  JObj [("tables", sales_tables);
        ("metadata", JObj [("table_count", JNum 1); ("measure_count", JNum 1);
                           ("relationship_count", JNum 0)]);
        ("schema", JArr []);
        ("measures", revenue_measures);
        ("relationships", JArr [])].

(** The payload without the key [schema]. *)
Definition payload_without_schema : json :=
  JObj [("tables", sales_tables);
        ("metadata", JObj []);
        ("measures", revenue_measures);
        ("relationships", JArr [])].

Definition newline : string := String (ascii_of_nat 10) EmptyString.

(** What the extraction script prints on a good run: diagnostics, then
    the marker and the payload. *)
Definition good_stdout : string :=
  "TABLES_TYPE: <class 'list'>" ++ newline ++
  "TABLE_0: Sales" ++ newline ++
  "SUCCESS:" ++ dumps payload ++ newline.

Definition good_run : Mcp.run_result :=
  Mcp.CompletedProcess 0 good_stdout "".

(** The same output from a process that ends with exit code 1. *)
Definition crashed_run : Mcp.run_result :=
  Mcp.CompletedProcess 1 good_stdout "".

Definition schemaless_run : Mcp.run_result :=
  Mcp.CompletedProcess 0 ("SUCCESS:" ++ dumps payload_without_schema) "".

(** The store after [report_v1] was analyzed on an empty database. *)
Definition stored_v1 : Mcp.database :=
  fst (Mcp.analyze_pbix_file_with_mcp report_v1 None 100 good_run
         Mcp.init_database).

(** The model [PbixModel] loads from [report_v1]. *)
Definition model_v1 : Normalized.pbix_model :=
  {| Normalized.model_tables :=
       [{| Normalized.mt_name := "Sales"; Normalized.mt_row_count := 10;
           Normalized.mt_columns :=
             [{| Normalized.mc_name := "Amount";
                 Normalized.mc_data_type := "Decimal";
                 Normalized.mc_is_calculated := false |}];
           Normalized.mt_measures :=
             [{| Normalized.mm_name := "Total Revenue";
                 Normalized.mm_expression := "SUM(Sales[Amount])" |}] |}];
     Normalized.model_relationships :=
       [{| Normalized.mr_from_table := "Sales";
           Normalized.mr_from_column := "CustomerID";
           Normalized.mr_to_table := "Customers";
           Normalized.mr_to_column := "ID";
           Normalized.mr_cardinality := "ManyToOne" |}];
     Normalized.model_queries :=
       [{| Normalized.mq_name := "Sales";
           Normalized.mq_expression := "let Source = Sql.Database() in Source" |}]
  |}.

(** The model after the edit: table Sales was replaced by table Orders. *)
Definition model_v2 : Normalized.pbix_model :=
  {| Normalized.model_tables :=
       [{| Normalized.mt_name := "Orders"; Normalized.mt_row_count := 7;
           Normalized.mt_columns :=
             [{| Normalized.mc_name := "Quantity";
                 Normalized.mc_data_type := "Integer";
                 Normalized.mc_is_calculated := false |}];
           Normalized.mt_measures := [] |}];
     Normalized.model_relationships := [];
     Normalized.model_queries := [] |}.

(** The normalized store after [report_v1] was analyzed on an empty
    database. *)
Definition normalized_v1 : Normalized.database :=
  fst (Normalized.analyze_pbix_file true (Some model_v1) report_v1 None 100
         Normalized.init_database).

(** A project row of the denormalized store with the given blobs. *)
Definition stored (i : Z) (n : string) (tables measures : option string)
  : Mcp.project :=
  {| Mcp.id := i; Mcp.name := n; Mcp.file_path := "C:/tmp/" ++ n ++ ".pbix";
     Mcp.file_hash := n; Mcp.last_analyzed := i; Mcp.model_size := 1024;
     Mcp.tables_data := tables; Mcp.metadata_data := Some "{}";
     Mcp.schema_data := Some "[]"; Mcp.measures_data := measures;
     Mcp.relationships_data := Some "[]" |}.

Definition table (n : string) (columns : list string) : json :=
  JObj [("name", JStr n); ("row_count", JNum 0);
        ("column_count", JNum (Z.of_nat (length columns)));
        ("columns", JArr (map (λ c, JObj [("name", JStr c);
                                           ("data_type", JStr "Unknown");
                                           ("is_calculated", JBool false)])
                              columns))].

Definition measure (t n e : string) : json :=
  JObj [("table_name", JStr t); ("name", JStr n); ("expression", JStr e)].

Definition blob (v : json) : option string := Some (dumps v).

(** Three projects: table Sales is in A and in B and nowhere else. *)
Definition project_a : Mcp.project :=
  stored 1 "A"
    (blob (JArr [table "Sales" ["Amount"; "Date"]; table "Customers" ["ID"]]))
    (blob (JArr [measure "Sales" "Total Revenue" "SUM(Sales[Amount])"])).

Definition project_b : Mcp.project :=
  stored 2 "B"
    (blob (JArr [table "Sales" ["Amount"]; table "Products" ["SKU"]]))
    (blob (JArr [measure "Sales" "Total Revenue" "SUM(Sales[Amount])";
                 measure "Products" "Product Count" "COUNTROWS(Products)"])).

Definition project_c : Mcp.project :=
  stored 3 "C"
    (blob (JArr [table "Inventory" ["SKU"; "Stock"]]))
    (blob (JArr [measure "Inventory" "Stock Value" "SUM(Inventory[Stock])"])).

Definition three_projects : Mcp.database :=
  {| rows := [project_a; project_b; project_c]; seq := 3 |}.

(** Project B with a tables blob that was cut off, its measures intact. *)
Definition project_b_broken_tables : Mcp.project :=
  stored 2 "B" (Some "[{")
    (blob (JArr [measure "Sales" "Total Revenue" "SUM(Sales[Amount])";
                 measure "Products" "Product Count" "COUNTROWS(Products)"])).


Definition model_of (tables : list (string * list string))
  : Normalized.pbix_model :=
  {| Normalized.model_tables :=
       map (λ t, {| Normalized.mt_name := fst t;
                    Normalized.mt_row_count := 0;
                    Normalized.mt_columns :=
                      map (λ c, {| Normalized.mc_name := c;
                                   Normalized.mc_data_type := "Unknown";
                                   Normalized.mc_is_calculated := false |})
                          (snd t);
                    Normalized.mt_measures := [] |}) tables;
     Normalized.model_relationships := [];
     Normalized.model_queries := [] |}.

Definition file_of (n : string) : pbix_file :=
  {| path := "C:/tmp/" ++ n ++ ".pbix"; stem := n; content_hash := n;
     byte_size := 1024 |}.

Definition analyzed (n : string) (tables : list (string * list string))
    (now : Z) (db : Normalized.database) : Normalized.database :=
  fst (Normalized.analyze_pbix_file true (Some (model_of tables)) (file_of n)
         None now db).

(** The three projects in the normalized store, analyzed in the order A,
    B, C. *)
Definition normalized_three : Normalized.database :=
  analyzed "C" [("Inventory", ["SKU"; "Stock"])] 3
    (analyzed "B" [("Sales", ["Amount"]); ("Products", ["SKU"])] 2
       (analyzed "A" [("Sales", ["Amount"; "Date"]); ("Customers", ["ID"])] 1
          Normalized.init_database)).


End Fixtures.

(** * Verified properties *)

(** ** Strings and loops *)

Module PyFacts.
Import Py.

Lemma app_cons (c : ascii) (s t : string) :
  (String c s ++ t)%string = String c (s ++ t).
Proof. reflexivity. Qed.

Lemma app_empty (t : string) : (EmptyString ++ t)%string = t.
Proof. reflexivity. Qed.

Lemma prefix_spec (s t : string) :
  String.prefix s t = true ↔ ∃ post, t = (s ++ post)%string.
Proof.
  revert t. induction s as [| c s IH]; intros t.
  - split; [intros _; by exists t | by destruct t].
  - destruct t as [| d t]; simpl; [split; [done | by intros [post ?]] |].
    destruct (ascii_dec c d) as [-> | Hne].
    + rewrite IH. split; intros [post Hpost]; exists post;
        rewrite app_cons in *; congruence.
    + split; [done | intros [post Hpost]; rewrite app_cons in *; congruence].
Qed.

Lemma prefix_app (s post : string) : String.prefix s (s ++ post) = true.
Proof. apply prefix_spec. by exists post. Qed.

Lemma contains_unfold (needle hay : string) :
  contains needle hay =
    String.prefix needle hay ||
    match hay with
    | EmptyString => false
    | String _ hay' => contains needle hay'
    end.
Proof. by destruct hay. Qed.

(** [needle in hay] is substring containment. *)
Lemma contains_spec (needle hay : string) :
  contains needle hay = true ↔
  ∃ pre post, hay = (pre ++ needle ++ post)%string.
Proof.
  induction hay as [| c hay IH]; rewrite contains_unfold.
  - rewrite orb_false_r, prefix_spec. split.
    + intros [post Hpost]. by exists EmptyString, post.
    + intros (pre & post & Heq). destruct pre; [by exists post | done].
  - rewrite orb_true_iff, prefix_spec, IH. split.
    + intros [[post Hpost] | (pre & post & Heq)].
      * by exists EmptyString, post.
      * exists (String c pre), post. by rewrite app_cons, Heq.
    + intros (pre & post & Heq). destruct pre as [| d pre].
      * left. by exists post.
      * right. exists pre, post. rewrite app_cons in Heq. congruence.
Qed.

Lemma find_unfold (needle hay : string) :
  find needle hay =
    if String.prefix needle hay then 0
    else match hay with
         | EmptyString => -1
         | String _ hay' =>
             let i := find needle hay' in
             if i <? 0 then -1 else i + 1
         end.
Proof. by destruct hay. Qed.

(** [find] gives the position of the first occurrence. *)
Lemma find_first (needle pre rest : string) :
  (∀ k, (k < String.length pre)%nat →
        String.prefix needle (drop k (pre ++ needle ++ rest)) = false) →
  find needle (pre ++ needle ++ rest) = Z.of_nat (String.length pre).
Proof.
  induction pre as [| c pre IH]; intros Hfirst.
  - rewrite app_empty. by rewrite find_unfold, prefix_app.
  - rewrite find_unfold.
    assert (String.prefix needle (String c pre ++ needle ++ rest) = false)
      as -> by (apply (Hfirst O); simpl; lia).
    rewrite app_cons. rewrite IH.
    + cbv zeta. destruct (Z.of_nat (String.length pre) <? 0) eqn:Hneg;
        simpl String.length; lia.
    + intros k Hk. apply (Hfirst (S k)). simpl. lia.
Qed.

Lemma drop_app_length (pre s : string) (n : nat) :
  drop (String.length pre + n) (pre ++ s) = drop n s.
Proof.
  induction pre as [| c pre IH]; [done |]. rewrite app_cons. apply IH.
Qed.

Lemma for_each_app {A S : Type} (body : A → S → result S) (l1 l2 : list A)
    (s : S) :
  for_each body (l1 ++ l2) s =
    match for_each body l1 s with
    | Ok s' => for_each body l2 s'
    | Raise e => Raise e
    end.
Proof.
  revert s. induction l1 as [| a l1 IH]; intros s; simpl; [done |].
  destruct (body a s); [apply IH | done].
Qed.

Lemma for_each_ext {A S : Type} (body1 body2 : A → S → result S)
    (l : list A) (s : S) :
  (∀ a s, body1 a s = body2 a s) → for_each body1 l s = for_each body2 l s.
Proof.
  intros Hext. revert s. induction l as [| a l IH]; intros s; simpl; [done |].
  rewrite Hext. destruct (body2 a s); [apply IH | done].
Qed.

Lemma for_each_skip {A S : Type} (body : A → S → result S) (l : list A)
    (s : S) :
  Forall (λ a, ∀ s, body a s = Ok s) l → for_each body l s = Ok s.
Proof. induction 1 as [| a l Ha _ IH]; simpl; [done | by rewrite Ha]. Qed.

Lemma for_each_skip_middle {A S : Type} (body : A → S → result S)
    (l1 l2 : list A) (a : A) (s : S) :
  (∀ s, body a s = Ok s) →
  for_each body (l1 ++ a :: l2) s = for_each body (l1 ++ l2) s.
Proof.
  intros Ha. rewrite !for_each_app. destruct (for_each body l1 s); [| done].
  simpl. by rewrite Ha.
Qed.


(** *** Letter case *)

Lemma lower_char_upper (c : ascii) :
  Spec.is_upper c = true →
  lower_char c = ascii_of_nat (nat_of_ascii c + 32).
Proof. unfold Spec.is_upper, lower_char. by intros ->. Qed.

Lemma lower_char_other (c : ascii) :
  Spec.is_upper c = false → lower_char c = c.
Proof. unfold Spec.is_upper, lower_char. by intros ->. Qed.

Lemma lowered_is_not_upper (c : ascii) :
  Spec.is_upper c = true →
  Spec.is_upper (ascii_of_nat (nat_of_ascii c + 32)) = false.
Proof.
  unfold Spec.is_upper. intros Hc.
  apply andb_true_iff in Hc as [Hlo Hhi].
  apply Nat.leb_le in Hlo, Hhi.
  rewrite nat_ascii_embedding by lia.
  apply andb_false_iff. right. apply Nat.leb_gt. lia.
Qed.

Lemma same_letter_lower (c d : ascii) :
  Spec.same_letter c d = true ↔ lower_char c = lower_char d.
Proof.
  unfold Spec.same_letter. rewrite !orb_true_iff, !andb_true_iff.
  rewrite !Ascii.eqb_eq. split.
  - intros [[-> | [Hc ->]] | [Hd ->]]; [done | |].
    + rewrite (lower_char_upper c) by done.
      by rewrite lower_char_other by by apply lowered_is_not_upper.
    + rewrite (lower_char_upper d) by done.
      by rewrite lower_char_other by by apply lowered_is_not_upper.
  - intros Heq.
    destruct (Spec.is_upper c) eqn:Hc, (Spec.is_upper d) eqn:Hd.
    + left. left. rewrite !lower_char_upper in Heq by done.
      apply (f_equal nat_of_ascii) in Heq.
      unfold Spec.is_upper in Hc, Hd.
      apply andb_true_iff in Hc as [_ Hc]. apply andb_true_iff in Hd as [_ Hd].
      apply Nat.leb_le in Hc, Hd.
      rewrite !nat_ascii_embedding in Heq by lia.
      rewrite <- (ascii_nat_embedding c), <- (ascii_nat_embedding d).
      f_equal. lia.
    + left. right. split; [done |].
      by rewrite lower_char_upper, (lower_char_other d) in Heq.
    + right. split; [done |].
      by rewrite (lower_char_other c), lower_char_upper in Heq.
    + left. left. by rewrite !lower_char_other in Heq.
Qed.

(** Case variants are the strings with the same lower case form. *)
Lemma case_variant_lower (s t : string) :
  Spec.case_variant s t = true ↔ lower s = lower t.
Proof.
  revert t. induction s as [| c s IH]; intros [| d t]; simpl; try done.
  rewrite andb_true_iff, same_letter_lower, IH. split.
  - by intros [-> ->].
  - intros Heq. by simplify_eq.
Qed.

Lemma lower_app (s t : string) : lower (s ++ t) = (lower s ++ lower t)%string.
Proof.
  induction s as [| c s IH]; [done |].
  rewrite app_cons. simpl. by rewrite IH, app_cons.
Qed.

Lemma lower_app_inv (s a b : string) :
  lower s = (a ++ b)%string →
  ∃ s1 s2, s = (s1 ++ s2)%string ∧ lower s1 = a ∧ lower s2 = b.
Proof.
  revert s. induction a as [| c a IH]; intros s Heq.
  - by exists EmptyString, s.
  - rewrite app_cons in Heq. destruct s as [| d s]; [done |].
    simpl in Heq. simplify_eq.
    destruct (IH s) as (s1 & s2 & -> & <- & <-); [done |].
    by exists (String d s1), s2.
Qed.

(** The test of the search, [lower term in lower name], is substring
    containment up to the case of letters. *)
Lemma contains_lower_spec (term name : string) :
  contains (lower term) (lower name) = true ↔
  Spec.contains_ignoring_case term name.
Proof.
  rewrite contains_spec. unfold Spec.contains_ignoring_case. split.
  - intros (pre & post & Heq).
    apply lower_app_inv in Heq as (s1 & s23 & -> & <- & Heq).
    apply lower_app_inv in Heq as (s2 & s3 & -> & Hmid & <-).
    exists s1, s2, s3. split; [done |]. by apply case_variant_lower.
  - intros (pre & mid & post & -> & Hmid).
    apply case_variant_lower in Hmid.
    exists (lower pre), (lower post). by rewrite !lower_app, Hmid.
Qed.

End PyFacts.

(** ** Rowids *)

Module SqliteFacts.
Import Sqlite.

Section Rowids.
Context {A : Type} (rowid : A → Z).

Lemma max_rowid_nonneg (l : list A) : 0 ≤ max_rowid rowid l.
Proof. unfold max_rowid. induction l as [| x l IH]; simpl; lia. Qed.

Lemma max_rowid_ge (l : list A) (x : A) :
  x ∈ l → rowid x ≤ max_rowid rowid l.
Proof.
  unfold max_rowid. induction 1 as [x l | x y l _ IH]; simpl; lia.
Qed.

Lemma next_rowid_pos (t : sql_table A) : 1 ≤ next_rowid rowid t.
Proof. unfold next_rowid. pose proof (max_rowid_nonneg (rows t)). lia. Qed.

Lemma next_rowid_above_seq (t : sql_table A) : seq t < next_rowid rowid t.
Proof. unfold next_rowid. lia. Qed.

Lemma next_rowid_fresh (t : sql_table A) (x : A) :
  x ∈ rows t → rowid x < next_rowid rowid t.
Proof.
  intros Hx. unfold next_rowid. pose proof (max_rowid_ge _ _ Hx). lia.
Qed.

Lemma lastrowid_or_next (t : sql_table A)
    (existing : option (Z * string)) :
  Py.lastrowid_or (next_rowid rowid t) existing = Py.Ok (next_rowid rowid t).
Proof.
  unfold Py.lastrowid_or. pose proof (next_rowid_pos t).
  destruct (next_rowid rowid t =? 0) eqn:Hz; [lia | done].
Qed.

Lemma rowids_issued_empty : rowids_issued rowid empty_table.
Proof. constructor. Qed.

Lemma rowids_issued_delete (P : A → Prop) `{!∀ x, Decision (P x)}
    (t : sql_table A) :
  rowids_issued rowid t → rowids_issued rowid (delete_where P t).
Proof.
  unfold rowids_issued, delete_where. simpl. rewrite !Forall_forall.
  intros Ht x Hx. apply Ht. by apply list_elem_of_filter in Hx as [_ Hx].
Qed.

Lemma rowids_issued_insert_or_replace (clash : A → Prop)
    `{!∀ x, Decision (clash x)} (mk : Z → A) (t : sql_table A) :
  (∀ i, rowid (mk i) = i) →
  rowids_issued rowid (fst (insert_or_replace rowid clash mk t)).
Proof.
  intros Hmk. unfold rowids_issued, insert_or_replace. simpl.
  rewrite Forall_app, !Forall_forall. split.
  - intros x Hx. apply list_elem_of_filter in Hx as [_ Hx].
    pose proof (next_rowid_fresh t x Hx). lia.
  - intros x Hx. apply list_elem_of_singleton in Hx as ->. rewrite Hmk. lia.
Qed.

Lemma delete_where_none (P : A → Prop) `{!∀ x, Decision (P x)}
    (t : sql_table A) :
  Forall (λ x, ¬ P x) (rows t) → delete_where P t = t.
Proof.
  intros Hall. destruct t as [l s]. unfold delete_where. simpl in *. f_equal.
  induction Hall as [| x l Hx _ IH]; [done |].
  rewrite filter_cons_True by done. by rewrite IH.
Qed.

End Rowids.
End SqliteFacts.

(** ** Analysis in the denormalized store *)

Module McpAnalyzeFacts.
Import Py Sqlite Host Mcp Spec SqliteFacts.

Section WithCodec.
Context `{Codec}.


Lemma select_by_name_None (n : string) (db : database) :
  select_by_name n db = None → Forall (λ p, ¬ name p = n) (rows db).
Proof.
  unfold select_by_name. intros Hsel. apply Forall_forall. intros p Hp Hn.
  assert (Hin : p ∈ filter (λ p, name p = n) (rows db))
    by by apply list_elem_of_filter.
  destruct (filter (λ p, name p = n) (rows db)); [inversion Hin | done].
Qed.

Lemma select_after_delete (n : string) (db : database) :
  select_by_name n (delete_by_name n db) = None.
Proof.
  unfold select_by_name, delete_by_name, delete_where. simpl.
  destruct (filter _ (filter _ _)) as [| p l] eqn:Hf; [done |].
  assert (Hin : p ∈ p :: l) by left. rewrite <- Hf in Hin.
  apply list_elem_of_filter in Hin as [Hn Hin].
  by apply list_elem_of_filter in Hin as [Hne _].
Qed.

Lemma delete_by_name_absent (n : string) (db : database) :
  select_by_name n db = None → delete_by_name n db = db.
Proof. intros Hsel. by apply delete_where_none, select_by_name_None. Qed.

Lemma delete_by_name_other (n : string) (db : database) (p : project) :
  name p ≠ n → p ∈ rows (delete_by_name n db) ↔ p ∈ rows db.
Proof.
  intros Hne. unfold delete_by_name, delete_where. simpl.
  rewrite list_elem_of_filter. tauto.
Qed.

Lemma project_of_payload_keys (project_name : string) (f : pbix_file)
    (now : Z) (data : json) :
  has_payload_keys data ↔
  ∃ row, project_of_payload project_name f now data = Ok row.
Proof.
  unfold has_payload_keys, project_of_payload, getitem, get. split.
  - intros (fields & t & md & ms & rs & -> & Ht & Hmd & Hms & Hrs).
    rewrite Ht, Hmd, Hms, Hrs. simpl. eauto.
  - intros [row Hrow]. destruct data as [| | | | | fields]; try done.
    destruct (assoc "tables" fields) as [t |] eqn:Ht; [| done].
    destruct (assoc "metadata" fields) as [md |] eqn:Hmd; [| done].
    destruct (assoc "measures" fields) as [ms |] eqn:Hms; [| done].
    destruct (assoc "relationships" fields) as [rs |] eqn:Hrs; [| done].
    by exists fields, t, md, ms, rs.
Qed.

Lemma project_of_payload_name (project_name : string) (f : pbix_file)
    (now : Z) (data : json) (row : project) :
  project_of_payload project_name f now data = Ok row →
  name row = project_name ∧ file_hash row = content_hash f.
Proof.
  unfold project_of_payload. intros Hrow.
  destruct (getitem data "tables"); [| done].
  destruct (getitem data "metadata"); [| done].
  destruct (get data "schema" (JArr [])); [| done].
  destruct (getitem data "measures"); [| done].
  destruct (getitem data "relationships"); [| done].
  by simplify_eq/=.
Qed.

(** A failed extraction leaves the try block with [None] and the database
    it was entered with. *)
Lemma extract_and_store_failure (project_name : string) (f : pbix_file)
    (now : Z) (run : run_result) (existing : option (Z * string))
    (db : database) :
  extraction_fails run →
  extract_and_store project_name f now run existing db = (db, None).
Proof.
  intros Hfail. unfold extract_and_store.
  destruct Hfail as [| | rc out err Hrc | rc out err Hm | rc out err Hd
                    | rc out err data Hd Hk]; try done.
  - destruct (rc =? 0) eqn:Hz; [lia | done].
  - rewrite Hm. by rewrite andb_false_r.
  - rewrite Hd. by destruct (_ && _).
  - rewrite Hd. destruct (_ && _); [| done].
    destruct (project_of_payload project_name f now data) as [row |] eqn:Hrow;
      [| done].
    exfalso. apply Hk. apply (project_of_payload_keys project_name f now).
    eauto.
Qed.

(** An extraction that does not fail stores the row under a fresh id. *)
Lemma extract_and_store_success (project_name : string) (f : pbix_file)
    (now : Z) (run : run_result) (existing : option (Z * string))
    (db : database) :
  ¬ extraction_fails run →
  ∃ out err data row,
    run = CompletedProcess 0 out err ∧
    parse_payload out = Some data ∧
    project_of_payload project_name f now data = Ok row ∧
    extract_and_store project_name f now run existing db =
      (fst (insert_project row db), Some (next_rowid id db)).
Proof.
  intros Hok. destruct run as [| | rc out err].
  - destruct Hok. constructor.
  - destruct Hok. constructor.
  - destruct (decide (rc = 0)) as [-> | Hrc];
      [| destruct Hok; by apply fails_exit].
    destruct (contains marker out) eqn:Hm;
      [| destruct Hok; by apply fails_marker].
    destruct (parse_payload out) as [data |] eqn:Hd;
      [| destruct Hok; by apply fails_decode].
    destruct (project_of_payload project_name f now data) as [row | e] eqn:Hrow.
    + exists out, err, data, row. repeat split; try done.
      unfold extract_and_store. rewrite Hm, Hd, Hrow. simpl.
      by rewrite lastrowid_or_next.
    + destruct Hok. apply (fails_keys _ _ _ data); [done |].
      intros Hk. apply (project_of_payload_keys project_name f now) in Hk
        as [row Hrow']. congruence.
Qed.

Lemma extraction_fails_dec (run : run_result) :
  extraction_fails run ∨ ¬ extraction_fails run.
Proof.
  destruct run as [| | rc out err]; [left; constructor | left; constructor |].
  destruct (decide (rc = 0)) as [-> | Hrc]; [| left; by apply fails_exit].
  destruct (contains marker out) eqn:Hm; [| left; by apply fails_marker].
  destruct (parse_payload out) as [data |] eqn:Hd;
    [| left; by apply fails_decode].
  destruct (project_of_payload "" {| path := ""; stem := "";
              content_hash := ""; byte_size := 0 |} 0 data) as [row | e]
    eqn:Hrow.
  - right. intros Hfail. inversion Hfail; subst; try congruence.
    match goal with Hn : ¬ has_payload_keys _ |- _ => apply Hn end.
    eapply project_of_payload_keys. assert (data0 = data) as -> by congruence.
    eauto.
  - left. apply (fails_keys _ _ _ data); [done |]. intros Hk.
    eapply project_of_payload_keys in Hk as [row Hrow']. by rewrite Hrow in Hrow'.
Qed.

Lemma analyze_unchanged (f : pbix_file) (project_name : option string)
    (now : Z) (run : run_result) (db : database) (i : Z) :
  select_by_name (default (stem f) project_name) db
    = Some (i, content_hash f) →
  analyze_pbix_file_with_mcp f project_name now run db = (db, Some i).
Proof.
  intros Hsel. unfold analyze_pbix_file_with_mcp. rewrite Hsel.
  by rewrite String.eqb_refl.
Qed.

Lemma analyze_changed (f : pbix_file) (project_name : option string)
    (now : Z) (run : run_result) (db : database) (i : Z) (h : string) :
  select_by_name (default (stem f) project_name) db = Some (i, h) →
  h ≠ content_hash f →
  analyze_pbix_file_with_mcp f project_name now run db =
    extract_and_store (default (stem f) project_name) f now run
      (Some (i, h)) (delete_by_name (default (stem f) project_name) db).
Proof.
  intros Hsel Hne. unfold analyze_pbix_file_with_mcp. rewrite Hsel.
  by destruct (String.eqb_spec h (content_hash f)).
Qed.

Lemma analyze_new (f : pbix_file) (project_name : option string)
    (now : Z) (run : run_result) (db : database) :
  select_by_name (default (stem f) project_name) db = None →
  analyze_pbix_file_with_mcp f project_name now run db =
    extract_and_store (default (stem f) project_name) f now run None db.
Proof. intros Hsel. unfold analyze_pbix_file_with_mcp. by rewrite Hsel. Qed.

Lemma filter_none {A : Type} (P : A → Prop) `{!∀ x, Decision (P x)}
    (l : list A) :
  Forall (λ x, ¬ P x) l → filter P l = [].
Proof.
  induction 1 as [| x l Hx _ IH]; [done |].
  by rewrite filter_cons_False.
Qed.

(** In the denormalized store a successful analysis of a changed file
    leaves exactly one row under the name, the new one, and the rows of
    the other names as they were. *)
Lemma reanalysis_replaces_the_row (f : pbix_file)
    (project_name : option string) (now : Z) (run : run_result)
    (db : database) (i : Z) (h : string) :
  let n := default (stem f) project_name in
  let db' := fst (analyze_pbix_file_with_mcp f project_name now run db) in
  ¬ extraction_fails run →
  select_by_name n db = Some (i, h) →
  h ≠ content_hash f →
  (∃ row, filter (λ p, name p = n) (rows db') = [row] ∧
          file_hash row = content_hash f ∧
          snd (analyze_pbix_file_with_mcp f project_name now run db)
            = Some (id row)) ∧
  (∀ p, name p ≠ n → p ∈ rows db' ↔ p ∈ rows db).
Proof.
  intros n db' Hok Hsel Hne. subst db'.
  rewrite (analyze_changed _ _ _ _ _ i h) by done. fold n.
  destruct (extract_and_store_success n f now run (Some (i, h))
              (delete_by_name n db) Hok)
    as (out & err & data & row & _ & _ & Hrow & ->).
  apply project_of_payload_name in Hrow as [Hname Hhash].
  unfold insert_project, insert_or_replace. simpl. rewrite Hname. split.
  - exists (with_id row (next_rowid id (delete_by_name n db))).
    split; [| by split].
    rewrite filter_app, filter_none.
    + simpl. by rewrite filter_cons_True, filter_nil by done.
    + apply Forall_forall. intros p Hp. by apply list_elem_of_filter in Hp as [? _].
  - intros p Hp. rewrite elem_of_app, !list_elem_of_filter, list_elem_of_singleton.
    split.
    + intros [(_ & _ & Hin) | ->]; [done |]. by simpl in Hp.
    + intros Hin. left. done.
Qed.
(** The invariant between the rows and the counter holds on a fresh
    database and is kept by every analysis. *)
Lemma analyze_keeps_rowids_issued (f : pbix_file)
    (project_name : option string) (now : Z) (run : run_result)
    (db : database) :
  rowids_issued id db →
  rowids_issued id
    (fst (analyze_pbix_file_with_mcp f project_name now run db)).
Proof.
  intros Hwf. set (n := default (stem f) project_name).
  assert (Hstore : ∀ existing db0,
             rowids_issued id db0 →
             rowids_issued id
               (fst (extract_and_store n f now run existing db0))).
  { intros existing db0 Hwf0.
    destruct (extraction_fails_dec run) as [Hfail | Hok].
    - by rewrite extract_and_store_failure.
    - destruct (extract_and_store_success n f now run existing db0 Hok)
        as (out & err & data & row & _ & _ & _ & ->).
      simpl. by apply rowids_issued_insert_or_replace. }
  destruct (select_by_name n db) as [[i h] |] eqn:Hsel.
  - destruct (decide (h = content_hash f)) as [-> | Hne].
    + by rewrite (analyze_unchanged _ _ _ _ _ i).
    + rewrite (analyze_changed _ _ _ _ _ i h) by done.
      by apply Hstore, rowids_issued_delete.
  - rewrite analyze_new by done. by apply Hstore.
Qed.

End WithCodec.
End McpAnalyzeFacts.

(** ** Analysis in the normalized store *)

Module NormalizedFacts.
Import Py Sqlite Host Normalized SqliteFacts.

Lemma stored_project_elem (n : string) (db : database) (i : Z) (h : string) :
  select_by_name n db = Some (i, h) →
  ∃ p, p ∈ rows (projects db) ∧ name p = n ∧ id p = i ∧ file_hash p = h.
Proof.
  unfold select_by_name. intros Hsel.
  destruct (head (filter (λ p, name p = n) (rows (projects db))))
    as [p |] eqn:Hhead; simplify_eq/=.
  apply head_Some_elem_of, list_elem_of_filter in Hhead as [Hn Hp]. eauto.
Qed.

(** The replacement always returns the fresh rowid of the new project
    row. *)
Lemma replace_project_id (project_name : string) (f : pbix_file) (now : Z)
    (model : pbix_model) (existing : option (Z * string)) (db : database) :
  snd (replace_project project_name f now model existing db)
    = Some (next_rowid id (projects db)).
Proof.
  unfold replace_project, insert_project, insert_or_replace.
  by rewrite lastrowid_or_next.
Qed.

Lemma normalized_unchanged (available : bool) (loaded : option pbix_model)
    (f : pbix_file) (project_name : option string) (now : Z) (db : database)
    (i : Z) :
  select_by_name (default (stem f) project_name) db
    = Some (i, content_hash f) →
  analyze_pbix_file available loaded f project_name now db =
    (db, if available then (λ _, i) <$> loaded else None).
Proof.
  intros Hsel. unfold analyze_pbix_file.
  destruct available; [| done]. destruct loaded as [model |]; [| done].
  simpl. rewrite Hsel. by rewrite String.eqb_refl.
Qed.

Lemma normalized_changed (model : pbix_model) (f : pbix_file)
    (project_name : option string) (now : Z) (db : database) (i : Z)
    (h : string) :
  select_by_name (default (stem f) project_name) db = Some (i, h) →
  h ≠ content_hash f →
  analyze_pbix_file true (Some model) f project_name now db =
    replace_project (default (stem f) project_name) f now model
      (Some (i, h)) db.
Proof.
  intros Hsel Hne. unfold analyze_pbix_file. simpl. rewrite Hsel.
  by destruct (String.eqb_spec h (content_hash f)).
Qed.

End NormalizedFacts.

(** ** Child rows across a second analysis *)

Module OrphanFacts.
Import Py Sqlite Host Normalized Spec SqliteFacts.

Lemma keeps_children_refl (db : database) : keeps_children db db.
Proof. by repeat split. Qed.

Lemma keeps_children_trans (db1 db2 db3 : database) :
  keeps_children db1 db2 → keeps_children db2 db3 → keeps_children db1 db3.
Proof.
  intros (? & ? & ? & ? & ?) (? & ? & ? & ? & ?).
  repeat split; by etrans.
Qed.

Lemma keeps_children_foldl {A : Type} (step : database → A → database)
    (l : list A) (db : database) :
  (∀ db a, keeps_children db (step db a)) →
  keeps_children db (foldl step db l).
Proof.
  intros Hstep. revert db. induction l as [| a l IH]; intros db; simpl.
  - apply keeps_children_refl.
  - eapply keeps_children_trans; [apply Hstep | apply IH].
Qed.

Lemma store_column_keeps (i : Z) (db : database) (c : model_column) :
  keeps_children db (store_column i db c).
Proof.
  unfold store_column, keeps_children. simpl.
  repeat split; set_solver.
Qed.

Lemma store_measure_keeps (i : Z) (t : model_table) (db : database)
    (m : model_measure) :
  keeps_children db (store_measure i t db m).
Proof.
  unfold store_measure, keeps_children. simpl.
  repeat split; set_solver.
Qed.

Lemma store_table_keeps (i : Z) (db : database) (t : model_table) :
  keeps_children db (store_table i db t).
Proof.
  unfold store_table. simpl.
  eapply keeps_children_trans;
    [| apply keeps_children_foldl, store_measure_keeps].
  eapply keeps_children_trans;
    [| apply keeps_children_foldl, store_column_keeps].
  unfold keeps_children. simpl. repeat split; set_solver.
Qed.

Lemma store_relationship_keeps (i : Z) (db : database)
    (r : model_relationship) :
  keeps_children db (store_relationship i db r).
Proof.
  unfold store_relationship, keeps_children. simpl.
  repeat split; set_solver.
Qed.

Lemma store_query_keeps (i : Z) (db : database) (q : model_query) :
  keeps_children db (store_query i db q).
Proof.
  unfold store_query, keeps_children. simpl.
  repeat split; set_solver.
Qed.

Lemma filter_all {A : Type} (P : A → Prop) `{!∀ x, Decision (P x)}
    (l : list A) :
  Forall P l → filter P l = l.
Proof.
  induction 1 as [| x l Hx _ IH]; [done |].
  by rewrite filter_cons_True, IH.
Qed.

(** The DELETEs for a project id above the ids the child rows refer to
    remove nothing. *)
Lemma clear_project_data_fresh (i top : Z) (db : database) :
  Forall (λ t, table_project_id t ≤ top) (rows (tables db)) →
  Forall (λ m, measure_project_id m ≤ top) (rows (measures db)) →
  Forall (λ r, relationship_project_id r ≤ top) (rows (relationships db)) →
  Forall (λ q, query_project_id q ≤ top) (rows (power_queries db)) →
  top < i →
  keeps_children db (clear_project_data i db).
Proof.
  intros Ht Hm Hr Hq Hi. unfold clear_project_data, keeps_children.
  simpl. repeat split.
  - rewrite filter_all; [done |].
    eapply Forall_impl; [exact Ht |]. simpl. lia.
  - rewrite filter_all; [done |]. apply Forall_forall. intros c _ Hin.
    apply list_elem_of_fmap in Hin as (t & _ & Hin).
    apply list_elem_of_filter in Hin as [Heq Hin].
    apply list_elem_of_filter in Hin as [Hne _]. done.
  - rewrite filter_all; [done |].
    eapply Forall_impl; [exact Hm |]. simpl. lia.
  - rewrite filter_all; [done |].
    eapply Forall_impl; [exact Hr |]. simpl. lia.
  - rewrite filter_all; [done |].
    eapply Forall_impl; [exact Hq |]. simpl. lia.
Qed.

Lemma projects_foldl {A : Type} (step : database → A → database)
    (l : list A) (db : database) :
  (∀ db a, projects (step db a) = projects db) →
  projects (foldl step db l) = projects db.
Proof.
  intros Hstep. revert db. induction l as [| a l IH]; intros db; simpl;
    [done |]. by rewrite IH, Hstep.
Qed.

Lemma store_table_projects (i : Z) (db : database) (t : model_table) :
  projects (store_table i db t) = projects db.
Proof.
  unfold store_table. simpl.
  rewrite projects_foldl by done. by rewrite projects_foldl by done.
Qed.

Lemma unique_rowid {A : Type} (rowid : A → Z) (l : list A) (x y : A) :
  NoDup (rowid <$> l) → x ∈ l → y ∈ l → rowid x = rowid y → x = y.
Proof.
  induction l as [| z l IH]; intros Hnd Hx Hy Heq; [by apply elem_of_nil in Hx |].
  simpl in Hnd. apply NoDup_cons in Hnd as [Hz Hnd].
  apply elem_of_cons in Hx as [-> | Hx], Hy as [-> | Hy]; try done.
  - destruct Hz. rewrite Heq. by apply list_elem_of_fmap_2.
  - destruct Hz. rewrite <- Heq. by apply list_elem_of_fmap_2.
  - by apply IH.
Qed.

(** Every analysis of a changed file leaves all the child rows of the
    earlier analyses in place; when rowids are unique, the project row
    they belonged to is gone. *)
Lemma reanalysis_keeps_children (model : pbix_model) (f : pbix_file)
    (project_name : option string) (now : Z) (db : database) (i : Z)
    (h : string) :
  let db' := fst (analyze_pbix_file true (Some model) f project_name now db) in
  references_issued db →
  select_by_name (default (stem f) project_name) db = Some (i, h) →
  h ≠ content_hash f →
  keeps_children db db' ∧
  (NoDup (id <$> rows (projects db)) →
   ∀ p, p ∈ rows (projects db') → id p ≠ i).
Proof.
  intros db' Hrefs Hsel Hne. subst db'.
  rewrite (NormalizedFacts.normalized_changed _ _ _ _ _ i h) by done.
  unfold replace_project, insert_project, insert_or_replace.
  rewrite lastrowid_or_next. simpl.
  pose proof (next_rowid_above_seq id (projects db)) as Hfresh.
  split.
  - eapply keeps_children_trans;
      [| apply keeps_children_foldl, store_query_keeps].
    eapply keeps_children_trans;
      [| apply keeps_children_foldl, store_relationship_keeps].
    eapply keeps_children_trans;
      [| apply keeps_children_foldl, store_table_keeps].
    destruct Hrefs as (Ht & Hm & Hr & Hq).
    eapply keeps_children_trans;
      [| by apply (clear_project_data_fresh _ (seq (projects db)))].
    by repeat split.
  - intros Hnd p Hp Hid.
    rewrite !projects_foldl in Hp
      by (done || (intros; apply store_table_projects)).
    simpl in Hp. apply elem_of_app in Hp as [Hp | Hp].
    + apply list_elem_of_filter in Hp as [Hname Hp].
      apply NormalizedFacts.stored_project_elem in Hsel
        as (p0 & Hp0 & Hn0 & Hi0 & _).
      apply Hname. rewrite <- Hn0. f_equal.
      apply (unique_rowid id (rows (projects db))); [done | done | done |].
      by rewrite Hi0.
    + apply list_elem_of_singleton in Hp as ->. simpl in Hid.
      apply NormalizedFacts.stored_project_elem in Hsel
        as (p0 & Hp0 & _ & Hi0 & _).
      pose proof (next_rowid_fresh id (projects db) p0 Hp0). lia.
Qed.

End OrphanFacts.

(** ** The claims about the analyze operation *)

Module AnalyzeClaims.
Import Py Sqlite Host Spec SqliteFacts Fixtures.

(** C1, at the failing input.  In the normalized store, [Report] is stored
    with table Sales (column Amount, measure Total Revenue, a relationship
    and a query) and is analyzed again after an edit that leaves only table
    Orders.  After the call the project row has the new id 2, and every
    child row of the first analysis is still in its table under project
    id 1, which no project row carries any more: the rows the claim says
    are removed stay behind as orphans.  The same happens at every
    analysis of a changed file: all child rows stored before are still
    there, and the project row they refer to is gone.  The denormalized
    store, which has no child tables, does what the claim says: after a
    successful analysis of a changed file the name has one row, the new
    one, and the other rows are as before. *)
Theorem changed_file_reanalysis_leaves_orphans :
  (let db' := fst (Normalized.analyze_pbix_file true (Some model_v2) report_v2
                     None 200 normalized_v1) in
   map (λ p, (Normalized.id p, Normalized.file_hash p))
       (rows (Normalized.projects db'))
     = [(2, content_hash report_v2)] ∧
   map (λ t, (Normalized.table_project_id t, Normalized.table_name t))
       (rows (Normalized.tables db'))
     = [(1, "Sales"); (2, "Orders")] ∧
   map (λ c, (Normalized.column_table_id c, Normalized.column_name c))
       (rows (Normalized.columns db'))
     = [(1, "Amount"); (2, "Quantity")] ∧
   map (λ m, (Normalized.measure_project_id m, Normalized.measure_name m))
       (rows (Normalized.measures db'))
     = [(1, "Total Revenue")] ∧
   map (λ r, (Normalized.relationship_project_id r, Normalized.from_table r))
       (rows (Normalized.relationships db'))
     = [(1, "Sales")] ∧
   map (λ q, (Normalized.query_project_id q, Normalized.query_name q))
       (rows (Normalized.power_queries db'))
     = [(1, "Sales")]) ∧
  (∀ (model : Normalized.pbix_model) (f : pbix_file)
     (project_name : option string) (now : Z) (db : Normalized.database)
     (i : Z) (h : string),
      references_issued db →
      Normalized.select_by_name (default (stem f) project_name) db
        = Some (i, h) →
      h ≠ content_hash f →
      keeps_children db
        (fst (Normalized.analyze_pbix_file true (Some model) f project_name
                now db)) ∧
      (NoDup (Normalized.id <$> rows (Normalized.projects db)) →
       ∀ p, p ∈ rows (Normalized.projects
                        (fst (Normalized.analyze_pbix_file true (Some model)
                                f project_name now db))) →
            Normalized.id p ≠ i)) ∧
  (∀ (codec : Codec) (f : pbix_file) (project_name : option string)
     (now : Z) (run : Mcp.run_result) (db : Mcp.database) (i : Z)
     (h : string),
      ¬ extraction_fails run →
      Mcp.select_by_name (default (stem f) project_name) db = Some (i, h) →
      h ≠ content_hash f →
      (∃ row,
          filter (λ p, Mcp.name p = default (stem f) project_name)
                 (rows (fst (Mcp.analyze_pbix_file_with_mcp f project_name
                               now run db))) = [row] ∧
          Mcp.file_hash row = content_hash f ∧
          snd (Mcp.analyze_pbix_file_with_mcp f project_name now run db)
            = Some (Mcp.id row)) ∧
      (∀ p, Mcp.name p ≠ default (stem f) project_name →
            p ∈ rows (fst (Mcp.analyze_pbix_file_with_mcp f project_name
                             now run db)) ↔ p ∈ rows db)).
Proof.
  split; [vm_compute; repeat split |]. split.
  - intros model f project_name now db i h.
    apply OrphanFacts.reanalysis_keeps_children.
  - intros codec f project_name now run db i h.
    apply McpAnalyzeFacts.reanalysis_replaces_the_row.
Qed.

Section WithCodec.
Context `{Codec}.

(** C5.  A file whose content hash equals the hash stored under the
    project name is not analyzed again: in both stores the database is
    returned as it was, together with the id of the stored project (in the
    normalized analyzer once the library is available and has loaded the
    file, which it does before it looks at the store). *)
Theorem unchanged_file_is_skipped :
  (∀ (f : pbix_file) (project_name : option string) (now : Z)
     (run : Mcp.run_result) (db : Mcp.database) (i : Z),
      Mcp.select_by_name (default (stem f) project_name) db
        = Some (i, content_hash f) →
      Mcp.analyze_pbix_file_with_mcp f project_name now run db
        = (db, Some i)) ∧
  (∀ (model : Normalized.pbix_model) (f : pbix_file)
     (project_name : option string) (now : Z) (db : Normalized.database)
     (i : Z),
      Normalized.select_by_name (default (stem f) project_name) db
        = Some (i, content_hash f) →
      Normalized.analyze_pbix_file true (Some model) f project_name now db
        = (db, Some i)) ∧
  (∀ (available : bool) (loaded : option Normalized.pbix_model)
     (f : pbix_file) (project_name : option string) (now : Z)
     (db : Normalized.database) (i : Z),
      Normalized.select_by_name (default (stem f) project_name) db
        = Some (i, content_hash f) →
      fst (Normalized.analyze_pbix_file available loaded f project_name
             now db) = db).
Proof.
  split; [| split].
  - intros. by apply McpAnalyzeFacts.analyze_unchanged.
  - intros model f pn now db i Hsel.
    by rewrite (NormalizedFacts.normalized_unchanged _ _ _ _ _ _ i).
  - intros available loaded f pn now db i Hsel.
    by rewrite (NormalizedFacts.normalized_unchanged _ _ _ _ _ _ i).
Qed.


End WithCodec.

(** [Report] is stored under id 1 with the hash of [report_v1]: analyzing
    [report_v1] again returns 1 and the same database, in both stores. *)
Lemma unchanged_file_is_skipped_witness :
  Mcp.analyze_pbix_file_with_mcp (H := Reference.codec) report_v1 None 300
    Mcp.TimeoutExpired stored_v1 = (stored_v1, Some 1) ∧
  Normalized.analyze_pbix_file true (Some model_v2) report_v1 None 300
    normalized_v1 = (normalized_v1, Some 1).
Proof.
  split.
  - apply (proj1 (@unchanged_file_is_skipped Reference.codec)).
    vm_compute. reflexivity.
  - apply (proj1 (proj2 (@unchanged_file_is_skipped Reference.codec))).
    vm_compute. reflexivity.
Defined.


End AnalyzeClaims.

(** ** The claims about the extraction *)

Module ExtractionClaims.
Import Py Sqlite Host Spec SqliteFacts PyFacts Fixtures.

(** C2, as stated, fails: [Report] is stored, the edited file is analyzed
    and the extraction times out.  The call reports failure, and the row
    that was stored under the name is gone. *)
Lemma timeout_drops_the_stored_project :
  Mcp.select_by_name "Report" stored_v1
    = Some (1, content_hash report_v1) ∧
  Mcp.analyze_pbix_file_with_mcp (H := Reference.codec) report_v2 None 200
    Mcp.TimeoutExpired stored_v1
    = ({| rows := []; seq := 1 |}, None) ∧
  fst (Mcp.analyze_pbix_file_with_mcp (H := Reference.codec) report_v2 None
         200 Mcp.TimeoutExpired stored_v1) ≠ stored_v1.
Proof. vm_compute. repeat split. discriminate. Qed.

(** C7, as stated, fails in both directions: a stream with the marker and
    a payload with the five keys is refused when the process ends with
    exit code 1, and a payload without the key [schema] is accepted. *)
Lemma marker_and_five_keys_do_not_decide_success :
  (spec_success (H := Reference.codec) good_stdout = true ∧
   Mcp.extract_and_store (H := Reference.codec) "Report" report_v1 100
     crashed_run None Mcp.init_database = (Mcp.init_database, None)) ∧
  (spec_success (H := Reference.codec)
     ("SUCCESS:" ++ Reference.dumps payload_without_schema) = false ∧
   snd (Mcp.extract_and_store (H := Reference.codec) "Report" report_v1 100
          schemaless_run None Mcp.init_database) = Some 1).
Proof. vm_compute. repeat split. Qed.

Section WithCodec.
Context `{Codec}.

(** C2, amended.  When a new or changed file is analyzed and the
    extraction fails, the call returns [None] and the database is the one
    before the call without the row of that name: no row is stored under
    the name, partial or new, the rows of the other names and the rowid
    counter are as before, and the database is unchanged when the name was
    not stored. *)
Theorem failed_extraction_stores_no_row (f : pbix_file)
    (project_name : option string) (now : Z) (run : Mcp.run_result)
    (db : Mcp.database) :
  let n := default (stem f) project_name in
  extraction_fails run →
  (∀ i, Mcp.select_by_name n db ≠ Some (i, content_hash f)) →
  let db' := fst (Mcp.analyze_pbix_file_with_mcp f project_name now run db) in
  Mcp.analyze_pbix_file_with_mcp f project_name now run db
    = (Mcp.delete_by_name n db, None) ∧
  Mcp.select_by_name n db' = None ∧
  (∀ p, Mcp.name p ≠ n → p ∈ rows db' ↔ p ∈ rows db) ∧
  seq db' = seq db ∧
  (Mcp.select_by_name n db = None → db' = db).
Proof.
  intros n Hfail Hnew db'.
  assert (Hrun : Mcp.analyze_pbix_file_with_mcp f project_name now run db
                 = (Mcp.delete_by_name n db, None)).
  { destruct (Mcp.select_by_name n db) as [[i h] |] eqn:Hsel.
    - rewrite (McpAnalyzeFacts.analyze_changed _ _ _ _ _ i h); [| done |].
      + by apply McpAnalyzeFacts.extract_and_store_failure.
      + intros ->. by apply (Hnew i).
    - rewrite McpAnalyzeFacts.analyze_new by done.
      rewrite McpAnalyzeFacts.delete_by_name_absent by done.
      by apply McpAnalyzeFacts.extract_and_store_failure. }
  subst db'. rewrite Hrun. simpl. repeat split.
  - apply McpAnalyzeFacts.select_after_delete.
  - by apply McpAnalyzeFacts.delete_by_name_other.
  - by apply McpAnalyzeFacts.delete_by_name_other.
  - apply McpAnalyzeFacts.delete_by_name_absent.
Qed.

(** C7, amended.  The try block returns an id exactly when the process
    ended with exit code 0, stdout contains the marker, and the text after
    the first marker, stripped, decodes to an object with the keys tables,
    metadata, measures and relationships ([schema] may be missing); the
    row it stores then carries the fields of that payload.  Whatever
    stands before the first marker is ignored.  In every other case the
    result is [None] and the database is left as it was. *)
Theorem success_needs_exit_code_marker_and_payload :
  (∀ (project_name : string) (f : pbix_file) (now rc : Z)
     (out err : string) (existing : option (Z * string)) (db : Mcp.database),
      is_Some (snd (Mcp.extract_and_store project_name f now
                      (Mcp.CompletedProcess rc out err) existing db)) ↔
      rc = 0 ∧ contains Mcp.marker out = true ∧
      ∃ data,
        json_loads (strip (slice_from (find Mcp.marker out + 8) out))
          = Some data ∧
        has_payload_keys data) ∧
  (∀ (project_name : string) (f : pbix_file) (now : Z)
     (out err : string) (existing : option (Z * string)) (db : Mcp.database)
     (data : json),
      contains Mcp.marker out = true →
      json_loads (strip (slice_from (find Mcp.marker out + 8) out))
        = Some data →
      has_payload_keys data →
      ∃ row,
        Mcp.project_of_payload project_name f now data = Ok row ∧
        Mcp.extract_and_store project_name f now
          (Mcp.CompletedProcess 0 out err) existing db
          = (fst (Mcp.insert_project row db), Some (next_rowid Mcp.id db))) ∧
  (∀ (diagnostics rest : string),
      (∀ k, (k < String.length diagnostics)%nat →
            String.prefix Mcp.marker
              (drop k (diagnostics ++ Mcp.marker ++ rest)) = false) →
      Mcp.parse_payload (diagnostics ++ Mcp.marker ++ rest)
        = json_loads (strip rest)) ∧
  (∀ (project_name : string) (f : pbix_file) (now : Z)
     (run : Mcp.run_result) (existing : option (Z * string))
     (db : Mcp.database),
      snd (Mcp.extract_and_store project_name f now run existing db) = None →
      Mcp.extract_and_store project_name f now run existing db = (db, None)).
Proof.
  split; [| split; [| split]].
  - intros pn f now rc out err existing db. split.
    + intros [j Hj].
      destruct (McpAnalyzeFacts.extraction_fails_dec
                  (Mcp.CompletedProcess rc out err)) as [Hfail | Hok].
      { by rewrite McpAnalyzeFacts.extract_and_store_failure in Hj. }
      assert (Hrc : rc = 0).
      { destruct (decide (rc = 0)); [done |]. destruct Hok.
        by apply fails_exit. }
      assert (Hm : contains Mcp.marker out = true).
      { destruct (contains Mcp.marker out) eqn:Hm; [done |]. destruct Hok.
        by apply fails_marker. }
      split; [done |]. split; [done |].
      destruct (Mcp.parse_payload out) as [data |] eqn:Hd.
      * exists data. split; [done |].
        destruct (McpAnalyzeFacts.extract_and_store_success pn f now _
                    existing db Hok)
          as (out' & err' & data' & row & Heq & Hd' & Hrow & _).
        simplify_eq. apply (McpAnalyzeFacts.project_of_payload_keys pn f now).
        eauto.
      * destruct Hok. by apply fails_decode.
    + intros (-> & Hm & data & Hd & Hk).
      apply (McpAnalyzeFacts.project_of_payload_keys pn f now) in Hk
        as [row Hrow].
      unfold Mcp.extract_and_store, Mcp.parse_payload. rewrite Hm, Hd, Hrow.
      simpl. by rewrite lastrowid_or_next.
  - intros pn f now out err existing db data Hm Hd Hk.
    apply (McpAnalyzeFacts.project_of_payload_keys pn f now) in Hk
      as [row Hrow].
    exists row. split; [done |].
    unfold Mcp.extract_and_store, Mcp.parse_payload. rewrite Hm, Hd, Hrow.
    simpl. by rewrite lastrowid_or_next.
  - intros diagnostics rest Hfirst. unfold Mcp.parse_payload.
    rewrite find_first by done. unfold slice_from.
    replace (Z.to_nat (Z.of_nat (String.length diagnostics) + 8))
      with (String.length diagnostics + 8)%nat by lia.
    rewrite drop_app_length. done.
  - intros pn f now run existing db Hnone.
    destruct (McpAnalyzeFacts.extraction_fails_dec run) as [Hfail | Hok].
    + by apply McpAnalyzeFacts.extract_and_store_failure.
    + destruct (McpAnalyzeFacts.extract_and_store_success pn f now run
                  existing db Hok) as (? & ? & ? & ? & _ & _ & _ & Hrun).
      by rewrite Hrun in Hnone.
Qed.

End WithCodec.

(** The edited [Report] on the store that holds the first version, with
    an extraction that times out: the call fails and stores nothing under
    the name. *)
Lemma failed_extraction_stores_no_row_witness :
  extraction_fails (H := Reference.codec) Mcp.TimeoutExpired ∧
  Mcp.analyze_pbix_file_with_mcp (H := Reference.codec) report_v2 None 200
    Mcp.TimeoutExpired stored_v1
    = (Mcp.delete_by_name "Report" stored_v1, None).
Proof.
  split; [constructor |].
  apply (@failed_extraction_stores_no_row Reference.codec report_v2 None 200
           Mcp.TimeoutExpired stored_v1).
  - constructor.
  - intros i. vm_compute. discriminate.
Defined.

(** The output of a good run is accepted: exit code 0, the marker after
    two lines of diagnostics, and the payload after it. *)
Lemma success_needs_exit_code_marker_and_payload_witness :
  is_Some (snd (Mcp.extract_and_store (H := Reference.codec) "Report"
                  report_v1 100 good_run None Mcp.init_database)).
Proof.
  apply (proj1 (@success_needs_exit_code_marker_and_payload Reference.codec)).
  split; [reflexivity |]. split; [vm_compute; reflexivity |].
  exists payload. split; [vm_compute; reflexivity |].
  unfold has_payload_keys, payload. do 5 eexists.
  split; [reflexivity |]. repeat split; vm_compute; reflexivity.
Defined.

End ExtractionClaims.

(** ** Impact search *)

Module SearchFacts.
Import Py Sqlite Host Mcp Spec PyFacts.

Section WithCodec.
Context `{Codec}.

Lemma check_measures_out_of_scope (stl scope n : string)
    (m : option string) (r : impact) :
  in_list scope ["all"; "measure"] = false →
  check_measures stl scope n m r = Ok r.
Proof. intros Hs. unfold check_measures. by rewrite Hs, andb_false_r. Qed.


Lemma check_measures_null (stl scope n : string) (r : impact) :
  check_measures stl scope n None r = Ok r.
Proof. done. Qed.

(** Scope [column] is in neither list, so the body does nothing. *)
Lemma check_project_column_scope (stl : string)
    (row : string * option string * option string) (r : impact) :
  check_project stl "column" row r = Ok r.
Proof.
  destruct row as [[n t] m]. unfold check_project.
  replace (in_list "column" ["all"; "table"]) with false by done.
  rewrite andb_false_r. by apply check_measures_out_of_scope.
Qed.

(** Line 470: a tables blob that does not decode ends the iteration. *)
Lemma check_project_undecodable_tables (stl scope n : string)
    (t m : option string) (r : impact) :
  undecodable t → scope = "all" ∨ scope = "table" →
  check_project stl scope (n, t, m) r = Ok r.
Proof.
  intros (s & -> & Hne & Hs) Hscope. unfold check_project. simpl.
  rewrite Hs. by destruct (_ && _) eqn:Hc; [| destruct Hscope as [-> | ->];
    destruct s].
Qed.

Lemma check_project_tables_out_of_scope (stl scope n : string)
    (t m : option string) (r : impact) :
  scope ≠ "all" → scope ≠ "table" →
  check_project stl scope (n, t, m) r = check_project stl scope (n, None, m) r.
Proof.
  intros Hall Htable. unfold check_project.
  assert (in_list scope ["all"; "table"] = false) as ->.
  { unfold in_list. simpl.
    destruct (String.eqb_spec scope "all"); [done |].
    by destruct (String.eqb_spec scope "table"). }
  by rewrite andb_false_r.
Qed.




Lemma select_impact_data_app (l1 l2 : list project) (c : Z) :
  select_impact_data {| rows := l1 ++ l2; seq := c |} =
    (select_impact_data {| rows := l1; seq := c |} ++
     select_impact_data {| rows := l2; seq := c |})%list.
Proof. unfold select_impact_data. simpl. by rewrite filter_app, map_app. Qed.

Lemma select_impact_data_cons (p : project) (l : list project) (c : Z) :
  select_impact_data {| rows := p :: l; seq := c |} =
    ((if decide (is_Some (tables_data p) ∨ is_Some (measures_data p))
      then [impact_row p] else []) ++
     select_impact_data {| rows := l; seq := c |})%list.
Proof.
  unfold select_impact_data. simpl. rewrite filter_cons.
  by destruct (decide _).
Qed.

(** A row whose body does nothing can be left out of the store. *)
Lemma analyze_impact_skip (term scope : string) (l1 l2 : list project)
    (p : project) (c : Z) :
  (∀ r, check_project (lower term) scope (impact_row p) r = Ok r) →
  analyze_impact term scope {| rows := l1 ++ p :: l2; seq := c |} =
  analyze_impact term scope {| rows := l1 ++ l2; seq := c |}.
Proof.
  intros Hskip. unfold analyze_impact.
  rewrite !select_impact_data_app, select_impact_data_cons.
  destruct (decide _); [| done]. simpl.
  by apply for_each_skip_middle.
Qed.


End WithCodec.
End SearchFacts.

(** ** The search as a comprehension *)

Module SearchRefinement.
Import Py Sqlite Host Mcp Spec PyFacts.

Section WithCodec.
Context `{Codec}.

Lemma impact_eq (r1 r2 : impact) :
  projects_using_table r1 = projects_using_table r2 →
  measures_referencing_item r1 = measures_referencing_item r2 →
  projects_with_measure r1 = projects_with_measure r2 →
  projects_using_column r1 = projects_using_column r2 →
  r1 = r2.
Proof. destruct r1, r2. simpl. by intros -> -> -> ->. Qed.

Lemma extend_nil (r : impact) (term : string) : extend r term [] = r.
Proof. apply impact_eq; simpl; apply app_nil_r. Qed.

Lemma extend_cons (r : impact) (term : string) (pv : project_view)
    (pvs : list project_view) :
  extend (extend r term [pv]) term pvs = extend r term (pv :: pvs).
Proof.
  apply impact_eq; unfold extend, table_hits, reference_hits, measure_hits,
    column_hits; simpl; rewrite !app_nil_r; by rewrite <- app_assoc.
Qed.

(** Tables appended one group after the other. *)
Lemma extend_tables (r : impact) (term n : string)
    (tv : string * list string) (tvs : list (string * list string)) :
  extend (extend r term [{| pv_name := n; pv_tables := [tv];
                            pv_measures := [] |}])
         term [{| pv_name := n; pv_tables := tvs; pv_measures := [] |}] =
  extend r term [{| pv_name := n; pv_tables := tv :: tvs;
                    pv_measures := [] |}].
Proof.
  apply impact_eq; unfold extend, table_hits, reference_hits, measure_hits,
    column_hits; simpl; rewrite !app_nil_r; by rewrite <- ?app_assoc.
Qed.

Lemma extend_measures (r : impact) (term n : string)
    (tvs : list (string * list string)) (mv : measure_view)
    (mvs : list measure_view) :
  extend (extend r term [{| pv_name := n; pv_tables := tvs;
                            pv_measures := [mv] |}])
         term [{| pv_name := n; pv_tables := []; pv_measures := mvs |}] =
  extend r term [{| pv_name := n; pv_tables := tvs;
                    pv_measures := mv :: mvs |}].
Proof.
  apply impact_eq; unfold extend, table_hits, reference_hits, measure_hits,
    column_hits; simpl; rewrite !app_nil_r; by rewrite <- ?app_assoc.
Qed.

Lemma extend_tables_measures (r : impact) (term n : string)
    (tvs : list (string * list string)) (mvs : list measure_view) :
  extend (extend r term [{| pv_name := n; pv_tables := tvs;
                            pv_measures := [] |}])
         term [{| pv_name := n; pv_tables := []; pv_measures := mvs |}] =
  extend r term [{| pv_name := n; pv_tables := tvs; pv_measures := mvs |}].
Proof.
  apply impact_eq; unfold extend, table_hits, reference_hits, measure_hits,
    column_hits; simpl; rewrite !app_nil_r; by rewrite <- ?app_assoc.
Qed.

(** The loop over the columns of a table. *)
Lemma check_columns_view (term n t : string) (cs : list json) (r : impact) :
  for_each (check_column (lower term) n t) cs r =
    (names ← traverse column_view cs;
     Ok {| projects_using_table := projects_using_table r;
           measures_referencing_item := measures_referencing_item r;
           projects_with_measure := projects_with_measure r;
           projects_using_column :=
             projects_using_column r ++
             (c ← names;
              if contains (lower term) (lower c)
              then [{| ch_project_name := n; ch_table_name := t;
                       ch_column_name := c;
                       ch_match_type := "Column Name" |}]
              else []) |}).
Proof.
  revert r. induction cs as [| column cs IH]; intros r; simpl.
  - f_equal. apply impact_eq; simpl; by rewrite ?app_nil_r.
  - unfold check_column at 1, column_view at 1.
    destruct (getitem column "name") as [cn | e]; [| done]. simpl.
    destruct (as_str cn) as [c | e]; [| done]. simpl.
    destruct (contains (lower term) (lower c)) eqn:Hc; rewrite IH;
      destruct (traverse column_view cs) as [names | e]; try done; simpl;
      rewrite Hc; f_equal; apply impact_eq; simpl; try done.
    by rewrite <- app_assoc.
Qed.

(** One table: its name and then its columns. *)
Lemma check_table_view (term n : string) (table : json) (r : impact) :
  check_table (lower term) n table r =
    (tv ← table_view table;
     Ok (extend r term [{| pv_name := n; pv_tables := [tv];
                           pv_measures := [] |}])).
Proof.
  unfold check_table, table_view.
  destruct (getitem table "name") as [tn | e]; [| done]. simpl.
  destruct (as_str tn) as [t | e]; [| done]. simpl.
  destruct (get table "columns" (JArr [])) as [cols | e]; [| done]. simpl.
  destruct (iter cols) as [cs | e]; [| done]. simpl.
  rewrite check_columns_view.
  destruct (traverse column_view cs) as [names | e]; [| done]. simpl.
  f_equal. apply impact_eq; unfold extend, table_hits, reference_hits,
    measure_hits, column_hits; simpl; rewrite ?app_nil_r;
    destruct (contains (lower term) (lower t)); simpl;
    by rewrite ?app_nil_r.
Qed.

Lemma check_tables_view (term n : string) (ts : list json) (r : impact) :
  for_each (check_table (lower term) n) ts r =
    (tvs ← traverse table_view ts;
     Ok (extend r term [{| pv_name := n; pv_tables := tvs;
                           pv_measures := [] |}])).
Proof.
  revert r. induction ts as [| table ts IH]; intros r; simpl.
  - f_equal. apply impact_eq; simpl; by rewrite ?app_nil_r.
  - rewrite check_table_view.
    destruct (table_view table) as [tv | e]; [| done]. simpl.
    rewrite IH. destruct (traverse table_view ts) as [tvs | e]; [| done].
    simpl. by rewrite extend_tables.
Qed.

(** One measure: its name and then its expression. *)
Lemma check_measure_view (term n : string) (measure : json) (r : impact) :
  check_measure (lower term) n measure r =
    (mv ← view_measure measure;
     Ok (extend r term [{| pv_name := n; pv_tables := [];
                           pv_measures := [mv] |}])).
Proof.
  unfold check_measure, view_measure.
  destruct (getitem measure "name") as [mn | e] eqn:Hname; [| done]. simpl.
  destruct (as_str mn) as [m | e]; [| done]. simpl.
  destruct measure as [| | | | | fields]; try done. simpl.
  destruct (as_str (default (JStr "") (assoc "expression" fields)))
    as [ex | e]; simpl.
  - unfold extend, table_hits, reference_hits, measure_hits, column_hits.
    simpl.
    destruct (contains (lower term) (lower m)); simpl;
      destruct (contains (lower term) (lower ex)); simpl;
      f_equal; apply impact_eq; simpl; by rewrite ?app_nil_r.
  - by destruct (contains (lower term) (lower m)).
Qed.

Lemma check_measure_loop_view (term n : string) (ms : list json)
    (r : impact) :
  for_each (check_measure (lower term) n) ms r =
    (mvs ← traverse view_measure ms;
     Ok (extend r term [{| pv_name := n; pv_tables := [];
                           pv_measures := mvs |}])).
Proof.
  revert r. induction ms as [| measure ms IH]; intros r; simpl.
  - f_equal. apply impact_eq; simpl; by rewrite ?app_nil_r.
  - rewrite check_measure_view.
    destruct (view_measure measure) as [mv | e]; [| done]. simpl.
    rewrite IH. destruct (traverse view_measure ms) as [mvs | e]; [| done].
    simpl. by rewrite extend_measures.
Qed.

Lemma check_measures_view (term scope n : string) (m : option string)
    (r : impact) :
  check_measures (lower term) scope n m r =
    (mvs ← view_measures scope m;
     Ok (extend r term [{| pv_name := n; pv_tables := [];
                           pv_measures := mvs |}])).
Proof.
  unfold check_measures, view_measures.
  destruct (_ && _); [| simpl; f_equal; apply impact_eq; simpl;
                        by rewrite ?app_nil_r].
  destruct (json_loads _) as [measures |];
    [| simpl; f_equal; apply impact_eq; simpl; by rewrite ?app_nil_r].
  destruct (iter measures) as [ms | e]; [| done]. simpl.
  apply check_measure_loop_view.
Qed.

(** The body of the loop over the projects. *)
Lemma check_project_view (term scope : string)
    (row : string * option string * option string) (r : impact) :
  check_project (lower term) scope row r =
    (pv ← view_project scope row; Ok (extend r term [pv])).
Proof.
  destruct row as [[n t] m]. unfold check_project, view_project.
  destruct (_ && _).
  - destruct (json_loads _) as [tables |];
      [| simpl; f_equal; apply impact_eq; simpl; by rewrite ?app_nil_r].
    destruct (iter tables) as [ts | e]; [| done]. simpl.
    rewrite check_tables_view.
    destruct (traverse table_view ts) as [tvs | e]; [| done]. simpl.
    rewrite check_measures_view.
    destruct (view_measures scope m) as [mvs | e]; [| done]. simpl.
    by rewrite extend_tables_measures.
  - rewrite check_measures_view. by destruct (view_measures scope m).
Qed.

Lemma check_projects_view (term scope : string)
    (rows : list (string * option string * option string)) (r : impact) :
  for_each (check_project (lower term) scope) rows r =
    (pvs ← traverse (view_project scope) rows; Ok (extend r term pvs)).
Proof.
  revert r. induction rows as [| row rows IH]; intros r; simpl.
  - by rewrite extend_nil.
  - rewrite check_project_view.
    destruct (view_project scope row) as [pv | e]; [| done]. simpl.
    rewrite IH.
    destruct (traverse (view_project scope) rows) as [pvs | e]; [| done].
    simpl. by rewrite extend_cons.
Qed.

(** The loop of [analyze_impact] computes the search of the
    specification. *)
Lemma analyze_impact_search (term scope : string) (db : database) :
  analyze_impact term scope db = search term scope db.
Proof.
  unfold analyze_impact, search. rewrite check_projects_view.
  by destruct (traverse _ _).
Qed.

(** The hits of the four lists, by membership: a table, a column or a
    measure is listed when its name contains the term up to the case of
    letters, a measure is listed as a reference when its expression
    does. *)
Lemma hits_spec (term : string) (pvs : list project_view) :
  (∀ h, h ∈ table_hits term pvs ↔
        ∃ pv tv, pv ∈ pvs ∧ tv ∈ pv_tables pv ∧
                 contains_ignoring_case term (fst tv) ∧
                 h = {| th_project_name := pv_name pv;
                        th_table_name := fst tv;
                        th_match_type := "Table Name" |}) ∧
  (∀ h, h ∈ column_hits term pvs ↔
        ∃ pv tv c, pv ∈ pvs ∧ tv ∈ pv_tables pv ∧ c ∈ snd tv ∧
                   contains_ignoring_case term c ∧
                   h = {| ch_project_name := pv_name pv;
                          ch_table_name := fst tv; ch_column_name := c;
                          ch_match_type := "Column Name" |}) ∧
  (∀ h, h ∈ measure_hits term pvs ↔
        ∃ pv mv, pv ∈ pvs ∧ mv ∈ pv_measures pv ∧
                 contains_ignoring_case term (mv_name mv) ∧
                 h = {| mh_project_name := pv_name pv;
                        mh_table_name := mv_table_name mv;
                        mh_measure_name := mv_name mv;
                        mh_dax_expression := mv_dax mv;
                        mh_match_type := "Measure Name" |}) ∧
  (∀ h, h ∈ reference_hits term pvs ↔
        ∃ pv mv, pv ∈ pvs ∧ mv ∈ pv_measures pv ∧
                 contains_ignoring_case term (mv_text mv) ∧
                 h = {| rh_project_name := pv_name pv;
                        rh_measure_name := mv_name mv;
                        rh_dax_expression := mv_dax mv;
                        rh_match_type := "DAX Expression Reference" |}).
Proof.
  unfold table_hits, column_hits, measure_hits, reference_hits.
  repeat split.
  - intros Hin. apply list_elem_of_bind in Hin as (pv & Hin & Hpv).
    apply list_elem_of_bind in Hin as (tv & Hin & Htv).
    destruct (contains _ _) eqn:Hc; [| by apply elem_of_nil in Hin].
    apply list_elem_of_singleton in Hin as ->. exists pv, tv.
    by rewrite <- contains_lower_spec.
  - intros (pv & tv & Hpv & Htv & Hc & ->).
    apply list_elem_of_bind. exists pv. split; [| done].
    apply list_elem_of_bind. exists tv. split; [| done].
    apply contains_lower_spec in Hc as ->. by apply list_elem_of_singleton.
  - intros Hin. apply list_elem_of_bind in Hin as (pv & Hin & Hpv).
    apply list_elem_of_bind in Hin as (tv & Hin & Htv).
    apply list_elem_of_bind in Hin as (c & Hin & Hcol).
    destruct (contains _ _) eqn:Hc; [| by apply elem_of_nil in Hin].
    apply list_elem_of_singleton in Hin as ->. exists pv, tv, c.
    by rewrite <- contains_lower_spec.
  - intros (pv & tv & c & Hpv & Htv & Hcol & Hc & ->).
    apply list_elem_of_bind. exists pv. split; [| done].
    apply list_elem_of_bind. exists tv. split; [| done].
    apply list_elem_of_bind. exists c. split; [| done].
    apply contains_lower_spec in Hc as ->. by apply list_elem_of_singleton.
  - intros Hin. apply list_elem_of_bind in Hin as (pv & Hin & Hpv).
    apply list_elem_of_bind in Hin as (mv & Hin & Hmv).
    destruct (contains _ _) eqn:Hc; [| by apply elem_of_nil in Hin].
    apply list_elem_of_singleton in Hin as ->. exists pv, mv.
    by rewrite <- contains_lower_spec.
  - intros (pv & mv & Hpv & Hmv & Hc & ->).
    apply list_elem_of_bind. exists pv. split; [| done].
    apply list_elem_of_bind. exists mv. split; [| done].
    apply contains_lower_spec in Hc as ->. by apply list_elem_of_singleton.
  - intros Hin. apply list_elem_of_bind in Hin as (pv & Hin & Hpv).
    apply list_elem_of_bind in Hin as (mv & Hin & Hmv).
    destruct (contains _ _) eqn:Hc; [| by apply elem_of_nil in Hin].
    apply list_elem_of_singleton in Hin as ->. exists pv, mv.
    by rewrite <- contains_lower_spec.
  - intros (pv & mv & Hpv & Hmv & Hc & ->).
    apply list_elem_of_bind. exists pv. split; [| done].
    apply list_elem_of_bind. exists mv. split; [| done].
    apply contains_lower_spec in Hc as ->. by apply list_elem_of_singleton.
Qed.

End WithCodec.
End SearchRefinement.

(** ** Sharing reports *)

Module SharingFacts.
Import Py Sqlite Host Mcp Spec PyFacts.

Lemma usage_get_add (k k' : key) (p : string) (u : usage) :
  usage_get k (usage_add k' p u) =
    if decide (k = k') then {[ p ]} ∪ usage_get k u else usage_get k u.
Proof.
  induction u as [| [k0 ps] u IH]; simpl.
  - destruct (decide (k = k')); [set_solver | done].
  - destruct (decide (k' = k0)) as [-> | Hne]; simpl.
    + destruct (decide (k = k0)); done.
    + destruct (decide (k = k0)) as [-> | Hne'].
      * by rewrite decide_False by done.
      * apply IH.
Qed.

Lemma usage_add_keys (k : key) (p : string) (u : usage) :
  ∀ k', k' ∈ (usage_add k p u).*1 ↔ k' = k ∨ k' ∈ u.*1.
Proof.
  induction u as [| [k0 ps] u IH]; intros k'; simpl.
  - set_solver.
  - destruct (decide (k = k0)) as [-> | Hne]; simpl.
    + set_solver.
    + rewrite !elem_of_cons, IH. tauto.
Qed.

Lemma usage_add_ok (k : key) (p : string) (u : usage) :
  usage_ok u → usage_ok (usage_add k p u).
Proof.
  intros [Hnd Hne]. split.
  - induction u as [| [k0 ps] u IH]; simpl.
    + repeat constructor. set_solver.
    + simpl in Hnd. apply NoDup_cons in Hnd as [Hk0 Hnd].
      apply Forall_cons in Hne as [_ Hne].
      destruct (decide (k = k0)) as [-> | Hk]; simpl.
      * by constructor.
      * constructor; [| by apply IH].
        rewrite usage_add_keys. intros [-> | Hin]; done.
  - induction Hne as [| [k0 ps] u Hps Hne IH]; simpl.
    + repeat constructor. simpl. set_solver.
    + simpl in Hnd. apply NoDup_cons in Hnd as [_ Hnd].
      destruct (decide (k = k0)); constructor; simpl in *; try done.
      * set_solver.
      * by apply IH.
Qed.

Lemma usage_ok_elem (u : usage) (k : key) (ps : gset string) :
  usage_ok u → (k, ps) ∈ u ↔ usage_get k u = ps ∧ ps ≠ ∅.
Proof.
  intros [Hnd Hne]. induction u as [| [k0 qs] u IH]; simpl.
  - split; [by intros ?%elem_of_nil | intros [<- ?]; done].
  - simpl in Hnd. apply NoDup_cons in Hnd as [Hk0 Hnd].
    apply Forall_cons in Hne as [Hqs Hne]. simpl in Hqs.
    rewrite elem_of_cons, IH by done.
    destruct (decide (k = k0)) as [-> | Hk].
    + split.
      * intros [? | [Hget Hps]]; [by simplify_eq |].
        exfalso. apply Hk0.
        assert (Hin : (k0, ps) ∈ u) by by apply IH.
        by apply (list_elem_of_fmap_2 fst) in Hin.
      * intros [-> _]. by left.
    + split.
      * intros [? | ?]; [by simplify_eq | done].
      * intros ?. by right.
Qed.

Lemma usage_get_foldl (k : key) (p : string) (ks : list key) (u : usage) :
  usage_get k (foldl (add_for p) u ks) =
    usage_get k u ∪ (if decide (k ∈ ks) then {[ p ]} else ∅).
Proof.
  revert u. induction ks as [| k0 ks IH]; intros u.
  - simpl foldl. destruct (decide (k ∈ [])) as [Hin | _]; [| set_solver].
    by apply elem_of_nil in Hin.
  - simpl foldl. rewrite IH. unfold add_for. rewrite usage_get_add.
    destruct (decide (k = k0)) as [-> | Hne].
    + rewrite (decide_True (P := k0 ∈ k0 :: ks)) by left.
      destruct (decide (k0 ∈ ks)); set_solver.
    + destruct (decide (k ∈ ks)) as [Hin | Hout].
      * by rewrite (decide_True (P := k ∈ k0 :: ks)) by by right.
      * rewrite (decide_False (P := k ∈ k0 :: ks)); [done |].
        rewrite elem_of_cons. tauto.
Qed.

Lemma usage_ok_foldl (p : string) (ks : list key) (u : usage) :
  usage_ok u → usage_ok (foldl (add_for p) u ks).
Proof.
  revert u. induction ks as [| k ks IH]; intros u Hu; simpl; [done |].
  apply IH. by apply usage_add_ok.
Qed.

Lemma for_each_keys {A : Type} (f : A → result key) (p : string)
    (xs : list A) (u : usage) :
  for_each (λ x u, k ← f x; Ok (usage_add k p u)) xs u =
    (ks ← traverse f xs; Ok (foldl (add_for p) u ks)).
Proof.
  revert u. induction xs as [| x xs IH]; intros u; simpl; [done |].
  destruct (f x) as [k | e]; simpl; [| done].
  rewrite IH. by destruct (traverse f xs).
Qed.

Lemma for_each_key_lists {A : Type} (g : A → result (list key)) (p : string)
    (xs : list A) (u : usage) :
  for_each (λ x u, ks ← g x; Ok (foldl (add_for p) u ks)) xs u =
    (kss ← traverse g xs; Ok (foldl (add_for p) u (List.concat kss))).
Proof.
  revert u. induction xs as [| x xs IH]; intros u; simpl; [done |].
  destruct (g x) as [ks | e]; simpl; [| done].
  rewrite IH. destruct (traverse g xs) as [kss | e]; simpl; [| done].
  by rewrite foldl_app.
Qed.

Section WithCodec.
Context `{Codec}.

Lemma scan_tables_keys (p : string) (v : json) (u : usage) :
  scan_tables p v u = (ks ← entity_names v; Ok (foldl (add_for p) u ks)).
Proof.
  unfold scan_tables, entity_names. destruct (iter v) as [ts | e]; [| done].
  simpl. rewrite <- for_each_keys. apply for_each_ext. intros table u'.
  unfold name_key. by destruct (getitem table "name").
Qed.

Lemma scan_measures_keys (p : string) (v : json) (u : usage) :
  scan_measures p v u = (ks ← entity_names v; Ok (foldl (add_for p) u ks)).
Proof.
  unfold scan_measures, entity_names. destruct (iter v) as [ts | e]; [| done].
  simpl. rewrite <- for_each_keys. apply for_each_ext. intros measure u'.
  unfold name_key. by destruct (getitem measure "name").
Qed.

Lemma scan_columns_keys (p : string) (v : json) (u : usage) :
  scan_columns p v u = (ks ← column_names v; Ok (foldl (add_for p) u ks)).
Proof.
  unfold scan_columns, column_names. destruct (iter v) as [ts | e]; [| done].
  simpl.
  rewrite (for_each_ext _
             (λ x u, ks ← table_column_keys x; Ok (foldl (add_for p) u ks))).
  - rewrite for_each_key_lists. by destruct (traverse table_column_keys ts).
  - intros table u'. unfold table_column_keys.
    destruct (getitem table "name") as [tn | e]; [| done]. simpl.
    destruct (get table "columns" (JArr [])) as [cols | e]; [| done]. simpl.
    destruct (iter cols) as [cs | e]; [| done]. simpl.
    rewrite <- for_each_keys. apply for_each_ext. intros column u''.
    unfold column_key. by destruct (getitem column "name").
Qed.

(** The loop of [collect_usage] from any dict [u0]: it adds to each key
    the owners among the rows. *)
Lemma collect_loop (keys : json → result (list key))
    (scan : string → json → usage → result usage)
    (rows : list (string * string)) (u0 u : usage) :
  (∀ p v u, scan p v u = (ks ← keys v; Ok (foldl (add_for p) u ks))) →
  for_each (λ row u,
      let '(project_name, blob) := row in
      if truthy blob then
        match json_loads blob with
        | Some v => scan project_name v u
        | None => Ok u
        end
      else Ok u) rows u0 = Ok u →
  usage_ok u0 →
  usage_ok u ∧ ∀ k, usage_get k u = usage_get k u0 ∪ owners keys k rows.
Proof.
  intros Hscan. revert u0. induction rows as [| [p blob] rows IH];
    intros u0 Hloop Hok; simpl in Hloop.
  - simplify_eq. split; [done |]. intros k. unfold owners. simpl. set_solver.
  - assert (Hstep : ∀ u1,
      (if truthy blob then
         match json_loads blob with
         | Some v => scan p v u0
         | None => Ok u0
         end
       else Ok u0) = Ok u1 →
      u1 = foldl (add_for p) u0 (stored_keys keys blob)).
    { intros u1. unfold stored_keys. destruct (truthy blob); [| by intros [= <-]].
      destruct (json_loads blob) as [v |]; [| by intros [= <-]].
      rewrite Hscan. destruct (keys v); simpl; [by intros [= <-] | done]. }
    destruct (if truthy blob then _ else _) as [u1 | e] eqn:Hbody; [| done].
    specialize (Hstep u1 eq_refl). subst u1.
    apply IH in Hloop as [Hok' Hget]; [| by apply usage_ok_foldl].
    split; [done |]. intros k. rewrite Hget, usage_get_foldl.
    unfold owners. simpl. rewrite filter_cons. simpl.
    destruct (decide (k ∈ stored_keys keys blob)); simpl; set_solver.
Qed.

#[local] Instance count_ge_total : Total count_ge.
Proof. intros r1 r2. unfold count_ge. lia. Qed.

#[local] Instance str_le_total : Total str_le.
Proof. intros s t. apply String.leb_total. Qed.

(** [sorted] returns its argument in ascending order. *)
Lemma sorted_spec (l : list string) :
  Sorted str_le (sorted l) ∧ sorted l ≡ₚ l.
Proof.
  split; [apply Sorted_merge_sort, _ | apply merge_sort_Permutation].
Qed.

Lemma shared_rows_elem (u : usage) (row : shared_row) :
  usage_ok u →
  row ∈ shared_rows u ↔
    (1 < size (usage_get (entity_name row) u))%nat ∧
    project_count row = size (usage_get (entity_name row) u) ∧
    shared_projects row =
      join ", " (sorted (elements (usage_get (entity_name row) u))).
Proof.
  intros Hok. unfold shared_rows. rewrite list_elem_of_fmap. split.
  - intros ([k ps] & -> & Hin). apply list_elem_of_filter in Hin as [Hsize Hin].
    simpl in *. apply (usage_ok_elem u k ps Hok) in Hin as [-> _]. done.
  - intros (Hsize & Hcount & Hnames). destruct row as [k n names].
    simpl in *. exists (k, usage_get k u). simpl. split; [by subst |].
    apply list_elem_of_filter. split; [done |].
    apply usage_ok_elem; [done |]. split; [done |].
    intros Hempty. rewrite Hempty, size_empty in Hsize. lia.
Qed.

Lemma shared_rows_names (u : usage) :
  usage_ok u → NoDup (entity_name <$> shared_rows u).
Proof.
  intros [Hnd _]. unfold shared_rows. rewrite <- list_fmap_compose.
  eapply sublist_NoDup; [exact Hnd |].
  change (entity_name ∘ _) with (@fst key (gset string)).
  apply fmap_sublist, sublist_filter.
Qed.

Lemma report_of_usage (keys : json → result (list key))
    (rows : list (string * string)) (u : usage) :
  usage_ok u → (∀ k, usage_get k u = owners keys k rows) →
  sharing_report keys rows (sort_values (shared_rows u)).
Proof.
  intros Hok Hget. unfold sharing_report, sort_values. split; [| split].
  - apply Sorted_merge_sort, _.
  - rewrite merge_sort_Permutation. by apply shared_rows_names.
  - intros row. rewrite merge_sort_Permutation, shared_rows_elem by done.
    by rewrite Hget.
Qed.

Lemma collect_usage_report (keys : json → result (list key))
    (scan : string → json → usage → result usage)
    (rows : list (string * string)) (u : usage) :
  (∀ p v u, scan p v u = (ks ← keys v; Ok (foldl (add_for p) u ks))) →
  collect_usage scan rows = Ok u →
  sharing_report keys rows (sort_values (shared_rows u)).
Proof.
  intros Hscan Hu. unfold collect_usage in Hu.
  apply (collect_loop keys scan rows [] u Hscan) in Hu as [Hok Hget].
  - apply report_of_usage; [done |]. intros k. rewrite Hget. simpl. set_solver.
  - split; constructor.
Qed.

(** On readable rows the loop of [collect_usage] does not raise. *)
Lemma collect_usage_total (keys : json → result (list key))
    (scan : string → json → usage → result usage)
    (rows : list (string * string)) :
  (∀ p v u, scan p v u = (ks ← keys v; Ok (foldl (add_for p) u ks))) →
  readable keys rows → ∃ u, collect_usage scan rows = Ok u.
Proof.
  intros Hscan Hrows. unfold collect_usage. generalize ([] : usage).
  induction Hrows as [| [p blob] rows Hrow _ IH]; intros u0; simpl.
  - by exists u0.
  - simpl in Hrow. destruct (truthy blob); [| apply IH].
    destruct (json_loads blob) as [v |]; [| apply IH].
    destruct (Hrow v eq_refl eq_refl) as [ks Hks].
    rewrite Hscan, Hks. simpl. apply IH.
Qed.

Lemma collect_usage_reports (keys : json → result (list key))
    (scan : string → json → usage → result usage)
    (rows : list (string * string)) :
  (∀ p v u, scan p v u = (ks ← keys v; Ok (foldl (add_for p) u ks))) →
  reports (u ← collect_usage scan rows; Ok (sort_values (shared_rows u)))
          keys rows.
Proof.
  intros Hscan. split.
  - intros Hrows.
    destruct (collect_usage_total keys scan rows Hscan Hrows) as [u ->].
    by eexists.
  - intros report Hreport.
    destruct (collect_usage scan rows) as [u |] eqn:Hu; [| done].
    simpl in Hreport. simplify_eq.
    by apply (collect_usage_report keys scan).
Qed.




End WithCodec.
End SharingFacts.

(** ** Queries of the normalized store *)

Module NormalizedQueryFacts.
Import Py Sqlite Host Normalized Spec PyFacts.

Lemma elem_of_distinct {A : Type} `{EqDecision A} (l : list A) (x : A) :
  x ∈ distinct l ↔ x ∈ l.
Proof.
  induction l as [| y l IH]; simpl; [done |].
  rewrite !elem_of_cons, list_elem_of_filter, IH.
  destruct (decide (x = y)); naive_solver.
Qed.

Lemma NoDup_distinct {A : Type} `{EqDecision A} (l : list A) :
  NoDup (distinct l).
Proof.
  induction l as [| y l IH]; simpl; [constructor |].
  constructor.
  - rewrite list_elem_of_filter. naive_solver.
  - by apply NoDup_filter.
Qed.

Lemma group_names_owners (n : string) (pairs : list (string * string)) :
  NoDup (group_names n pairs) ∧
  list_to_set (group_names n pairs) = pair_owners n pairs ∧
  length (group_names n pairs) = size (pair_owners n pairs) ∧
  group_names n pairs ≡ₚ elements (pair_owners n pairs).
Proof.
  unfold group_names, pair_owners.
  set (l := map snd (filter (λ np, np.1 = n) pairs)).
  assert (Hset : list_to_set (distinct l) = (list_to_set l : gset string)).
  { apply set_eq. intros x. by rewrite !elem_of_list_to_set, elem_of_distinct. }
  split; [apply NoDup_distinct |]. split; [done |]. split.
  - rewrite <- Hset. symmetry. apply size_list_to_set, NoDup_distinct.
  - rewrite <- Hset. symmetry. apply elements_list_to_set, NoDup_distinct.
Qed.

#[local] Instance sql_count_ge_total : Total count_ge.
Proof. intros r1 r2. unfold count_ge. lia. Qed.

(** The report of the normalized analyzer over the joined pairs. *)
Lemma group_report_spec (pairs : list (string * string)) :
  sql_sharing_report pairs (group_report pairs).
Proof.
  unfold sql_sharing_report, group_report.
  set (mk := λ n, {| entity_name := n;
                     project_count := length (group_names n pairs);
                     shared_projects := join "," (group_names n pairs) |}).
  split; [apply Sorted_merge_sort, _ |]. split; [| split].
  - rewrite merge_sort_Permutation.
    eapply sublist_NoDup;
      [| apply fmap_sublist, sublist_filter].
    rewrite <- list_fmap_compose.
    replace (entity_name ∘ mk) with (@Datatypes.id string) by done.
    rewrite list_fmap_id. apply NoDup_distinct.
  - intros n Hsize. exists (mk n). split; [| done].
    rewrite merge_sort_Permutation. apply list_elem_of_filter. split.
    + simpl. destruct (group_names_owners n pairs) as (_ & _ & -> & _). done.
    + apply list_elem_of_fmap. exists n. split; [done |].
      apply elem_of_distinct.
      destruct (size_pos_elem_of (pair_owners n pairs)) as [q Hq]; [lia |].
      unfold pair_owners in Hq. apply elem_of_list_to_set in Hq.
      apply list_elem_of_fmap in Hq as ([n' q'] & -> & Hin).
      apply list_elem_of_filter in Hin as [Heq Hin]. simpl in Heq. subst n'.
      apply list_elem_of_fmap. by exists (n, q').
  - intros row Hrow. rewrite merge_sort_Permutation in Hrow.
    apply list_elem_of_filter in Hrow as [Hcount Hrow].
    apply list_elem_of_fmap in Hrow as (n & -> & _). simpl in *.
    destruct (group_names_owners n pairs) as (_ & _ & Hlen & Hperm).
    rewrite Hlen in Hcount. split; [done |]. split; [done |].
    by exists (group_names n pairs).
Qed.


End NormalizedQueryFacts.

(** ** The claims about the sharing reports *)

Module SharingClaims.
Import Py Sqlite Host Spec PyFacts SharingFacts Fixtures.




End SharingClaims.

(** ** The claims about the impact search *)

Module SearchClaims.
Import Py Sqlite Host Spec PyFacts SearchFacts SearchRefinement SharingFacts
  Fixtures.

(** C3, at the failing input.  With scope [column] the search looks at
    nothing: for every store and term all four lists come back empty.  In
    the store of the three projects, column Amount of table Sales in A and
    B is found under scope [all] and under scope [table], and not under
    scope [column], where the claim says it is returned.  Under scope
    [all] or [table] the columns list is the one the claim describes:
    every column of a table the search reads whose name contains the term
    up to the case of letters, with its table and project. *)
Theorem column_scope_finds_no_column :
  (∀ (codec : Codec) (term : string) (db : Mcp.database),
      Mcp.analyze_impact term "column" db = Ok Mcp.no_impact) ∧
  Mcp.projects_using_column <$>
    Mcp.analyze_impact (H := Reference.codec) "Amount" "column" three_projects
    = Ok [] ∧
  Mcp.projects_using_column <$>
    Mcp.analyze_impact (H := Reference.codec) "Amount" "all" three_projects
    = Ok [{| Mcp.ch_project_name := "A"; Mcp.ch_table_name := "Sales";
             Mcp.ch_column_name := "Amount";
             Mcp.ch_match_type := "Column Name" |};
          {| Mcp.ch_project_name := "B"; Mcp.ch_table_name := "Sales";
             Mcp.ch_column_name := "Amount";
             Mcp.ch_match_type := "Column Name" |}] ∧
  Mcp.projects_using_column <$>
    Mcp.analyze_impact (H := Reference.codec) "Amount" "table" three_projects
    = Mcp.projects_using_column <$>
        Mcp.analyze_impact (H := Reference.codec) "Amount" "all"
          three_projects ∧
  (∀ (codec : Codec) (term scope : string) (db : Mcp.database)
     (pvs : list project_view),
      traverse (view_project scope) (Mcp.select_impact_data db) = Ok pvs →
      Mcp.projects_using_column <$> Mcp.analyze_impact term scope db
        = Ok (column_hits term pvs) ∧
      ∀ h, h ∈ column_hits term pvs ↔
           ∃ pv tv c, pv ∈ pvs ∧ tv ∈ pv_tables pv ∧ c ∈ snd tv ∧
                      contains_ignoring_case term c ∧
                      h = {| Mcp.ch_project_name := pv_name pv;
                             Mcp.ch_table_name := fst tv;
                             Mcp.ch_column_name := c;
                             Mcp.ch_match_type := "Column Name" |}).
Proof.
  split; [| split; [| split; [| split]]]; try by vm_compute.
  - intros codec term db. unfold Mcp.analyze_impact. apply for_each_skip.
    apply Forall_forall. intros row _ r. apply check_project_column_scope.
  - intros codec term scope db pvs Hpvs. split.
    + rewrite analyze_impact_search. unfold search. by rewrite Hpvs.
    + apply hits_spec.
Qed.


Section WithCodec.
Context `{Codec}.


(** C9.  When the tables blob of a project is text that does not decode
    and the scope is [all] or [table], the loop body leaves the results as
    they are, whatever the measures blob holds: the search returns what it
    returns on the store without the project. *)
Theorem undecodable_tables_hide_the_measures (term scope : string)
    (l1 l2 : list Mcp.project) (p : Mcp.project) (c : Z) :
  undecodable (Mcp.tables_data p) →
  scope = "all" ∨ scope = "table" →
  (∀ results,
      Mcp.check_project (lower term) scope (Mcp.impact_row p) results
        = Ok results) ∧
  Mcp.analyze_impact term scope {| rows := l1 ++ p :: l2; seq := c |} =
  Mcp.analyze_impact term scope {| rows := l1 ++ l2; seq := c |}.
Proof.
  intros Hbad Hscope.
  assert (Hskip : ∀ results,
             Mcp.check_project (lower term) scope (Mcp.impact_row p) results
               = Ok results).
  { intros results. by apply check_project_undecodable_tables. }
  split; [done |]. by apply analyze_impact_skip.
Qed.


End WithCodec.


(** Project B with a tables blob that was cut off and measures that are
    intact: the search for [Revenue] with scope [all] returns what it
    returns without B, the hit in A alone, although measure Total Revenue
    of B matches and is found once the tables blob is NULL. *)
Lemma undecodable_tables_hide_the_measures_witness :
  undecodable (H := Reference.codec) (Mcp.tables_data project_b_broken_tables) ∧
  Mcp.analyze_impact (H := Reference.codec) "Revenue" "all"
    {| rows := [project_a; project_b_broken_tables; project_c]; seq := 3 |} =
  Mcp.analyze_impact (H := Reference.codec) "Revenue" "all"
    {| rows := [project_a; project_c]; seq := 3 |} ∧
  Mcp.mh_project_name <$>
    default [] (match Mcp.analyze_impact (H := Reference.codec) "Revenue" "all"
                        {| rows := [project_a; project_b_broken_tables;
                                    project_c]; seq := 3 |} with
                | Ok r => Some (Mcp.projects_with_measure r)
                | Raise _ => None
                end) = ["A"] ∧
  Mcp.mh_project_name <$>
    default [] (match Mcp.analyze_impact (H := Reference.codec) "Revenue" "all"
                        {| rows := [project_a;
                                    without_tables project_b_broken_tables;
                                    project_c]; seq := 3 |} with
                | Ok r => Some (Mcp.projects_with_measure r)
                | Raise _ => None
                end) = ["A"; "B"].
Proof.
  assert (Hbad : undecodable (H := Reference.codec)
                   (Mcp.tables_data project_b_broken_tables)).
  { exists "[{". split; [reflexivity |]. split; [discriminate |].
    vm_compute. reflexivity. }
  split; [exact Hbad |]. split; [| by vm_compute].
  apply (@undecodable_tables_hide_the_measures Reference.codec "Revenue" "all"
           [project_a] [project_c] project_b_broken_tables 3 Hbad).
  by left.
Defined.


End SearchClaims.

(** ** The store of the denormalized analyzer under the actions of the page *)

Module McpStoreFacts.
Import Py Sqlite Host Mcp Spec SqliteFacts PyFacts McpAnalyzeFacts McpPages
  McpStoreSpec PyText.

Lemma store_ok_init : store_ok init_database.
Proof. repeat split; constructor. Qed.

Lemma store_ok_delete (P : project → Prop) `{!∀ x, Decision (P x)}
    (db : database) :
  store_ok db → store_ok (delete_where P db).
Proof.
  intros (Hn & Hi & Hs). repeat split.
  - eapply sublist_NoDup; [exact Hn |]. apply fmap_sublist, sublist_filter.
  - eapply sublist_NoDup; [exact Hi |]. apply fmap_sublist, sublist_filter.
  - by apply rowids_issued_delete.
Qed.

Lemma store_ok_delete_all (db : database) :
  store_ok db → store_ok (delete_all db).
Proof. intros _. repeat split; constructor. Qed.

Lemma store_ok_insert (row : project) (db : database) :
  store_ok db → store_ok (fst (insert_project row db)).
Proof.
  intros (Hn & Hi & Hs). unfold insert_project, insert_or_replace. simpl.
  repeat split; simpl.
  - rewrite fmap_app. apply NoDup_app. split; [| split].
    + eapply sublist_NoDup; [exact Hn |]. apply fmap_sublist, sublist_filter.
    + intros n Hin Hnew. apply list_elem_of_singleton in Hnew as ->.
      apply list_elem_of_fmap in Hin as (p & Hp & Hin).
      by apply list_elem_of_filter in Hin as [Hne _].
    + apply NoDup_singleton.
  - rewrite fmap_app. apply NoDup_app. split; [| split].
    + eapply sublist_NoDup; [exact Hi |]. apply fmap_sublist, sublist_filter.
    + intros i Hin Hnew. apply list_elem_of_singleton in Hnew as ->.
      apply list_elem_of_fmap in Hin as (p & Hp & Hin).
      apply list_elem_of_filter in Hin as [_ Hin].
      pose proof (next_rowid_fresh id db p Hin). simpl in Hp. lia.
    + apply NoDup_singleton.
  - by apply rowids_issued_insert_or_replace.
Qed.

Section WithCodec.
Context `{Codec}.

Lemma store_ok_extract (n : string) (f : pbix_file) (now : Z)
    (run : run_result) (existing : option (Z * string)) (db : database) :
  store_ok db → store_ok (fst (extract_and_store n f now run existing db)).
Proof.
  intros Hok. destruct (extraction_fails_dec run) as [Hfail | Hgood].
  - by rewrite extract_and_store_failure.
  - destruct (extract_and_store_success n f now run existing db Hgood)
      as (out & err & data & row & _ & _ & _ & ->).
    by apply store_ok_insert.
Qed.

Lemma store_ok_analyze (f : pbix_file) (project_name : option string)
    (now : Z) (run : run_result) (db : database) :
  store_ok db →
  store_ok (fst (analyze_pbix_file_with_mcp f project_name now run db)).
Proof.
  intros Hok. set (n := default (stem f) project_name).
  destruct (select_by_name n db) as [[i h] |] eqn:Hsel.
  - destruct (decide (h = content_hash f)) as [-> | Hne].
    + by rewrite (analyze_unchanged _ _ _ _ _ i).
    + rewrite (analyze_changed _ _ _ _ _ i h) by done.
      by apply store_ok_extract, store_ok_delete.
  - rewrite analyze_new by done. by apply store_ok_extract.
Qed.

Lemma store_ok_step (a : action) (s : app) :
  store_ok (store s) → store_ok (store (step a s)).
Proof.
  intros Hok. destruct a as [| i | u now run | f pn now run]; simpl.
  - destruct (confirm_clear s); simpl; [by apply store_ok_delete_all | done].
  - by apply store_ok_delete.
  - unfold analyze_upload. by apply store_ok_analyze, store_ok_delete.
  - by apply store_ok_analyze.
Qed.

Lemma store_ok_run (actions : list action) (s : app) :
  store_ok (store s) → store_ok (store (run_actions actions s)).
Proof.
  unfold run_actions. revert s.
  induction actions as [| a actions IH]; intros s Hok; simpl; [done |].
  by apply IH, store_ok_step.
Qed.

(** With unique names, the SELECT by name finds the row of that name. *)
Lemma select_by_name_unique (db : database) (p : project) :
  NoDup (name <$> rows db) → p ∈ rows db →
  select_by_name (name p) db = Some (id p, file_hash p).
Proof.
  intros Hnd Hp. unfold select_by_name.
  destruct db as [l c]. simpl in *.
  induction l as [| q l IH]; [by apply elem_of_nil in Hp |].
  simpl in Hnd. apply NoDup_cons in Hnd as [Hq Hnd].
  rewrite filter_cons. destruct (decide (name q = name p)) as [Heq | Hne].
  - simpl. apply elem_of_cons in Hp as [-> | Hp]; [done |].
    destruct Hq. rewrite Heq. by apply list_elem_of_fmap_2.
  - apply elem_of_cons in Hp as [-> | Hp]; [done |]. by apply IH.
Qed.

(** The row an insertion stores is the one the SELECT by name finds. *)
Lemma select_after_insert (row : project) (db : database) :
  select_by_name (name row) (fst (insert_project row db)) =
    Some (next_rowid id db, file_hash row).
Proof.
  unfold select_by_name, insert_project, insert_or_replace. simpl.
  rewrite filter_app, filter_none.
  - simpl. by rewrite filter_cons_True by done.
  - apply Forall_forall. intros p Hp. by apply list_elem_of_filter in Hp as [? _].
Qed.

Lemma analyze_outcome (f : pbix_file) (project_name : option string)
    (now : Z) (run : run_result) (db : database) (i : Z) :
  snd (analyze_pbix_file_with_mcp f project_name now run db) = Some i →
  select_by_name (default (stem f) project_name)
    (fst (analyze_pbix_file_with_mcp f project_name now run db))
    = Some (i, content_hash f).
Proof.
  set (n := default (stem f) project_name).
  assert (Hstore : ∀ existing db0,
            snd (extract_and_store n f now run existing db0) = Some i →
            select_by_name n (fst (extract_and_store n f now run existing db0))
              = Some (i, content_hash f)).
  { intros existing db0 Hres.
    destruct (extraction_fails_dec run) as [Hfail | Hgood].
    - by rewrite extract_and_store_failure in Hres.
    - destruct (extract_and_store_success n f now run existing db0 Hgood)
        as (out & err & data & row & _ & _ & Hrow & Hrun).
      rewrite Hrun in *. simpl in *. simplify_eq.
      apply project_of_payload_name in Hrow as [<- <-].
      apply select_after_insert. }
  intros Hres.
  destruct (select_by_name n db) as [[j h] |] eqn:Hsel.
  - destruct (decide (h = content_hash f)) as [-> | Hne].
    + rewrite (analyze_unchanged _ _ _ _ _ j) in * by done. simpl in *.
      by simplify_eq.
    + rewrite (analyze_changed _ _ _ _ _ j h) in * by done. by apply Hstore.
  - rewrite analyze_new in * by done. by apply Hstore.
Qed.

End WithCodec.
End McpStoreFacts.

Module PyTextFacts.
Import Py PyFacts PyText.

Lemma contains_cons_false (needle : string) (c : ascii) (hay : string) :
  contains needle (String c hay) = false →
  String.prefix needle (String c hay) = false ∧ contains needle hay = false.
Proof. rewrite contains_unfold. by intros [? ?]%orb_false_iff. Qed.

(** The suffix [.pbix] starts with a character that does not occur in
    the rest of it, so no occurrence straddles its start. *)
Lemma pbix_not_straddling (c : ascii) (s : string) :
  String.prefix ".pbix" (String c s) = false →
  String.prefix ".pbix" (String c s ++ ".pbix") = false.
Proof.
  intros Hs. destruct (String.prefix ".pbix" (String c s ++ ".pbix")) eqn:Hp;
    [| done].
  exfalso. apply prefix_spec in Hp as [post Hp].
  assert (Hno : ¬ ∃ post', String c s = (".pbix" ++ post')%string).
  { intros Hex. apply prefix_spec in Hex. congruence. }
  apply Hno. rewrite app_cons in Hp.
  destruct s as [| c1 s]; [done |]. rewrite app_cons in Hp.
  destruct s as [| c2 s]; [done |]. rewrite app_cons in Hp.
  destruct s as [| c3 s]; [done |]. rewrite app_cons in Hp.
  destruct s as [| c4 s]; [done |]. rewrite app_cons in Hp.
  exists s. cbv [String.append] in Hp. simplify_eq. reflexivity.
Qed.

Lemma replace_pbix_suffix (s : string) :
  contains ".pbix" s = false →
  replace ".pbix" "" (s ++ ".pbix") = s.
Proof.
  unfold replace. induction s as [| c s IH]; intros Hs; [done |].
  apply contains_cons_false in Hs as [Hpre Hs].
  rewrite app_cons. cbn [replace_from].
  rewrite <- app_cons, (pbix_not_straddling c s Hpre).
  by rewrite IH.
Qed.

End PyTextFacts.

Module McpRunFacts.
Import Py Sqlite Host Mcp Spec SqliteFacts PyFacts McpAnalyzeFacts McpPages
  McpStoreSpec PyText McpStoreFacts.

Section WithCodec.
Context `{Codec}.

(** Rows that an analysis adds carry an id above the counter, which does
    not go down. *)
Lemma analyze_fresh (f : pbix_file) (project_name : option string)
    (now : Z) (run : run_result) (db : database) :
  let db' := fst (analyze_pbix_file_with_mcp f project_name now run db) in
  seq db ≤ seq db' ∧
  ∀ p, p ∈ rows db' → p ∈ rows db ∨ seq db < id p.
Proof.
  set (n := default (stem f) project_name).
  assert (Hstore : ∀ existing db0,
            let db' := fst (extract_and_store n f now run existing db0) in
            seq db0 ≤ seq db' ∧
            ∀ p, p ∈ rows db' → p ∈ rows db0 ∨ seq db0 < id p).
  { intros existing db0.
    destruct (extraction_fails_dec run) as [Hfail | Hgood].
    - rewrite extract_and_store_failure by done. simpl. split; [lia | auto].
    - destruct (extract_and_store_success n f now run existing db0 Hgood)
        as (out & err & data & row & _ & _ & _ & ->).
      simpl. pose proof (next_rowid_above_seq id db0). split; [lia |].
      intros p Hp. apply elem_of_app in Hp as [Hp | Hp].
      + left. by apply list_elem_of_filter in Hp as [_ Hp].
      + right. apply list_elem_of_singleton in Hp as ->. done. }
  simpl. destruct (select_by_name n db) as [[i h] |] eqn:Hsel.
  - destruct (decide (h = content_hash f)) as [-> | Hne].
    + rewrite (analyze_unchanged _ _ _ _ _ i) by done. simpl.
      split; [lia | auto].
    + rewrite (analyze_changed _ _ _ _ _ i h) by done.
      destruct (Hstore (Some (i, h)) (delete_by_name n db)) as [Hseq Hrows].
      split; [done |]. intros p Hp. destruct (Hrows p Hp) as [Hin | Hnew].
      * left. by apply list_elem_of_filter in Hin as [_ Hin].
      * by right.
  - rewrite analyze_new by done. apply Hstore.
Qed.

Lemma step_fresh (a : action) (s : app) :
  seq (store s) ≤ seq (store (step a s)) ∧
  ∀ p, p ∈ rows (store (step a s)) →
       p ∈ rows (store s) ∨ seq (store s) < id p.
Proof.
  destruct a as [| i | u now run | f pn now run]; simpl.
  - destruct (confirm_clear s); simpl; (split; [lia |]); [| auto].
    intros p Hp. by apply elem_of_nil in Hp.
  - split; [lia |]. intros p Hp. left.
    by apply list_elem_of_filter in Hp as [_ Hp].
  - unfold analyze_upload.
    destruct (analyze_fresh (tmp_file u)
                (Some (replace ".pbix" "" (upload_name u))) now run
                (delete_by_name (replace ".pbix" "" (upload_name u))
                   (store s))) as [Hseq Hrows].
    split; [done |]. intros p Hp. destruct (Hrows p Hp) as [Hin | Hnew].
    + left. by apply list_elem_of_filter in Hin as [_ Hin].
    + by right.
  - apply analyze_fresh.
Qed.

Lemma run_fresh (actions : list action) (s : app) :
  seq (store s) ≤ seq (store (run_actions actions s)) ∧
  ∀ p, p ∈ rows (store (run_actions actions s)) →
       p ∈ rows (store s) ∨ seq (store s) < id p.
Proof.
  unfold run_actions. revert s.
  induction actions as [| a actions IH]; intros s; simpl.
  - split; [lia | auto].
  - destruct (IH (step a s)) as [Hseq Hrows].
    destruct (step_fresh a s) as [Hseq1 Hrows1].
    split; [lia |]. intros p Hp. destruct (Hrows p Hp) as [Hin | Hnew].
    + destruct (Hrows1 p Hin); [by left | by right].
    + right. lia.
Qed.

End WithCodec.
End McpRunFacts.

Module McpStoreClaims.
Import Py Sqlite Host Mcp Spec SqliteFacts PyFacts McpAnalyzeFacts McpPages
  McpStoreSpec PyText McpStoreFacts McpRunFacts PyTextFacts Fixtures.

Section WithCodec.
Context `{Codec}.

(** X1.  Whatever is done from a fresh database (files analyzed through
    the bridge or through the upload page, projects deleted, all data
    cleared), the table [projects] never holds two rows of the same name
    or of the same id, and no row has an id above the AUTOINCREMENT
    counter; a well formed store stays so under every action, and in it
    the SELECT by name finds the row of every stored project. *)
Theorem reachable_stores_are_well_formed :
  (∀ actions : list action, store_ok (store (run_actions actions start))) ∧
  (∀ (a : action) (s : app),
      store_ok (store s) → store_ok (store (step a s))) ∧
  (∀ (db : database) (p : project),
      store_ok db → p ∈ rows db →
      select_by_name (name p) db = Some (id p, file_hash p)).
Proof.
  split; [| split].
  - intros actions. apply store_ok_run, store_ok_init.
  - apply store_ok_step.
  - intros db p (Hn & _ & _). by apply select_by_name_unique.
Qed.

(** X2.  An analysis that returned an id has stored the file under the
    project name with that id and the hash of the file, so analyzing the
    same file again changes nothing and returns the same id, whatever the
    extraction would do the second time. *)
Theorem analysis_is_idempotent (f : pbix_file) (project_name : option string)
    (now now' : Z) (run run' : run_result) (db : database) (i : Z) :
  snd (analyze_pbix_file_with_mcp f project_name now run db) = Some i →
  let db' := fst (analyze_pbix_file_with_mcp f project_name now run db) in
  select_by_name (default (stem f) project_name) db'
    = Some (i, content_hash f) ∧
  analyze_pbix_file_with_mcp f project_name now' run' db' = (db', Some i).
Proof.
  intros Hres db'. apply analyze_outcome in Hres. split; [done |].
  by apply analyze_unchanged.
Qed.

(** X3.  The upload page deletes the row of the project name before it
    calls the bridge, so the bridge never finds the file unchanged: every
    upload runs the extraction on the store without that row.  When the
    extraction fails the project that was stored under the name is gone,
    also when the file is the one that was analyzed before; when it does
    not fail the file is stored under an id above the counter. *)
Theorem upload_always_extracts (u : upload) (now : Z) (run : run_result)
    (db : database) :
  let n := replace ".pbix" "" (upload_name u) in
  analyze_upload u now run db =
    extract_and_store n (tmp_file u) now run None (delete_by_name n db) ∧
  (extraction_fails run →
   analyze_upload u now run db = (delete_by_name n db, None)) ∧
  (¬ extraction_fails run →
   ∃ j, snd (analyze_upload u now run db) = Some j ∧ seq db < j ∧
        select_by_name n (fst (analyze_upload u now run db))
          = Some (j, content_hash (tmp_file u))).
Proof.
  intros n.
  assert (Hrun : analyze_upload u now run db =
                 extract_and_store n (tmp_file u) now run None
                   (delete_by_name n db)).
  { unfold analyze_upload. fold n. rewrite analyze_new; [done |].
    apply select_after_delete. }
  split; [done |]. split.
  - intros Hfail. rewrite Hrun. by apply extract_and_store_failure.
  - intros Hgood. rewrite Hrun.
    destruct (extract_and_store_success n (tmp_file u) now run None
                (delete_by_name n db) Hgood)
      as (out & err & data & row & _ & _ & Hrow & ->).
    apply project_of_payload_name in Hrow as [<- <-]. cbn [fst snd].
    eexists. split; [done |]. split.
    + apply (next_rowid_above_seq id (delete_by_name (name row) db)).
    + apply select_after_insert.
Qed.

(** X4.  For an uploaded file [stem.pbix] whose stem does not contain
    [.pbix], the project name the upload page derives is the stem. *)
Theorem upload_name_is_the_stem (stem : string) :
  contains ".pbix" stem = false →
  replace ".pbix" "" (stem ++ ".pbix") = stem.
Proof. apply replace_pbix_suffix. Qed.

(** X5.  Ids are not reused.  Along every sequence of actions the counter
    of the table does not go down, and a row of the resulting store that
    was not in the store before has an id above every id the store held
    before, also when the rows were deleted or all data was cleared in
    between. *)
Theorem ids_are_not_reused (actions : list action) (s : app) :
  rowids_issued id (store s) →
  seq (store s) ≤ seq (store (run_actions actions s)) ∧
  ∀ p, p ∈ rows (store (run_actions actions s)) →
       p ∈ rows (store s) ∨ ∀ q, q ∈ rows (store s) → id q < id p.
Proof.
  intros Hwf. destruct (run_fresh actions s) as [Hseq Hrows].
  split; [done |]. intros p Hp. destruct (Hrows p Hp) as [Hin | Hnew].
  - by left.
  - right. intros q Hq. unfold rowids_issued in Hwf.
    rewrite Forall_forall in Hwf. specialize (Hwf q Hq). lia.
Qed.

End WithCodec.

Lemma analysis_is_idempotent_witness :
  snd (analyze_pbix_file_with_mcp (H := Reference.codec) report_v2 None 200
         good_run stored_v1) = Some 2 ∧
  analyze_pbix_file_with_mcp (H := Reference.codec) report_v2 None 300
    TimeoutExpired
    (fst (analyze_pbix_file_with_mcp (H := Reference.codec) report_v2 None
            200 good_run stored_v1))
  = (fst (analyze_pbix_file_with_mcp (H := Reference.codec) report_v2 None
            200 good_run stored_v1), Some 2).
Proof.
  assert (Hres : snd (analyze_pbix_file_with_mcp (H := Reference.codec)
                       report_v2 None 200 good_run stored_v1) = Some 2).
  { vm_compute. reflexivity. }
  split; [exact Hres |].
  apply (@analysis_is_idempotent Reference.codec report_v2 None 200 300
           good_run TimeoutExpired stored_v1 2 Hres).
Defined.

Lemma upload_name_is_the_stem_witness :
  replace ".pbix" "" "Sales Report.pbix" = "Sales Report".
Proof.
  apply (upload_name_is_the_stem "Sales Report"). vm_compute. reflexivity.
Defined.

(** [Report] is stored under id 1; all data is cleared with two clicks
    and the same file is uploaded again: it is stored under id 2. *)
Lemma ids_are_not_reused_witness :
  rowids_issued id stored_v1 ∧
  (id <$> rows (store (run_actions (H := Reference.codec)
                         [ClearAllData; ClearAllData;
                          AnalyzeFile {| upload_name := "Report.pbix";
                                         tmp_file := report_v1 |} 200 good_run]
                         {| confirm_clear := false; store := stored_v1 |})))
    = [2] ∧
  1 ≤ seq (store (run_actions (H := Reference.codec)
                    [ClearAllData; ClearAllData;
                     AnalyzeFile {| upload_name := "Report.pbix";
                                    tmp_file := report_v1 |} 200 good_run]
                    {| confirm_clear := false; store := stored_v1 |})).
Proof.
  assert (Hwf : rowids_issued id stored_v1).
  { unfold rowids_issued. vm_compute. repeat constructor. discriminate. }
  split; [exact Hwf |]. split; [vm_compute; reflexivity |].
  apply (@ids_are_not_reused Reference.codec
           [ClearAllData; ClearAllData;
            AnalyzeFile {| upload_name := "Report.pbix";
                           tmp_file := report_v1 |} 200 good_run]
           {| confirm_clear := false; store := stored_v1 |} Hwf).
Defined.

End McpStoreClaims.

(** ** Order and composition of the impact search *)

Module StripFacts.
Import Py PyFacts.

Lemma lstrip_chars_head (cs : list ascii) (c : ascii) (rest : list ascii) :
  lstrip_chars cs = c :: rest → is_space c = false.
Proof.
  induction cs as [| d cs IH]; simpl; [done |].
  destruct (is_space d) eqn:Hd; [done |]. by intros [= <- _].
Qed.

Lemma lstrip_chars_suffix (cs : list ascii) : lstrip_chars cs `suffix_of` cs.
Proof.
  induction cs as [| d cs IH]; simpl; [done |].
  destruct (is_space d); [by apply suffix_cons_r | done].
Qed.

Lemma lstrip_chars_fixed (cs : list ascii) (c : ascii) (rest : list ascii) :
  cs = c :: rest → is_space c = false → lstrip_chars cs = cs.
Proof. intros -> Hc. simpl. by rewrite Hc. Qed.

Lemma list_ascii_app (s t : string) :
  list_ascii_of_string (s ++ t) =
    (list_ascii_of_string s ++ list_ascii_of_string t)%list.
Proof.
  induction s as [| c s IH]; [done |]. rewrite app_cons. simpl. by rewrite IH.
Qed.

(** The stripped text has no white space at either end. *)
Lemma strip_ends (s : string) :
  (∀ c rest, strip s = String c rest → is_space c = false) ∧
  (∀ pre c, strip s = (pre ++ String c EmptyString)%string →
            is_space c = false).
Proof.
  unfold strip.
  set (l1 := lstrip_chars (list_ascii_of_string s)).
  set (l2 := lstrip_chars (rev l1)).
  split.
  - intros c rest Heq.
    apply (f_equal list_ascii_of_string) in Heq.
    rewrite list_ascii_of_string_of_list_ascii in Heq. simpl in Heq.
    (* the first character of [rev l2] is the last of [l2], a suffix of
       [rev l1]: the first of [l1] *)
    destruct (lstrip_chars_suffix (rev l1)) as [k Hk]. fold l2 in Hk.
    apply (f_equal (@rev ascii)) in Hk. rewrite rev_involutive, rev_app_distr in Hk.
    rewrite Heq in Hk. simpl in Hk.
    by apply (lstrip_chars_head (list_ascii_of_string s) c
                (list_ascii_of_string rest ++ rev k)).
  - intros pre c Heq.
    apply (f_equal list_ascii_of_string) in Heq.
    rewrite list_ascii_of_string_of_list_ascii, list_ascii_app in Heq.
    simpl in Heq. apply (f_equal (@rev ascii)) in Heq.
    rewrite rev_involutive, rev_app_distr in Heq. simpl in Heq.
    by apply (lstrip_chars_head (rev l1) c (rev (list_ascii_of_string pre))).
Qed.

End StripFacts.

Module SearchOrderFacts.
Import Py Sqlite Host Mcp Spec PyFacts SearchFacts SearchRefinement.

Lemma string_app_assoc (a b c : string) :
  ((a ++ b) ++ c)%string = (a ++ b ++ c)%string.
Proof.
  induction a as [| x a IH]; [done |]. by rewrite !app_cons, IH.
Qed.

(** Containment is transitive. *)
Lemma contains_trans (a b c : string) :
  contains a b = true → contains b c = true → contains a c = true.
Proof.
  rewrite !contains_spec. intros (p1 & q1 & ->) (p2 & q2 & ->).
  exists (p2 ++ p1)%string, (q1 ++ q2)%string.
  by rewrite !string_app_assoc.
Qed.

Lemma contains_empty (s : string) : contains "" s = true.
Proof. by destruct s. Qed.

Lemma sublist_bind {A B : Type} (f g : A → list B) (l : list A) :
  (∀ x, f x `sublist_of` g x) → (l ≫= f) `sublist_of` (l ≫= g).
Proof.
  intros Hfg. induction l as [| x l IH]; [done |].
  rewrite !bind_cons. by apply sublist_app.
Qed.

Lemma sublist_bind_Forall2 {A A' B : Type} (R : A → A' → Prop)
    (f : A → list B) (g : A' → list B) (l : list A) (l' : list A') :
  Forall2 R l l' → (∀ x y, R x y → f x `sublist_of` g y) →
  (l ≫= f) `sublist_of` (l' ≫= g).
Proof.
  intros Hl Hfg. induction Hl as [| x y l l' Hxy _ IH]; [done |].
  rewrite !bind_cons. apply sublist_app; [by apply Hfg | done].
Qed.

Lemma traverse_map {A B C : Type} (f : A → result B) (g : A → result C)
    (h : B → C) (l : list A) (ys : list B) :
  (∀ x y, f x = Ok y → g x = Ok (h y)) →
  traverse f l = Ok ys → traverse g l = Ok (map h ys).
Proof.
  intros Hfg. revert ys. induction l as [| x l IH]; intros ys; simpl.
  - by intros [= <-].
  - destruct (f x) as [y | e] eqn:Hx; [| done].
    destruct (traverse f l) as [ys' | e]; [| done]. intros [= <-].
    by rewrite (Hfg x y Hx), (IH ys' eq_refl).
Qed.

Lemma traverse_Forall2 {A B C : Type} (R : B → C → Prop)
    (f : A → result B) (g : A → result C) (l : list A)
    (ys : list B) (zs : list C) :
  (∀ x y z, f x = Ok y → g x = Ok z → R y z) →
  traverse f l = Ok ys → traverse g l = Ok zs → Forall2 R ys zs.
Proof.
  intros HR. revert ys zs. induction l as [| x l IH]; intros ys zs; simpl.
  - intros [= <-] [= <-]. constructor.
  - destruct (f x) as [y | e] eqn:Hf; [| done].
    destruct (traverse f l) as [ys' | e]; [| done].
    destruct (g x) as [z | e] eqn:Hg; [| done].
    destruct (traverse g l) as [zs' | e]; [| done].
    intros [= <-] [= <-]. constructor; [by eapply HR | by apply IH].
Qed.

Section WithCodec.
Context `{Codec}.

(** The result of a search that does not raise, by its views. *)
Lemma analyze_impact_views (term scope : string) (db : database) (r : impact) :
  analyze_impact term scope db = Ok r ↔
  ∃ pvs, traverse (view_project scope) (select_impact_data db) = Ok pvs ∧
         r = {| projects_using_table := table_hits term pvs;
                measures_referencing_item := reference_hits term pvs;
                projects_with_measure := measure_hits term pvs;
                projects_using_column := column_hits term pvs |}.
Proof.
  rewrite analyze_impact_search. unfold search.
  destruct (traverse _ _) as [pvs | e]; simpl.
  - split; [intros [= <-]; eauto | by intros (? & [= <-] & ->)].
  - split; [done | by intros (? & ? & _)].
Qed.

(** Scope [table] reads the tables scope [all] reads, and no measures. *)
Lemma view_project_table (row : string * option string * option string)
    (pv : project_view) :
  view_project "all" row = Ok pv →
  view_project "table" row =
    Ok {| pv_name := pv_name pv; pv_tables := pv_tables pv;
          pv_measures := [] |}.
Proof.
  destruct row as [[n t] m]. unfold view_project.
  replace (in_list "all" ["all"; "table"]) with true by done.
  replace (in_list "table" ["all"; "table"]) with true by done.
  assert (Hm : view_measures "table" m = Ok []).
  { unfold view_measures.
    replace (in_list "table" ["all"; "measure"]) with false by done.
    by rewrite andb_false_r. }
  rewrite Hm. destruct (truthy_text t && true).
  - destruct (json_loads _) as [tables |]; [| by intros [= <-]].
    destruct (iter tables) as [ts | e]; [| done]. simpl.
    destruct (traverse table_view ts) as [tvs | e]; [| done]. simpl.
    destruct (view_measures "all" m) as [mvs | e]; [| done]. simpl.
    by intros [= <-].
  - destruct (view_measures "all" m) as [mvs | e]; [| done]. simpl.
    by intros [= <-].
Qed.

Lemma view_measures_all (m : option string) :
  view_measures "all" m = view_measures "measure" m.
Proof. done. Qed.

(** Scope [all] reads the measures scope [measure] reads, or none of the
    project when its tables blob does not decode. *)
Lemma view_project_measure (row : string * option string * option string)
    (pv pm : project_view) :
  view_project "all" row = Ok pv → view_project "measure" row = Ok pm →
  pv_name pv = pv_name pm ∧ pv_tables pm = [] ∧
  (pv_measures pv = pv_measures pm ∨
   (undecodable (snd (fst row)) ∧ pv_measures pv = [])).
Proof.
  destruct row as [[n t] m]. unfold view_project.
  replace (in_list "all" ["all"; "table"]) with true by done.
  replace (in_list "measure" ["all"; "table"]) with false by done.
  rewrite andb_false_r, andb_true_r, view_measures_all.
  destruct (view_measures "measure" m) as [mvs | e]; [| by intros _ ?].
  simpl. intros Hall [= <-]. simpl.
  destruct (truthy_text t) eqn:Ht.
  - destruct (json_loads (default "" t)) as [tables |] eqn:Hl.
    + destruct (iter tables) as [ts | e]; [| done]. simpl in Hall.
      destruct (traverse table_view ts) as [tvs | e]; [| done]. simpl in Hall.
      simplify_eq. simpl. auto.
    + simplify_eq. simpl. split; [done |]. split; [done |]. right.
      split; [| done]. destruct t as [s |]; [| done]. simpl in *.
      exists s. split; [done |]. split; [by destruct s | done].
  - simplify_eq. simpl. auto.
Qed.

Lemma table_hits_ext (term : string) (pvs : list project_view)
    (h : project_view → project_view) :
  (∀ pv, pv_name (h pv) = pv_name pv ∧ pv_tables (h pv) = pv_tables pv) →
  table_hits term (map h pvs) = table_hits term pvs ∧
  column_hits term (map h pvs) = column_hits term pvs.
Proof.
  intros Hh. unfold table_hits, column_hits.
  induction pvs as [| pv pvs [IH1 IH2]]; [done |].
  simpl map. rewrite !bind_cons, IH1, IH2.
  destruct (Hh pv) as [-> ->]. done.
Qed.

Lemma measure_hits_none (term : string) (pvs : list project_view) :
  Forall (λ pv, pv_measures pv = []) pvs →
  measure_hits term pvs = [] ∧ reference_hits term pvs = [].
Proof.
  unfold measure_hits, reference_hits.
  induction 1 as [| pv pvs Hpv _ [IH1 IH2]]; [done |].
  rewrite !bind_cons, IH1, IH2, Hpv. done.
Qed.

Lemma table_hits_none (term : string) (pvs : list project_view) :
  Forall (λ pv, pv_tables pv = []) pvs →
  table_hits term pvs = [] ∧ column_hits term pvs = [].
Proof.
  unfold table_hits, column_hits.
  induction 1 as [| pv pvs Hpv _ [IH1 IH2]]; [done |].
  rewrite !bind_cons, IH1, IH2, Hpv. done.
Qed.

Lemma traverse_Forall {A B : Type} (P : B → Prop) (f : A → result B)
    (l : list A) (ys : list B) :
  (∀ x y, f x = Ok y → P y) → traverse f l = Ok ys → Forall P ys.
Proof.
  intros HP. revert ys. induction l as [| x l IH]; intros ys; simpl.
  - intros [= <-]. constructor.
  - destruct (f x) as [y | e] eqn:Hf; [| done].
    destruct (traverse f l) as [ys' | e]; [| done].
    intros [= <-]. constructor; [by eapply HP | by apply IH].
Qed.

Lemma view_project_no_measures (scope : string)
    (row : string * option string * option string) (pv : project_view) :
  in_list scope ["all"; "measure"] = false →
  view_project scope row = Ok pv → pv_measures pv = [].
Proof.
  intros Hs. destruct row as [[n t] m]. unfold view_project, view_measures.
  rewrite Hs, andb_false_r. destruct (_ && _).
  - destruct (json_loads _) as [tables |]; [| by intros [= <-]].
    destruct (iter tables) as [ts | e]; [| done]. simpl.
    destruct (traverse table_view ts) as [tvs | e]; [| done]. simpl.
    by intros [= <-].
  - simpl. by intros [= <-].
Qed.

Lemma view_project_no_tables (scope : string)
    (row : string * option string * option string) (pv : project_view) :
  in_list scope ["all"; "table"] = false →
  view_project scope row = Ok pv → pv_tables pv = [].
Proof.
  intros Hs. destruct row as [[n t] m]. unfold view_project.
  rewrite Hs, andb_false_r.
  destruct (view_measures scope m) as [mvs | e]; [| done]. simpl.
  by intros [= <-].
Qed.

End WithCodec.
End SearchOrderFacts.

Module SearchOrderClaims.
Import Py Sqlite Host Mcp Spec PyFacts SearchFacts SearchRefinement
  SearchOrderFacts McpImpactPage StripFacts Fixtures.

Section WithCodec.
Context `{Codec}.

(** X6.  The empty term is contained in every name: a search for it that
    does not raise lists every table, every column and every measure the
    scope reads, each measure also as a reference.  The page Impact
    Analysis never passes it: it searches exactly when the stripped term
    is not empty, and it passes the stripped term, which has no white
    space at either end. *)
Theorem empty_term_matches_everything :
  (∀ (scope : string) (db : database) (r : impact)
     (pvs : list project_view),
      traverse (view_project scope) (select_impact_data db) = Ok pvs →
      analyze_impact "" scope db = Ok r →
      (∀ pv tv, pv ∈ pvs → tv ∈ pv_tables pv →
         {| th_project_name := pv_name pv; th_table_name := fst tv;
            th_match_type := "Table Name" |} ∈ projects_using_table r) ∧
      (∀ pv tv c, pv ∈ pvs → tv ∈ pv_tables pv → c ∈ snd tv →
         {| ch_project_name := pv_name pv; ch_table_name := fst tv;
            ch_column_name := c; ch_match_type := "Column Name" |}
           ∈ projects_using_column r) ∧
      (∀ pv mv, pv ∈ pvs → mv ∈ pv_measures pv →
         {| mh_project_name := pv_name pv;
            mh_table_name := mv_table_name mv; mh_measure_name := mv_name mv;
            mh_dax_expression := mv_dax mv;
            mh_match_type := "Measure Name" |} ∈ projects_with_measure r ∧
         {| rh_project_name := pv_name pv; rh_measure_name := mv_name mv;
            rh_dax_expression := mv_dax mv;
            rh_match_type := "DAX Expression Reference" |}
           ∈ measures_referencing_item r)) ∧
  (∀ (search_term scope : string) (db : database),
      (impact_page search_term scope db = None ↔
       strip search_term = EmptyString) ∧
      (strip search_term ≠ EmptyString →
       impact_page search_term scope db =
         Some (analyze_impact (strip search_term) scope db)) ∧
      (∀ c rest, strip search_term = String c rest → is_space c = false) ∧
      (∀ pre c, strip search_term = (pre ++ String c EmptyString)%string →
                is_space c = false)).
Proof.
  split.
  - intros scope db r pvs Hpvs Hr.
    apply analyze_impact_views in Hr as (pvs' & Hpvs' & ->).
    assert (pvs' = pvs) as -> by congruence. simpl.
    destruct (hits_spec "" pvs) as (Ht & Hc & Hm & Hr).
    assert (Hany : ∀ s, contains_ignoring_case "" s).
    { intros s. by exists EmptyString, EmptyString, s. }
    split; [| split].
    + intros pv tv Hpv Htv. apply Ht. by exists pv, tv.
    + intros pv tv c Hpv Htv Hcol. apply Hc. by exists pv, tv, c.
    + intros pv mv Hpv Hmv. split.
      * apply Hm. by exists pv, mv.
      * apply Hr. by exists pv, mv.
  - intros term scope db.
    assert (Hempty : truthy term = false → strip term = EmptyString).
    { by destruct term. }
    unfold impact_page. split; [| split; [| apply strip_ends]].
    + destruct (truthy term) eqn:Ht; simpl.
      * by destruct (strip term) as [| c s].
      * split; [by intros _; apply Hempty | done].
    + intros Hne. destruct (truthy term) eqn:Ht; simpl.
      * by destruct (strip term) as [| c s].
      * destruct Hne. by apply Hempty.
Qed.

(** X7.  A term that contains another one, up to the case of letters,
    finds no more than it: when the search for the longer term does not
    raise, the search for the shorter one does not raise either, and each
    of its four lists holds the hits of the longer term, in the same
    order. *)
Theorem longer_term_finds_less (term1 term2 scope : string) (db : database)
    (r2 : impact) :
  contains (lower term1) (lower term2) = true →
  analyze_impact term2 scope db = Ok r2 →
  ∃ r1, analyze_impact term1 scope db = Ok r1 ∧
        projects_using_table r2 `sublist_of` projects_using_table r1 ∧
        projects_using_column r2 `sublist_of` projects_using_column r1 ∧
        projects_with_measure r2 `sublist_of` projects_with_measure r1 ∧
        measures_referencing_item r2
          `sublist_of` measures_referencing_item r1.
Proof.
  intros Hterm Hr2. apply analyze_impact_views in Hr2 as (pvs & Hpvs & ->).
  eexists. split; [apply analyze_impact_views; eauto |]. simpl.
  assert (Hstep : ∀ (A : Type) (name : string) (h : A),
            (if contains (lower term2) (lower name) then [h] else [])
              `sublist_of`
            (if contains (lower term1) (lower name) then [h] else [])).
  { intros A name h. destruct (contains (lower term2) (lower name)) eqn:H2;
      [| apply sublist_nil_l].
    by rewrite (contains_trans _ _ _ Hterm H2). }
  unfold table_hits, column_hits, measure_hits, reference_hits.
  repeat split; repeat (apply sublist_bind; intros ?); apply Hstep.
Qed.

(** X8.  How the scopes compose.  A scope other than [all], [table] and
    [measure] finds nothing.  Scope [table] lists no measure and scope
    [measure] no table and no column.  When the search with scope [all]
    does not raise, the search with scope [table] returns its tables and
    columns; and the measures and references it lists are among those of
    scope [measure], in the same order, all of them when no project has a
    tables blob that does not decode. *)
Theorem scopes_compose (term : string) (db : database) :
  (∀ scope, scope ≠ "all" → scope ≠ "table" → scope ≠ "measure" →
     analyze_impact term scope db = Ok no_impact) ∧
  (∀ r, analyze_impact term "table" db = Ok r →
     projects_with_measure r = [] ∧ measures_referencing_item r = []) ∧
  (∀ r, analyze_impact term "measure" db = Ok r →
     projects_using_table r = [] ∧ projects_using_column r = []) ∧
  (∀ r, analyze_impact term "all" db = Ok r →
     ∃ rt, analyze_impact term "table" db = Ok rt ∧
           projects_using_table rt = projects_using_table r ∧
           projects_using_column rt = projects_using_column r) ∧
  (∀ r rm, analyze_impact term "all" db = Ok r →
     analyze_impact term "measure" db = Ok rm →
     projects_with_measure r `sublist_of` projects_with_measure rm ∧
     measures_referencing_item r `sublist_of` measures_referencing_item rm ∧
     ((∀ p, p ∈ rows db → ¬ undecodable (tables_data p)) →
      projects_with_measure r = projects_with_measure rm ∧
      measures_referencing_item r = measures_referencing_item rm)).
Proof.
  split; [| split; [| split; [| split]]].
  - intros scope Hall Htable Hmeasure. unfold analyze_impact.
    apply for_each_skip, Forall_forall. intros [[n t] m] _ r.
    rewrite check_project_tables_out_of_scope by done.
    apply check_measures_out_of_scope. unfold in_list. simpl.
    destruct (String.eqb_spec scope "all"); [done |].
    by destruct (String.eqb_spec scope "measure").
  - intros r Hr. apply analyze_impact_views in Hr as (pvs & Hpvs & ->).
    simpl. apply measure_hits_none.
    eapply traverse_Forall; [| exact Hpvs].
    intros row pv. by apply view_project_no_measures.
  - intros r Hr. apply analyze_impact_views in Hr as (pvs & Hpvs & ->).
    simpl. apply table_hits_none.
    eapply traverse_Forall; [| exact Hpvs].
    intros row pv. by apply view_project_no_tables.
  - intros r Hr. apply analyze_impact_views in Hr as (pvs & Hpvs & ->).
    eexists. split.
    + apply analyze_impact_views. eexists. split; [| done].
      eapply traverse_map; [| exact Hpvs]. apply view_project_table.
    + simpl. by apply table_hits_ext.
  - intros r rm Hr Hrm.
    apply analyze_impact_views in Hr as (pvs & Hpvs & ->).
    apply analyze_impact_views in Hrm as (pms & Hpms & ->). simpl.
    assert (Hrel : Forall2
              (λ pv pm, pv_name pv = pv_name pm ∧
                        (pv_measures pv = pv_measures pm ∨
                         pv_measures pv = [])) pvs pms).
    { eapply traverse_Forall2; [| exact Hpvs | exact Hpms].
      intros row pv pm Hpv Hpm.
      destruct (view_project_measure row pv pm Hpv Hpm) as (? & _ & [? | [_ ?]]);
        auto. }
    unfold measure_hits, reference_hits. split; [| split].
    + eapply sublist_bind_Forall2; [exact Hrel |].
      intros pv pm [-> [-> | ->]]; [done | apply sublist_nil_l].
    + eapply sublist_bind_Forall2; [exact Hrel |].
      intros pv pm [-> [-> | ->]]; [done | apply sublist_nil_l].
    + intros Hdec.
      assert (Hsame : Forall2
                (λ pv pm, pv_name pv = pv_name pm ∧
                          pv_measures pv = pv_measures pm) pvs pms).
      { assert (Hrows : Forall (λ row, ¬ undecodable (snd (fst row)))
                          (select_impact_data db)).
        { apply Forall_forall. intros row Hrow.
          apply list_elem_of_fmap in Hrow as (p & -> & Hp).
          apply list_elem_of_filter in Hp as [_ Hp]. by apply Hdec. }
        clear Hrel Hdec. revert pvs pms Hpvs Hpms.
        induction Hrows as [| row rows Hrow _ IH]; intros pvs pms; simpl.
        - intros [= <-] [= <-]. constructor.
        - destruct (view_project "all" row) as [pv | e] eqn:Hpv; [| done].
          destruct (traverse (view_project "all") rows) as [pvs' | e];
            [| done].
          destruct (view_project "measure" row) as [pm | e] eqn:Hpm; [| done].
          destruct (traverse (view_project "measure") rows) as [pms' | e];
            [| done].
          intros [= <-] [= <-]. constructor; [| by apply IH].
          destruct (view_project_measure row pv pm Hpv Hpm)
            as (? & _ & [? | [? _]]); done. }
      clear Hrel Hpvs Hpms Hdec. induction Hsame as [| pv pm pvs pms [Hn Hm] _ [IH1 IH2]];
        [done |].
      rewrite !bind_cons, IH1, IH2, Hn, Hm. done.
Qed.

End WithCodec.

(** The search for [Total] finds what the search for [Total Revenue]
    finds. *)
Lemma longer_term_finds_less_witness :
  contains (lower "Total") (lower "Total Revenue") = true ∧
  ∃ r1 r2,
    analyze_impact (H := Reference.codec) "Total Revenue" "all" three_projects
      = Ok r2 ∧
    analyze_impact (H := Reference.codec) "Total" "all" three_projects
      = Ok r1 ∧
    projects_with_measure r2 `sublist_of` projects_with_measure r1.
Proof.
  assert (Hc : contains (lower "Total") (lower "Total Revenue") = true)
    by (vm_compute; reflexivity).
  split; [exact Hc |].
  destruct (analyze_impact (H := Reference.codec) "Total Revenue" "all"
              three_projects) as [r2 | e] eqn:Hr2; [| by vm_compute in Hr2].
  destruct (@longer_term_finds_less Reference.codec "Total" "Total Revenue"
              "all" three_projects r2 Hc Hr2) as (r1 & Hr1 & _ & _ & Hm & _).
  exists r1, r2. done.
Defined.

End SearchOrderClaims.

(** ** From the analysis to the search *)

Module StoreSearchFacts.
Import Py Sqlite Host Mcp Spec PyFacts SqliteFacts McpAnalyzeFacts SearchFacts
  SearchRefinement SearchOrderFacts RoundTripSpec.

Lemma traverse_elem {A B : Type} (f : A → result B) (l : list A)
    (ys : list B) (x : A) :
  traverse f l = Ok ys → x ∈ l → ∃ y, f x = Ok y ∧ y ∈ ys.
Proof.
  revert ys. induction l as [| a l IH]; intros ys Hys Hx;
    [by apply elem_of_nil in Hx |].
  simpl in Hys. destruct (f a) as [b | e] eqn:Ha; [| done].
  destruct (traverse f l) as [bs | e]; [| done]. simplify_eq.
  apply elem_of_cons in Hx as [-> | Hx].
  - exists b. split; [done | left].
  - destruct (IH bs eq_refl Hx) as (y & Hy & Hin). exists y.
    split; [done | by right].
Qed.

Section WithCodec.
Context `{Codec}.

(** The blobs of the stored row are the dumps of the parts of the
    payload. *)
Lemma project_of_payload_blobs (project_name : string) (f : pbix_file)
    (now : Z) (data : json) (row : project) :
  project_of_payload project_name f now data = Ok row →
  ∃ tables measures,
    getitem data "tables" = Ok tables ∧
    getitem data "measures" = Ok measures ∧
    tables_data row = Some (json_dumps tables) ∧
    measures_data row = Some (json_dumps measures).
Proof.
  unfold project_of_payload. intros Hrow.
  destruct (getitem data "tables") as [t |]; [| done].
  destruct (getitem data "metadata"); [| done].
  destruct (get data "schema" (JArr [])); [| done].
  destruct (getitem data "measures") as [m |]; [| done].
  destruct (getitem data "relationships"); [| done].
  simplify_eq/=. by exists t, m.
Qed.

(** An analysis that stores a row stores the one built from the
    payload. *)
Lemma analyze_stores (f : pbix_file) (project_name : option string)
    (now : Z) (out err : string) (db : database) (data : json) :
  let n := default (stem f) project_name in
  (∀ i, select_by_name n db ≠ Some (i, content_hash f)) →
  contains marker out = true →
  parse_payload out = Some data →
  has_payload_keys data →
  ∃ row j,
    project_of_payload n f now data = Ok row ∧
    with_id row j
      ∈ rows (fst (analyze_pbix_file_with_mcp f project_name now
                     (CompletedProcess 0 out err) db)).
Proof.
  intros n Hnew Hm Hd Hk.
  apply (project_of_payload_keys n f now) in Hk as [row Hrow].
  assert (Hstore : ∀ existing db0,
            ∃ j, with_id row j
                   ∈ rows (fst (extract_and_store n f now
                                  (CompletedProcess 0 out err) existing db0))).
  { intros existing db0. unfold extract_and_store.
    rewrite Hm, Hd, Hrow. simpl. rewrite lastrowid_or_next. simpl.
    eexists. apply elem_of_app. right. by apply list_elem_of_singleton. }
  exists row.
  destruct (select_by_name n db) as [[i h] |] eqn:Hsel.
  - rewrite (analyze_changed _ _ _ _ _ i h); [| done |].
    + destruct (Hstore (Some (i, h)) (delete_by_name n db)) as [j Hj]. eauto.
    + intros ->. by apply (Hnew i).
  - rewrite analyze_new by done.
    destruct (Hstore None db) as [j Hj]. eauto.
Qed.

(** What the search reads of a stored project whose tables blob round
    trips. *)
Lemma view_project_tables (scope n : string) (tables : json)
    (m : option string) (pv : project_view) :
  round_trips tables → scope = "all" ∨ scope = "table" →
  view_project scope (n, Some (json_dumps tables), m) = Ok pv →
  pv_name pv = n ∧
  ∃ ts, iter tables = Ok ts ∧ traverse table_view ts = Ok (pv_tables pv).
Proof.
  intros [Hne Hrt] Hscope. unfold view_project.
  assert (truthy_text (Some (json_dumps tables)) = true) as ->
    by (simpl; by destruct (json_dumps tables)).
  assert (in_list scope ["all"; "table"] = true) as ->
    by by destruct Hscope as [-> | ->].
  change (default "" (Some (json_dumps tables))) with (json_dumps tables).
  cbn [andb]. rewrite Hrt. destruct (iter tables) as [ts | e] eqn:Hts; [| done]. simpl.
  destruct (traverse table_view ts) as [tvs | e] eqn:Htvs; [| done]. simpl.
  destruct (view_measures scope m) as [mvs | e]; [| done]. simpl.
  intros [= <-]. simpl. split; [done |]. by exists ts.
Qed.

Lemma view_project_measures (scope n : string) (tables measures : json)
    (pv : project_view) :
  round_trips tables → round_trips measures →
  scope = "all" ∨ scope = "measure" →
  view_project scope (n, Some (json_dumps tables), Some (json_dumps measures))
    = Ok pv →
  pv_name pv = n ∧
  ∃ ms, iter measures = Ok ms ∧ traverse view_measure ms = Ok (pv_measures pv).
Proof.
  intros [Hnet Hrtt] [Hnem Hrtm] Hscope. unfold view_project, view_measures.
  assert (truthy_text (Some (json_dumps tables)) = true) as ->
    by (simpl; by destruct (json_dumps tables)).
  assert (truthy_text (Some (json_dumps measures)) = true) as ->
    by (simpl; by destruct (json_dumps measures)).
  assert (in_list scope ["all"; "measure"] = true) as ->
    by by destruct Hscope as [-> | ->].
  change (default "" (Some (json_dumps tables))) with (json_dumps tables).
  change (default "" (Some (json_dumps measures)))
    with (json_dumps measures).
  cbn [andb]. rewrite Hrtm.
  destruct (in_list scope ["all"; "table"]).
  - rewrite Hrtt. destruct (iter tables) as [ts | e] eqn:Hts; [| done]. simpl.
    destruct (traverse table_view ts) as [tvs | e] eqn:Htvs; [| done]. simpl.
    destruct (iter measures) as [ms | e] eqn:Hms; [| done]. simpl.
    destruct (traverse view_measure ms) as [mvs | e] eqn:Hmvs; [| done]. simpl.
    intros [= <-]. simpl. split; [done |]. by exists ms.
  - destruct (iter measures) as [ms | e] eqn:Hms; [| done]. simpl.
    destruct (traverse view_measure ms) as [mvs | e] eqn:Hmvs; [| done]. simpl.
    intros [= <-]. simpl. split; [done |]. by exists ms.
Qed.

End WithCodec.
End StoreSearchFacts.

Module StoreSearchClaims.
Import Py Sqlite Host Mcp Spec PyFacts SqliteFacts McpAnalyzeFacts SearchFacts
  SearchRefinement SearchOrderFacts RoundTripSpec StoreSearchFacts Fixtures.

Section WithCodec.
Context `{Codec}.

(** X9.  What an analysis stores can be searched.  Let the extraction of
    a new or changed file succeed with a payload whose tables (and
    measures) are read back by [json.loads] from the text [json.dumps]
    writes.  Then every search on the resulting store that does not raise
    lists, under the name of the project, each table of the payload whose
    name contains the term and each column of it whose name does (scopes
    [all] and [table]), and each measure whose name does (scopes [all]
    and [measure]). *)
Theorem analyzed_model_is_searchable (f : pbix_file)
    (project_name : option string) (now : Z) (out err : string)
    (db : database) (data tables measures : json) (term scope : string)
    (r : impact) :
  let n := default (stem f) project_name in
  let db' := fst (analyze_pbix_file_with_mcp f project_name now
                    (CompletedProcess 0 out err) db) in
  (∀ i, select_by_name n db ≠ Some (i, content_hash f)) →
  contains marker out = true →
  parse_payload out = Some data →
  has_payload_keys data →
  getitem data "tables" = Ok tables →
  getitem data "measures" = Ok measures →
  round_trips tables →
  analyze_impact term scope db' = Ok r →
  (scope = "all" ∨ scope = "table" →
   ∃ ts tvs, iter tables = Ok ts ∧ traverse table_view ts = Ok tvs ∧
     (∀ tv, tv ∈ tvs → contains_ignoring_case term (fst tv) →
        {| th_project_name := n; th_table_name := fst tv;
           th_match_type := "Table Name" |} ∈ projects_using_table r) ∧
     (∀ tv c, tv ∈ tvs → c ∈ snd tv → contains_ignoring_case term c →
        {| ch_project_name := n; ch_table_name := fst tv;
           ch_column_name := c; ch_match_type := "Column Name" |}
          ∈ projects_using_column r)) ∧
  (round_trips measures → scope = "all" ∨ scope = "measure" →
   ∃ ms mvs, iter measures = Ok ms ∧ traverse view_measure ms = Ok mvs ∧
     ∀ mv, mv ∈ mvs → contains_ignoring_case term (mv_name mv) →
        {| mh_project_name := n; mh_table_name := mv_table_name mv;
           mh_measure_name := mv_name mv; mh_dax_expression := mv_dax mv;
           mh_match_type := "Measure Name" |} ∈ projects_with_measure r).
Proof.
  intros n db' Hnew Hm Hd Hk Ht Hms Hrt Hr.
  destruct (analyze_stores f project_name now out err db data Hnew Hm Hd Hk)
    as (row & j & Hrow & Hin). fold n db' in Hrow, Hin.
  pose proof (project_of_payload_name _ _ _ _ _ Hrow) as [Hname _].
  apply project_of_payload_blobs in Hrow
    as (tables' & measures' & Ht' & Hms' & Htd & Hmd).
  assert (tables' = tables) as -> by congruence.
  assert (measures' = measures) as -> by congruence.
  apply analyze_impact_views in Hr as (pvs & Hpvs & ->).
  assert (Hsel : (n, Some (json_dumps tables), Some (json_dumps measures))
                   ∈ select_impact_data db').
  { unfold select_impact_data. apply list_elem_of_fmap.
    exists (with_id row j). split.
    - unfold impact_row. simpl. by rewrite Hname, Htd, Hmd.
    - apply list_elem_of_filter. split; [| done]. left. simpl.
      rewrite Htd. by eexists. }
  destruct (traverse_elem _ _ _ _ Hpvs Hsel) as (pv & Hpv & Hpvin).
  destruct (hits_spec term pvs) as (Hth & Hch & Hmh & _). simpl. split.
  - intros Hscope.
    destruct (view_project_tables scope n tables _ pv Hrt Hscope Hpv)
      as (Hn & ts & Hts & Htvs).
    exists ts, (pv_tables pv). split; [done |]. split; [done |]. split.
    + intros tv Htv Hc. apply Hth. exists pv, tv. by rewrite Hn.
    + intros tv c Htv Hcol Hc. apply Hch. exists pv, tv, c. by rewrite Hn.
  - intros Hrtm Hscope.
    destruct (view_project_measures scope n tables measures pv Hrt Hrtm
                Hscope Hpv) as (Hn & ms & Hmsl & Hmvs).
    exists ms, (pv_measures pv). split; [done |]. split; [done |].
    intros mv Hmv Hc. apply Hmh. exists pv, mv. by rewrite Hn.
Qed.

End WithCodec.

(** [Report] analyzed on an empty database: the search for [sales] finds
    its table Sales. *)
Lemma analyzed_model_is_searchable_witness :
  ∃ r,
    analyze_impact (H := Reference.codec) "sales" "all" stored_v1 = Ok r ∧
    {| th_project_name := "Report"; th_table_name := "Sales";
       th_match_type := "Table Name" |} ∈ projects_using_table r.
Proof.
  destruct (analyze_impact (H := Reference.codec) "sales" "all" stored_v1)
    as [r | e] eqn:Hr; [| vm_compute in Hr; discriminate].
  exists r. split; [reflexivity |].
  assert (Hrt : round_trips (H := Reference.codec) sales_tables).
  { split; [vm_compute; discriminate | vm_compute; reflexivity]. }
  assert (Hkeys : has_payload_keys payload).
  { unfold has_payload_keys, payload. do 5 eexists.
    split; [reflexivity |]. repeat split; vm_compute; reflexivity. }
  assert (Hnew : ∀ i, select_by_name (default (stem report_v1) None)
                        init_database ≠ Some (i, content_hash report_v1)).
  { intros i. vm_compute. discriminate. }
  assert (Hm : contains marker good_stdout = true)
    by (vm_compute; reflexivity).
  assert (Hd : parse_payload (H := Reference.codec) good_stdout = Some payload)
    by (vm_compute; reflexivity).
  assert (Ht : getitem payload "tables" = Ok sales_tables)
    by (vm_compute; reflexivity).
  assert (Hms : getitem payload "measures" = Ok revenue_measures)
    by (vm_compute; reflexivity).
  destruct (@analyzed_model_is_searchable Reference.codec report_v1 None 100
              good_stdout "" init_database payload sales_tables
              revenue_measures "sales" "all" r Hnew Hm Hd Hkeys Ht Hms Hrt Hr)
    as [Htables _].
  destruct Htables as (ts & tvs & Hts & Htvs & Hfound & _);
    [left; reflexivity |].
  vm_compute in Hts. injection Hts as <-.
  vm_compute in Htvs. injection Htvs as <-.
  apply (Hfound ("Sales", ["Amount"])); [left |].
  exists EmptyString, "Sales", EmptyString. split; reflexivity.
Defined.

End StoreSearchClaims.

(** ** The sharing reports and the order of the stored rows *)

Module SharingOrderFacts.
Import Py Sqlite Host Mcp Spec PyFacts SharingFacts.

Section WithCodec.
Context `{Codec}.








(** The owners of a key are among the names of the fetched rows. *)
Lemma owners_names (keys : json → result (list key)) (k : key)
    (rows : list (string * string)) :
  ∀ n, n ∈ owners keys k rows → n ∈ rows.*1.
Proof.
  intros n. unfold owners. rewrite elem_of_list_to_set.
  intros Hin. apply list_elem_of_fmap in Hin as (row & -> & Hin).
  apply list_elem_of_filter in Hin as [_ Hin].
  by apply list_elem_of_fmap_2.
Qed.

Lemma size_list_to_set_le (l : list string) :
  (size (list_to_set l : gset string) ≤ length l)%nat.
Proof.
  induction l as [| x l IH]; [by rewrite list_to_set_nil, size_empty |].
  rewrite list_to_set_cons. simpl length.
  pose proof (size_union_alt ({[ x ]} : gset string) (list_to_set l)) as Hs.
  rewrite size_singleton in Hs.
  assert (Hsub : list_to_set l ∖ {[x]} ⊆ (list_to_set l : gset string))
    by set_solver.
  apply subseteq_size in Hsub. rewrite Hs. simpl.
  apply le_n_S. by etrans.
Qed.

Lemma owners_size (keys : json → result (list key)) (k : key)
    (rows : list (string * string)) :
  (size (owners keys k rows) ≤ length rows)%nat.
Proof.
  unfold owners. etrans; [apply size_list_to_set_le |].
  rewrite length_map. apply length_filter.
Qed.

Lemma select_tables_data_names (db : database) :
  (select_tables_data db).*1 ⊆ name <$> rows db ∧
  (length (select_tables_data db) ≤ length (rows db))%nat.
Proof.
  unfold select_tables_data. induction (rows db) as [| p l [IH1 IH2]];
    [done |].
  csimpl. destruct (tables_data p); csimpl.
  - split; [set_solver | lia].
  - split; [set_solver | lia].
Qed.

Lemma select_measures_data_names (db : database) :
  (select_measures_data db).*1 ⊆ name <$> rows db ∧
  (length (select_measures_data db) ≤ length (rows db))%nat.
Proof.
  unfold select_measures_data. induction (rows db) as [| p l [IH1 IH2]];
    [done |].
  csimpl. destruct (measures_data p); csimpl.
  - split; [set_solver | lia].
  - split; [set_solver | lia].
Qed.

End WithCodec.
End SharingOrderFacts.

Module SharingRowFacts.
Import Py Sqlite Host Mcp Spec PyFacts SharingFacts SharingOrderFacts.

Section WithCodec.
Context `{Codec}.

(** A row of a sharing report: its count lies between two and the number
    of fetched rows, and its projects are that many distinct names of
    fetched rows, in ascending order. *)
Lemma sharing_report_row (keys : json → result (list key))
    (rows : list (string * string)) (report : list shared_row)
    (row : shared_row) :
  sharing_report keys rows report → row ∈ report →
  (2 ≤ project_count row ≤ length rows)%nat ∧
  ∃ names, shared_projects row = join ", " names ∧
           Sorted str_le names ∧ NoDup names ∧
           length names = project_count row ∧
           ∀ n, n ∈ names → n ∈ rows.*1.
Proof.
  intros (_ & _ & Hin) Hrow. apply Hin in Hrow as (Hsize & Hcount & Hnames).
  pose proof (owners_size keys (entity_name row) rows) as Hle.
  split; [lia |].
  exists (sorted (elements (owners keys (entity_name row) rows))).
  destruct (sorted_spec (elements (owners keys (entity_name row) rows)))
    as [Hsorted Hperm].
  split; [done |]. split; [done |]. split; [| split].
  - rewrite Hperm. apply NoDup_elements.
  - by rewrite Hperm, Hcount.
  - intros n Hn. rewrite Hperm in Hn. apply elem_of_elements in Hn.
    by apply (owners_names keys (entity_name row)).
Qed.

End WithCodec.
End SharingRowFacts.

Module SharingOrderClaims.
Import Py Sqlite Host Mcp Spec PyFacts SharingFacts SharingOrderFacts
  SharingRowFacts Fixtures.

Section WithCodec.
Context `{Codec}.


(** X11.  In every row of a sharing report the count is at least two and
    at most the number of stored projects, and the projects column is the
    join of that many distinct names of stored projects in ascending
    order; so on a store with fewer than two projects every report that
    is returned is empty. *)
Theorem shared_rows_are_bounded (db : database)
    (report : list shared_row) :
  get_shared_tables db = Ok report ∨ get_shared_measures db = Ok report ∨
  get_shared_columns db = Ok report →
  (∀ row, row ∈ report →
     (2 ≤ project_count row ≤ length (rows db))%nat ∧
     ∃ names, shared_projects row = join ", " names ∧
              Sorted str_le names ∧ NoDup names ∧
              length names = project_count row ∧
              ∀ n, n ∈ names → n ∈ name <$> rows db) ∧
  ((length (rows db) < 2)%nat → report = []).
Proof.
  intros Hreport.
  assert (Hrows : ∃ keys fetched,
            sharing_report keys fetched report ∧
            fetched.*1 ⊆ name <$> rows db ∧
            (length fetched ≤ length (rows db))%nat).
  { destruct Hreport as [Hr | [Hr | Hr]].
    - exists entity_names, (select_tables_data db). split.
      + by apply (collect_usage_reports entity_names scan_tables _
                    scan_tables_keys).
      + apply select_tables_data_names.
    - exists entity_names, (select_measures_data db). split.
      + by apply (collect_usage_reports entity_names scan_measures _
                    scan_measures_keys).
      + apply select_measures_data_names.
    - exists column_names, (select_tables_data db). split.
      + by apply (collect_usage_reports column_names scan_columns _
                    scan_columns_keys).
      + apply select_tables_data_names. }
  destruct Hrows as (keys & fetched & Hspec & Hnames & Hlen).
  assert (Hall : ∀ row, row ∈ report →
            (2 ≤ project_count row ≤ length (rows db))%nat ∧
            ∃ names, shared_projects row = join ", " names ∧
                     Sorted str_le names ∧ NoDup names ∧
                     length names = project_count row ∧
                     ∀ n, n ∈ names → n ∈ name <$> rows db).
  { intros row Hrow.
    destruct (sharing_report_row keys fetched report row Hspec Hrow)
      as (Hcount & names & Hjoin & Hsorted & Hnd & Hnl & Hin).
    split; [lia |]. exists names. repeat split; try done.
    intros n Hn. by apply Hnames, Hin. }
  split; [done |]. intros Hfew.
  destruct report as [| row report]; [done |].
  destruct (Hall row) as [Hcount _]; [left |]. lia.
Qed.

End WithCodec.


(** The report on the three projects has the one row of Sales: count 2,
    between 2 and 3. *)
Lemma shared_rows_are_bounded_witness :
  ∃ report,
    get_shared_tables (H := Reference.codec) three_projects = Ok report ∧
    ∀ row, row ∈ report → (2 ≤ project_count row ≤ 3)%nat.
Proof.
  destruct (get_shared_tables (H := Reference.codec) three_projects)
    as [report | e] eqn:Hr; [| vm_compute in Hr; discriminate].
  exists report. split; [reflexivity |]. intros row Hrow.
  destruct (@shared_rows_are_bounded Reference.codec three_projects report
              (or_introl Hr)) as [Hall _].
  by destruct (Hall row Hrow) as [Hcount _].
Defined.

End SharingOrderClaims.

(** ** The page Project Overview *)

Module OverviewFacts.
Import Py Sqlite Host Mcp Spec McpPages McpOverview OverviewSpec.

Lemma later_total : Total later.
Proof. intros p q. unfold later. lia. Qed.


Lemma sum_Permutation (l1 l2 : list Z) : l1 ≡ₚ l2 → sum l1 = sum l2.
Proof.
  unfold sum. induction 1; simpl; lia.
Qed.

Section WithCodec.
Context `{Codec}.





End WithCodec.
End OverviewFacts.

Module OverviewClaims.
Import Py Sqlite Host Mcp Spec McpPages McpOverview OverviewSpec OverviewFacts
  Fixtures.

Section WithCodec.
Context `{Codec}.


End WithCodec.

End OverviewClaims.

(** ** LIKE and the references to a table *)

Module LikeFacts.
Import Py Sqlite PyFacts LikeSpec.

Lemma like_percent (p t : list ascii) :
  like_chars ("%"%char :: p) t =
    like_chars p t ||
    match t with
    | [] => false
    | _ :: t' => like_chars ("%"%char :: p) t'
    end.
Proof. by destruct t. Qed.

Lemma like_cons (c : ascii) (p t : list ascii) :
  Ascii.eqb c "%" = false →
  like_chars (c :: p) t =
    match t with
    | [] => false
    | d :: t' =>
        (Ascii.eqb c "_" || Ascii.eqb (lower_char c) (lower_char d)) &&
        like_chars p t'
    end.
Proof. intros Hc. destruct t; simpl; by rewrite Hc. Qed.

Lemma like_percent_all (t : list ascii) : like_chars ["%"%char] t = true.
Proof.
  induction t as [| d t IH]; [done |].
  rewrite like_percent, IH. apply orb_true_r.
Qed.

(** [%] may stand for no character, and for one more. *)
Lemma like_percent_here (p t : list ascii) :
  like_chars p t = true → like_chars ("%"%char :: p) t = true.
Proof. intros Hp. by rewrite like_percent, Hp. Qed.

Lemma like_percent_next (p t : list ascii) (d : ascii) :
  like_chars ("%"%char :: p) t = true →
  like_chars ("%"%char :: p) (d :: t) = true.
Proof. intros Hp. rewrite like_percent, Hp. apply orb_true_r. Qed.

(** The prefix test on the lower case forms, character by character. *)
Lemma prefix_lower_cons (c d : ascii) (s t : string) :
  String.prefix (lower (String c s)) (lower (String d t)) =
    Ascii.eqb (lower_char c) (lower_char d) &&
    String.prefix (lower s) (lower t).
Proof.
  simpl. destruct (ascii_dec (lower_char c) (lower_char d)) as [-> | Hne].
  - by rewrite Ascii.eqb_refl.
  - by apply Ascii.eqb_neq in Hne as ->.
Qed.

(** A pattern that ends in [%] matches every text that starts with the
    pattern read letter by letter, the case of letters apart. *)
Lemma like_literal_prefix (name text : string) :
  String.prefix (lower name) (lower text) = true →
  like_chars (list_ascii_of_string name ++ ["%"%char])
             (list_ascii_of_string text) = true.
Proof.
  revert text. induction name as [| c name IH]; intros text Hpre.
  - apply like_percent_all.
  - destruct text as [| d text]; [done |].
    rewrite prefix_lower_cons in Hpre.
    apply andb_true_iff in Hpre as [Hcd Hpre].
    specialize (IH text Hpre).
    change (list_ascii_of_string (String c name) ++ ["%"%char])%list
      with (c :: (list_ascii_of_string name ++ ["%"%char]))%list.
    change (list_ascii_of_string (String d text))
      with (d :: list_ascii_of_string text).
    destruct (Ascii.eqb c "%") eqn:Hc.
    + apply Ascii.eqb_eq in Hc as ->.
      by apply like_percent_next, like_percent_here.
    + rewrite like_cons by done. by rewrite Hcd, orb_true_r, IH.
Qed.

(** Without wild cards the pattern matches those texts only. *)
Lemma like_wildcard_free_prefix (name text : string) :
  wildcard_free name = true →
  like_chars (list_ascii_of_string name ++ ["%"%char])
             (list_ascii_of_string text) =
    String.prefix (lower name) (lower text).
Proof.
  unfold wildcard_free. revert text.
  induction name as [| c name IH]; intros text Hfree.
  - rewrite like_percent_all. by destruct text.
  - simpl in Hfree. apply andb_true_iff in Hfree as [Hc Hfree].
    apply andb_true_iff in Hc as [Hp Hu].
    apply negb_true_iff in Hp, Hu.
    change (list_ascii_of_string (String c name) ++ ["%"%char])%list
      with (c :: (list_ascii_of_string name ++ ["%"%char]))%list.
    rewrite like_cons by done.
    destruct text as [| d text]; [done |].
    change (list_ascii_of_string (String d text))
      with (d :: list_ascii_of_string text).
    by rewrite prefix_lower_cons, Hu, IH.
Qed.

Lemma like_pattern (name text : string) :
  like text ("%" ++ name ++ "%") =
    like_chars ("%"%char :: (list_ascii_of_string name ++ ["%"%char]))
               (list_ascii_of_string text).
Proof.
  unfold like. rewrite app_cons, app_empty.
  change (list_ascii_of_string (String "%" (name ++ "%")))
    with ("%"%char :: list_ascii_of_string (name ++ "%")).
  by rewrite StripFacts.list_ascii_app.
Qed.

Lemma like_contains (name text : string) :
  contains (lower name) (lower text) = true →
  like text ("%" ++ name ++ "%") = true.
Proof.
  rewrite like_pattern.
  induction text as [| d text IH]; rewrite contains_unfold.
  - rewrite orb_false_r. intros Hpre. apply like_percent_here.
    by apply (like_literal_prefix name "").
  - change (list_ascii_of_string (String d text))
      with (d :: list_ascii_of_string text).
    change (lower (String d text)) with (String (lower_char d) (lower text)).
    intros [Hpre | Hrest]%orb_true_iff.
    + apply like_percent_here.
      by apply (like_literal_prefix name (String d text)).
    + by apply like_percent_next, IH.
Qed.

Lemma like_wildcard_free (name text : string) :
  wildcard_free name = true →
  like text ("%" ++ name ++ "%") = contains (lower name) (lower text).
Proof.
  intros Hfree. rewrite like_pattern.
  induction text as [| d text IH]; rewrite contains_unfold, like_percent.
  - by rewrite (like_wildcard_free_prefix name "" Hfree).
  - change (list_ascii_of_string (String d text))
      with (d :: list_ascii_of_string text).
    change (d :: list_ascii_of_string text)
      with (list_ascii_of_string (String d text)) at 1.
    rewrite (like_wildcard_free_prefix name (String d text) Hfree).
    change (lower (String d text)) with (String (lower_char d) (lower text)).
    by rewrite IH.
Qed.

End LikeFacts.

Module NormalizedSearchFacts.
Import Py Sqlite Host Normalized Spec PyFacts NormalizedQueryFacts LikeSpec
  LikeFacts.

Lemma projects_with_measures_elem (db : database) (p : project)
    (m : measure_row) :
  (p, m) ∈ projects_with_measures db ↔
  p ∈ rows (projects db) ∧ m ∈ rows (measures db) ∧
  id p = measure_project_id m.
Proof.
  unfold projects_with_measures. rewrite list_elem_of_bind. split.
  - intros (p' & Hin & Hp). apply list_elem_of_bind in Hin as (m' & Hin & Hm).
    destruct (decide (id p' = measure_project_id m')); [| by apply elem_of_nil in Hin].
    apply list_elem_of_singleton in Hin. by simplify_eq.
  - intros (Hp & Hm & Heq). exists p. split; [| done].
    apply list_elem_of_bind. exists m. split; [| done].
    rewrite decide_True by done. by apply list_elem_of_singleton.
Qed.

Lemma projects_with_tables_elem (db : database) (p : project)
    (t : table_row) :
  (p, t) ∈ projects_with_tables db ↔
  p ∈ rows (projects db) ∧ t ∈ rows (tables db) ∧
  id p = table_project_id t.
Proof.
  unfold projects_with_tables. rewrite list_elem_of_bind. split.
  - intros (p' & Hin & Hp). apply list_elem_of_bind in Hin as (t' & Hin & Ht).
    destruct (decide (id p' = table_project_id t')); [| by apply elem_of_nil in Hin].
    apply list_elem_of_singleton in Hin. by simplify_eq.
  - intros (Hp & Ht & Heq). exists p. split; [| done].
    apply list_elem_of_bind. exists t. split; [| done].
    rewrite decide_True by done. by apply list_elem_of_singleton.
Qed.

(** The result of the call with a table name only. *)
Lemma analyze_impact_of_table (n : string) (db : database) :
  n ≠ EmptyString →
  analyze_impact (Some n) None None db =
    Ok {| projects_using_table :=
            Some (distinct
                    (map (λ pt, name (fst pt))
                         (filter (λ pt, table_name (snd pt) = n)
                                 (projects_with_tables db))));
          measures_referencing_table :=
            Some (distinct
                    (map (λ pm, (name (fst pm), measure_name (snd pm),
                                 dax_expression (snd pm)))
                         (filter (λ pm, like (dax_expression (snd pm))
                                             ("%" ++ n ++ "%") = true)
                                 (projects_with_measures db))));
          projects_with_measure := None;
          projects_using_column := None |}.
Proof. intros Hn. by destruct n. Qed.

End NormalizedSearchFacts.

Module NormalizedSearchClaims.
Import Py Sqlite Host Normalized Spec PyFacts NormalizedQueryFacts LikeSpec
  LikeFacts NormalizedSearchFacts Fixtures.

(** X13.  The measures the normalized analyzer lists as referencing a
    table are found with [LIKE '%name%'].  Each listed triple is a
    measure of a stored project, listed once; every measure whose
    expression contains the name, the case of letters apart, is listed;
    and when the name has neither [%] nor [_] no other measure is: the
    test is then the one the denormalized search applies to
    expressions. *)
Theorem table_references_match_by_containment (n : string)
    (db : database) :
  n ≠ EmptyString →
  ∃ r found,
    analyze_impact (Some n) None None db = Ok r ∧
    measures_referencing_table r = Some found ∧
    NoDup found ∧
    (∀ hit, hit ∈ found →
       ∃ p m, p ∈ rows (projects db) ∧ m ∈ rows (measures db) ∧
              id p = measure_project_id m ∧
              hit = (name p, measure_name m, dax_expression m)) ∧
    (∀ p m, p ∈ rows (projects db) → m ∈ rows (measures db) →
            id p = measure_project_id m →
            contains_ignoring_case n (dax_expression m) →
            (name p, measure_name m, dax_expression m) ∈ found) ∧
    (wildcard_free n = true →
     ∀ pn mn dax, (pn, mn, dax) ∈ found → contains_ignoring_case n dax).
Proof.
  intros Hn. rewrite (analyze_impact_of_table n db Hn).
  eexists _, _. split; [done |]. split; [done |]. split; [| split; [| split]].
  - apply NoDup_distinct.
  - intros hit Hhit. apply elem_of_distinct, list_elem_of_fmap in Hhit
      as ([p m] & -> & Hin).
    apply list_elem_of_filter in Hin as [_ Hin].
    apply projects_with_measures_elem in Hin as (Hp & Hm & Hid).
    by exists p, m.
  - intros p m Hp Hm Hid Hc. apply elem_of_distinct, list_elem_of_fmap.
    exists (p, m). split; [done |]. apply list_elem_of_filter. split.
    + simpl. apply like_contains. by apply contains_lower_spec.
    + by apply projects_with_measures_elem.
  - intros Hfree pn mn dax Hhit.
    apply elem_of_distinct, list_elem_of_fmap in Hhit as ([p m] & Heq & Hin).
    apply list_elem_of_filter in Hin as [Hlike _]. simpl in *. simplify_eq.
    rewrite like_wildcard_free in Hlike by done.
    by apply contains_lower_spec.
Qed.

(** Table Sales of [Report]: its measure Total Revenue, whose expression
    names the table, is listed for [sales]. *)
Lemma table_references_match_by_containment_witness :
  "sales" ≠ EmptyString ∧
  ∃ r,
    analyze_impact (Some "sales") None None normalized_v1 = Ok r ∧
    measures_referencing_table r
      = Some [("Report", "Total Revenue", "SUM(Sales[Amount])")].
Proof.
  split; [discriminate |].
  destruct (table_references_match_by_containment "sales" normalized_v1)
    as (r & found & Hr & Hfound & _); [discriminate |].
  exists r. split; [exact Hr |].
  vm_compute in Hr. injection Hr as <-. vm_compute. reflexivity.
Defined.

End NormalizedSearchClaims.

(** ** What the normalized analyzer stores *)

Module NormalizedStoreFacts.
Import Py Sqlite Host Normalized Spec SqliteFacts PyFacts NormalizedFacts
  OrphanFacts NormalizedStoreSpec.

Lemma filter_app_none {A : Type} (P : A → Prop) `{!∀ x, Decision (P x)}
    (l new : list A) :
  Forall (λ x, ¬ P x) new → filter P (l ++ new)%list = filter P l.
Proof.
  intros Hnew. rewrite filter_app, (McpAnalyzeFacts.filter_none P new Hnew).
  apply app_nil_r.
Qed.

Lemma filter_app_all {A : Type} (P : A → Prop) `{!∀ x, Decision (P x)}
    (l new : list A) :
  Forall (λ x, ¬ P x) l → Forall P new → filter P (l ++ new)%list = new.
Proof.
  intros Hl Hnew.
  by rewrite filter_app, (McpAnalyzeFacts.filter_none P l Hl),
    (filter_all P new Hnew).
Qed.

(** The loop over the columns of a table appends their rows, each with
    the rowid of the table. *)
Lemma store_columns_spec (tid : Z) (cs : list model_column) (db : database) :
  let db' := foldl (store_column tid) db cs in
  projects db' = projects db ∧ tables db' = tables db ∧
  measures db' = measures db ∧ relationships db' = relationships db ∧
  power_queries db' = power_queries db ∧
  ∃ new, rows (columns db') = (rows (columns db) ++ new)%list ∧
         Forall (λ c, column_table_id c = tid) new ∧
         column_content <$> new =
           (λ c, (mc_name c, mc_data_type c, mc_is_calculated c)) <$> cs.
Proof.
  revert db. induction cs as [| c cs IH]; intros db; simpl.
  - repeat split. exists []. by rewrite app_nil_r.
  - destruct (IH (store_column tid db c))
      as (Hp & Ht & Hm & Hr & Hq & new & Hrows & Hall & Hcontent).
    rewrite Hp, Ht, Hm, Hr, Hq. repeat split.
    eexists (_ :: new). rewrite Hrows. split; [| split].
    + simpl. by rewrite <- app_assoc.
    + by constructor.
    + by rewrite !fmap_cons, Hcontent.
Qed.

Lemma store_measures_spec (j : Z) (t : model_table)
    (ms : list model_measure) (db : database) :
  let db' := foldl (store_measure j t) db ms in
  projects db' = projects db ∧ tables db' = tables db ∧
  columns db' = columns db ∧ relationships db' = relationships db ∧
  power_queries db' = power_queries db ∧
  ∃ new, rows (measures db') = (rows (measures db) ++ new)%list ∧
         Forall (λ m, measure_project_id m = j) new ∧
         measure_content <$> new =
           (λ m, (mt_name t, mm_name m, mm_expression m)) <$> ms.
Proof.
  revert db. induction ms as [| m ms IH]; intros db; simpl.
  - repeat split. exists []. by rewrite app_nil_r.
  - destruct (IH (store_measure j t db m))
      as (Hp & Ht & Hc & Hr & Hq & new & Hrows & Hall & Hcontent).
    rewrite Hp, Ht, Hc, Hr, Hq. repeat split.
    eexists (_ :: new). rewrite Hrows. split; [| split].
    + simpl. by rewrite <- app_assoc.
    + by constructor.
    + by rewrite !fmap_cons, Hcontent.
Qed.

Lemma store_relationships_spec (j : Z) (rs : list model_relationship)
    (db : database) :
  let db' := foldl (store_relationship j) db rs in
  projects db' = projects db ∧ tables db' = tables db ∧
  columns db' = columns db ∧ measures db' = measures db ∧
  power_queries db' = power_queries db ∧
  ∃ new, rows (relationships db') = (rows (relationships db) ++ new)%list ∧
         Forall (λ r, relationship_project_id r = j) new ∧
         relationship_content <$> new =
           (λ r, (mr_from_table r, mr_from_column r, mr_to_table r,
                  mr_to_column r, mr_cardinality r)) <$> rs.
Proof.
  revert db. induction rs as [| r rs IH]; intros db; simpl.
  - repeat split. exists []. by rewrite app_nil_r.
  - destruct (IH (store_relationship j db r))
      as (Hp & Ht & Hc & Hm & Hq & new & Hrows & Hall & Hcontent).
    rewrite Hp, Ht, Hc, Hm, Hq. repeat split.
    eexists (_ :: new). rewrite Hrows. split; [| split].
    + simpl. by rewrite <- app_assoc.
    + by constructor.
    + by rewrite !fmap_cons, Hcontent.
Qed.

Lemma store_queries_spec (j : Z) (qs : list model_query) (db : database) :
  let db' := foldl (store_query j) db qs in
  projects db' = projects db ∧ tables db' = tables db ∧
  columns db' = columns db ∧ measures db' = measures db ∧
  relationships db' = relationships db ∧
  ∃ new, rows (power_queries db') = (rows (power_queries db) ++ new)%list ∧
         Forall (λ q, query_project_id q = j) new ∧
         query_content <$> new =
           (λ q, (mq_name q, mq_expression q)) <$> qs.
Proof.
  revert db. induction qs as [| q qs IH]; intros db; simpl.
  - repeat split. exists []. by rewrite app_nil_r.
  - destruct (IH (store_query j db q))
      as (Hp & Ht & Hc & Hm & Hr & new & Hrows & Hall & Hcontent).
    rewrite Hp, Ht, Hc, Hm, Hr. repeat split.
    eexists (_ :: new). rewrite Hrows. split; [| split].
    + simpl. by rewrite <- app_assoc.
    + by constructor.
    + by rewrite !fmap_cons, Hcontent.
Qed.

(** One table of the model: its row, its columns and its measures are
    appended. *)
Lemma store_table_spec (j : Z) (db : database) (t : model_table) :
  let tid := next_rowid table_id (tables db) in
  let db' := store_table j db t in
  projects db' = projects db ∧ relationships db' = relationships db ∧
  power_queries db' = power_queries db ∧
  rows (tables db') =
    (rows (tables db) ++
     [{| table_id := tid; table_project_id := j; table_name := mt_name t;
         row_count := mt_row_count t;
         column_count := Z.of_nat (length (mt_columns t)) |}])%list ∧
  seq (tables db') = tid ∧
  (∃ new, rows (columns db') = (rows (columns db) ++ new)%list ∧
          Forall (λ c, column_table_id c = tid) new ∧
          column_content <$> new = model_columns_view t) ∧
  (∃ new, rows (measures db') = (rows (measures db) ++ new)%list ∧
          Forall (λ m, measure_project_id m = j) new ∧
          measure_content <$> new = model_table_measures t).
Proof.
  intros tid db'. subst db'. unfold store_table.
  simpl.
  set (db1 := with_tables _ db).
  destruct (store_columns_spec tid (mt_columns t) db1)
    as (Hp1 & Ht1 & Hm1 & Hr1 & Hq1 & newc & Hc1 & Hallc & Hcc).
  destruct (store_measures_spec j t (mt_measures t)
              (foldl (store_column tid) db1 (mt_columns t)))
    as (Hp2 & Ht2 & Hc2 & Hr2 & Hq2 & newm & Hm2 & Hallm & Hmc).
  fold tid. rewrite Hp2, Ht2, Hc2, Hr2, Hq2, Hp1, Ht1, Hr1, Hq1.
  repeat split; try done.
  - by exists newc.
  - exists newm. rewrite Hm2, Hm1. done.
Qed.

End NormalizedStoreFacts.

Module NormalizedReadFacts.
Import Py Sqlite Host Normalized Spec SqliteFacts PyFacts NormalizedFacts
  OrphanFacts NormalizedStoreSpec NormalizedStoreFacts.

Lemma stored_tables_frame (i : Z) (db db' : database) :
  tables db' = tables db → columns db' = columns db →
  stored_tables i db' = stored_tables i db.
Proof. unfold stored_tables, stored_columns. by intros -> ->. Qed.

Lemma stored_measures_frame (i : Z) (db db' : database) :
  measures db' = measures db → stored_measures i db' = stored_measures i db.
Proof. unfold stored_measures. by intros ->. Qed.

Lemma stored_relationships_frame (i : Z) (db db' : database) :
  relationships db' = relationships db →
  stored_relationships i db' = stored_relationships i db.
Proof. unfold stored_relationships. by intros ->. Qed.

Lemma stored_queries_frame (i : Z) (db db' : database) :
  power_queries db' = power_queries db →
  stored_queries i db' = stored_queries i db.
Proof. unfold stored_queries. by intros ->. Qed.

(** What is read back after one table of the model was stored under
    project id [j]. *)
Lemma store_table_read (j : Z) (db : database) (t : model_table) :
  tables_issued db →
  let db' := store_table j db t in
  tables_issued db' ∧
  projects db' = projects db ∧ relationships db' = relationships db ∧
  power_queries db' = power_queries db ∧
  (∀ i, stored_tables i db' =
        (stored_tables i db ++
         if decide (i = j) then [model_table_view t] else [])%list) ∧
  (∀ i, stored_measures i db' =
        (stored_measures i db ++
         if decide (i = j) then model_table_measures t else [])%list).
Proof.
  intros [Hti Hci] db'. subst db'.
  destruct (store_table_spec j db t)
    as (Hp & Hr & Hq & Ht & Hseq & (newc & Hc & Hallc & Hcc)
        & (newm & Hm & Hallm & Hmc)).
  pose proof (next_rowid_above_seq table_id (tables db)) as Hfresh.
  set (tid := next_rowid table_id (tables db)) in *.
  unfold rowids_issued in Hti.
  split; [| split; [done | split; [done | split; [done | split]]]].
  - split.
    + unfold rowids_issued. rewrite Ht, Hseq. apply Forall_app. split.
      * eapply Forall_impl; [exact Hti |]. simpl. lia.
      * repeat constructor. simpl. lia.
    + rewrite Hc, Hseq. apply Forall_app. split.
      * eapply Forall_impl; [exact Hci |]. simpl. lia.
      * eapply Forall_impl; [exact Hallc |]. simpl. lia.
  - intros i. unfold stored_tables. rewrite Ht, filter_app, fmap_app. f_equal.
    + apply Forall_fmap_ext_1, Forall_forall. intros t0 Ht0.
      apply list_elem_of_filter in Ht0 as [_ Ht0].
      rewrite Forall_forall in Hti. specialize (Hti t0 Ht0).
      f_equal. unfold stored_columns. rewrite Hc.
      rewrite filter_app_none; [done |].
      eapply Forall_impl; [exact Hallc |]. simpl. lia.
    + destruct (decide (i = j)) as [-> | Hne].
      * rewrite filter_cons_True by done. rewrite filter_nil. simpl.
        unfold model_table_view. do 2 f_equal.
        unfold stored_columns. rewrite Hc, <- Hcc. f_equal.
        rewrite filter_app_all; [done | | done].
        eapply Forall_impl; [exact Hci |]. simpl. lia.
      * rewrite filter_cons_False by (simpl; congruence). done.
  - intros i. unfold stored_measures. rewrite Hm, filter_app, fmap_app.
    f_equal. destruct (decide (i = j)) as [-> | Hne].
    + by rewrite (filter_all _ newm Hallm).
    + rewrite McpAnalyzeFacts.filter_none; [done |].
      eapply Forall_impl; [exact Hallm |]. simpl. congruence.
Qed.

Lemma store_tables_read (j : Z) (ts : list model_table) (db : database) :
  tables_issued db →
  let db' := foldl (store_table j) db ts in
  tables_issued db' ∧
  projects db' = projects db ∧ relationships db' = relationships db ∧
  power_queries db' = power_queries db ∧
  (∀ i, stored_tables i db' =
        (stored_tables i db ++
         if decide (i = j) then model_table_view <$> ts else [])%list) ∧
  (∀ i, stored_measures i db' =
        (stored_measures i db ++
         if decide (i = j) then ts ≫= model_table_measures else [])%list).
Proof.
  revert db. induction ts as [| t ts IH]; intros db Hok; cbn [foldl].
  - do 4 (split; [done |]).
    split; intros i; destruct (decide (i = j)); by rewrite app_nil_r.
  - destruct (store_table_read j db t Hok)
      as (Hok1 & Hp1 & Hr1 & Hq1 & Ht1 & Hm1).
    destruct (IH (store_table j db t) Hok1)
      as (Hok2 & Hp2 & Hr2 & Hq2 & Ht2 & Hm2).
    rewrite Hp2, Hr2, Hq2. do 4 (split; [done |]). split.
    + intros i. rewrite Ht2, Ht1, <- app_assoc.
      destruct (decide (i = j)); [done | by rewrite !app_nil_r].
    + intros i. rewrite Hm2, Hm1, <- app_assoc.
      destruct (decide (i = j)); [by rewrite bind_cons | by rewrite !app_nil_r].
Qed.

(** The child rows stored for a project id above [top] are none. *)
Lemma references_le_none (top j : Z) (db : database) :
  references_le top db → top < j →
  stored_tables j db = [] ∧ stored_measures j db = [] ∧
  stored_relationships j db = [] ∧ stored_queries j db = [].
Proof.
  intros (Ht & Hm & Hr & Hq) Hj.
  unfold stored_tables, stored_measures, stored_relationships, stored_queries.
  rewrite !McpAnalyzeFacts.filter_none; [done | | | |].
  - eapply Forall_impl; [exact Hq |]. simpl. lia.
  - eapply Forall_impl; [exact Hr |]. simpl. lia.
  - eapply Forall_impl; [exact Hm |]. simpl. lia.
  - eapply Forall_impl; [exact Ht |]. simpl. lia.
Qed.

(** The DELETEs for a project id above the ids the child rows refer to
    change nothing. *)
Lemma clear_project_data_none (top j : Z) (db : database) :
  references_le top db → top < j → clear_project_data j db = db.
Proof.
  intros (Ht & Hm & Hr & Hq) Hj. unfold clear_project_data.
  destruct db as [ps ts cs ms rs qs]. simpl in *.
  unfold with_tables, with_columns, with_measures, with_relationships,
    with_power_queries. simpl.
  rewrite (delete_where_none _ ts) by (eapply Forall_impl; [exact Ht |]; simpl; lia).
  rewrite (delete_where_none _ ms) by (eapply Forall_impl; [exact Hm |]; simpl; lia).
  rewrite (delete_where_none _ rs) by (eapply Forall_impl; [exact Hr |]; simpl; lia).
  rewrite (delete_where_none _ qs) by (eapply Forall_impl; [exact Hq |]; simpl; lia).
  rewrite (delete_where_none _ cs); [done |].
  apply Forall_forall. intros c _ Hin.
  apply list_elem_of_fmap in Hin as (t & _ & Hin).
  apply list_elem_of_filter in Hin as [Heq Hin].
  by apply list_elem_of_filter in Hin as [Hne _].
Qed.

End NormalizedReadFacts.

Module NormalizedReplaceFacts.
Import Py Sqlite Host Normalized Spec SqliteFacts PyFacts NormalizedFacts
  OrphanFacts NormalizedStoreSpec NormalizedStoreFacts NormalizedReadFacts
  NormalizedReplaceSpec.

Lemma references_le_mono (top top' : Z) (db : database) :
  references_le top db → top ≤ top' → references_le top' db.
Proof.
  intros (Ht & Hm & Hr & Hq) Hle.
  repeat split; (eapply Forall_impl; [eassumption |]); simpl; lia.
Qed.

Lemma store_table_refs (top j : Z) (db : database) (t : model_table) :
  j ≤ top → references_le top db → references_le top (store_table j db t).
Proof.
  intros Hj (Ht & Hm & Hr & Hq).
  destruct (store_table_spec j db t)
    as (_ & Hr' & Hq' & Ht' & _ & _ & (newm & Hm' & Hallm & _)).
  unfold references_le. rewrite Hr', Hq', Ht', Hm'.
  repeat split; try done.
  - apply Forall_app. split; [done |]. by repeat constructor.
  - apply Forall_app. split; [done |].
    eapply Forall_impl; [exact Hallm |]. simpl. lia.
Qed.

Lemma store_tables_refs (top j : Z) (ts : list model_table) (db : database) :
  j ≤ top → references_le top db →
  references_le top (foldl (store_table j) db ts).
Proof.
  intros Hj. revert db. induction ts as [| t ts IH]; intros db Hdb;
    cbn [foldl]; [done |].
  by apply IH, store_table_refs.
Qed.

(** What [replace_project] leaves in the store. *)
Lemma replace_project_read (n : string) (f : pbix_file) (now : Z)
    (model : pbix_model) (existing : option (Z * string)) (db : database) :
  references_issued db → tables_issued db →
  let j := next_rowid id (projects db) in
  let db' := fst (replace_project n f now model existing db) in
  rows (projects db') =
    (filter (λ p, name p ≠ n) (rows (projects db)) ++
     [project_row j n f now model])%list ∧
  seq (projects db') = j ∧
  tables_issued db' ∧
  references_le j db' ∧
  (∀ i, stored_tables i db' =
        (stored_tables i db ++
         if decide (i = j) then model_tables_view model else [])%list) ∧
  (∀ i, stored_measures i db' =
        (stored_measures i db ++
         if decide (i = j) then model_measures_view model else [])%list) ∧
  (∀ i, stored_relationships i db' =
        (stored_relationships i db ++
         if decide (i = j) then model_relationships_view model else [])%list) ∧
  (∀ i, stored_queries i db' =
        (stored_queries i db ++
         if decide (i = j) then model_queries_view model else [])%list).
Proof.
  intros Hrefs Htabs j db'. subst db'.
  pose proof (next_rowid_above_seq id (projects db)) as Hfresh. fold j in Hfresh.
  unfold replace_project, insert_project, insert_or_replace.
  rewrite lastrowid_or_next. fold j. cbn [fst].
  set (db1 := with_projects _ db).
  assert (Hrefs1 : references_le (seq (projects db)) db1) by exact Hrefs.
  rewrite (clear_project_data_none (seq (projects db)) j db1 Hrefs1 Hfresh).
  assert (Htabs1 : tables_issued db1) by exact Htabs.
  destruct (store_tables_read j (model_tables model) db1 Htabs1)
    as (Htabs3 & Hp3 & Hr3 & Hq3 & Ht3 & Hm3).
  pose proof (store_tables_refs j j (model_tables model) db1 (Z.le_refl j)
                (references_le_mono _ j _ Hrefs1 (Z.lt_le_incl _ _ Hfresh)))
    as Hrefs3.
  set (db3 := foldl (store_table j) db1 (model_tables model)) in *.
  destruct (store_relationships_spec j (model_relationships model) db3)
    as (Hp4 & Ht4 & Hc4 & Hm4 & Hq4 & newr & Hr4 & Hallr & Hrc).
  set (db4 := foldl (store_relationship j) db3 (model_relationships model))
    in *.
  destruct (store_queries_spec j (model_queries model) db4)
    as (Hp5 & Ht5 & Hc5 & Hm5 & Hr5 & newq & Hq5 & Hallq & Hqc).
  set (db5 := foldl (store_query j) db4 (model_queries model)) in *.
  split; [by rewrite Hp5, Hp4, Hp3 |].
  split; [by rewrite Hp5, Hp4, Hp3 |].
  split; [| split; [| split; [| split; [| split]]]].
  - destruct Htabs3 as [H1 H2]. split.
    + unfold rowids_issued. by rewrite Ht5, Ht4.
    + by rewrite Hc5, Hc4, Ht5, Ht4.
  - destruct Hrefs3 as (H1 & H2 & H3 & H4). unfold references_le.
    rewrite Ht5, Ht4, Hm5, Hm4, Hr5, Hr4, Hq5, Hq4.
    repeat split; try done.
    + apply Forall_app. split; [done |].
      eapply Forall_impl; [exact Hallr |]. simpl. lia.
    + apply Forall_app. split; [done |].
      eapply Forall_impl; [exact Hallq |]. simpl. lia.
  - intros i.
    rewrite (stored_tables_frame i db4 db5 Ht5 Hc5),
      (stored_tables_frame i db3 db4 Ht4 Hc4), Ht3.
    done.
  - intros i.
    rewrite (stored_measures_frame i db4 db5 Hm5),
      (stored_measures_frame i db3 db4 Hm4), Hm3.
    done.
  - intros i. rewrite (stored_relationships_frame i db4 db5 Hr5).
    unfold stored_relationships. rewrite Hr4, Hr3, filter_app, fmap_app.
    f_equal. destruct (decide (i = j)) as [-> | Hne].
    + by rewrite (filter_all _ newr Hallr).
    + rewrite McpAnalyzeFacts.filter_none; [done |].
      eapply Forall_impl; [exact Hallr |]. simpl. congruence.
  - intros i. unfold stored_queries. rewrite Hq5, Hq4, Hq3, filter_app, fmap_app.
    f_equal. destruct (decide (i = j)) as [-> | Hne].
    + by rewrite (filter_all _ newq Hallq).
    + rewrite McpAnalyzeFacts.filter_none; [done |].
      eapply Forall_impl; [exact Hallq |]. simpl. congruence.
Qed.

End NormalizedReplaceFacts.

Module NormalizedAnalyzeFacts.
Import Py Sqlite Host Normalized Spec SqliteFacts PyFacts NormalizedFacts
  OrphanFacts NormalizedStoreSpec NormalizedStoreFacts NormalizedReadFacts
  NormalizedReplaceSpec NormalizedReplaceFacts.

(** An analysis that does not find the file unchanged runs the
    replacement. *)
Lemma analyze_replaces (model : pbix_model) (f : pbix_file)
    (project_name : option string) (now : Z) (db : database) :
  let n := default (stem f) project_name in
  (∀ i, select_by_name n db ≠ Some (i, content_hash f)) →
  analyze_pbix_file true (Some model) f project_name now db =
    replace_project n f now model (select_by_name n db) db.
Proof.
  intros n Hnew. unfold analyze_pbix_file. simpl. fold n.
  destruct (select_by_name n db) as [[i h] |] eqn:Hsel; [| done].
  destruct (String.eqb_spec h (content_hash f)) as [-> | Hne]; [| done].
  by destruct (Hnew i).
Qed.

Lemma select_after_replace (n : string) (f : pbix_file) (now : Z)
    (model : pbix_model) (existing : option (Z * string)) (db : database) :
  select_by_name n (fst (replace_project n f now model existing db)) =
    Some (next_rowid id (projects db), content_hash f) ∧
  filter (λ p, name p = n)
         (rows (projects (fst (replace_project n f now model existing db))))
    = [project_row (next_rowid id (projects db)) n f now model].
Proof.
  unfold select_by_name, replace_project, insert_project, insert_or_replace.
  rewrite lastrowid_or_next. cbn [fst].
  rewrite !projects_foldl by (done || (intros; apply store_table_projects)).
  assert (Hclear : ∀ i d, projects (clear_project_data i d) = projects d)
    by done.
  rewrite Hclear. cbn [projects with_projects rows].
  rewrite filter_app, McpAnalyzeFacts.filter_none.
  - by rewrite filter_cons_True by done.
  - apply Forall_forall. intros p Hp.
    by apply list_elem_of_filter in Hp as [? _].
Qed.

Lemma measures_view_length (ts : list model_table) :
  length (ts ≫= model_table_measures) = length (concat (map mt_measures ts)).
Proof.
  induction ts as [| t ts IH]; [done |].
  rewrite bind_cons. simpl. rewrite !length_app, IH.
  unfold model_table_measures. by rewrite length_fmap.
Qed.

Lemma normalized_ok_init : normalized_ok init_database.
Proof. repeat split; constructor. Qed.

Lemma normalized_ok_replace (n : string) (f : pbix_file) (now : Z)
    (model : pbix_model) (existing : option (Z * string)) (db : database) :
  normalized_ok db →
  normalized_ok (fst (replace_project n f now model existing db)).
Proof.
  intros (Hnames & Hids & Hissued & Hrefs & Htabs & Hcounts).
  destruct (replace_project_read n f now model existing db Hrefs Htabs)
    as (Hrows & Hseq & Htabs' & Hrefs' & Ht & Hm & _ & _).
  pose proof (next_rowid_above_seq id (projects db)) as Hfresh.
  set (j := next_rowid id (projects db)) in *.
  set (db' := fst (replace_project n f now model existing db)) in *.
  unfold rowids_issued in Hissued. rewrite Forall_forall in Hissued.
  split; [| split; [| split; [| split; [| split]]]].
  - rewrite Hrows, fmap_app. apply NoDup_app. split; [| split].
    + eapply sublist_NoDup; [exact Hnames |].
      apply fmap_sublist, sublist_filter.
    + intros x Hin Hnew. apply list_elem_of_singleton in Hnew as ->.
      apply list_elem_of_fmap in Hin as (p & Hp & Hin).
      by apply list_elem_of_filter in Hin as [Hne _].
    + apply NoDup_singleton.
  - rewrite Hrows, fmap_app. apply NoDup_app. split; [| split].
    + eapply sublist_NoDup; [exact Hids |].
      apply fmap_sublist, sublist_filter.
    + intros x Hin Hnew. apply list_elem_of_singleton in Hnew as ->.
      apply list_elem_of_fmap in Hin as (p & Hp & Hin).
      apply list_elem_of_filter in Hin as [_ Hin].
      specialize (Hissued p Hin). simpl in Hp. lia.
    + apply NoDup_singleton.
  - unfold rowids_issued. rewrite Hrows, Hseq. apply Forall_app. split.
    + apply Forall_forall. intros p Hp.
      apply list_elem_of_filter in Hp as [_ Hp]. specialize (Hissued p Hp). lia.
    + repeat constructor. simpl. lia.
  - unfold references_issued. rewrite Hseq. exact Hrefs'.
  - done.
  - unfold counts_agree. rewrite Hrows. apply Forall_app. split.
    + unfold counts_agree in Hcounts. rewrite Forall_forall in Hcounts.
      apply Forall_forall. intros p Hp.
      apply list_elem_of_filter in Hp as [_ Hp].
      specialize (Hissued p Hp). rewrite Ht, Hm.
      rewrite !decide_False by lia. rewrite !app_nil_r. by apply Hcounts.
    + repeat constructor; simpl; rewrite ?Ht, ?Hm, !decide_True by done.
      * destruct (references_le_none (seq (projects db)) j db Hrefs Hfresh)
          as (-> & _). simpl. unfold model_tables_view.
        by rewrite length_fmap.
      * destruct (references_le_none (seq (projects db)) j db Hrefs Hfresh)
          as (_ & -> & _). simpl. unfold model_measures_view.
        by rewrite measures_view_length.
Qed.

Lemma normalized_ok_analyze (available : bool) (loaded : option pbix_model)
    (f : pbix_file) (project_name : option string) (now : Z)
    (db : database) :
  normalized_ok db →
  normalized_ok (fst (analyze_pbix_file available loaded f project_name now
                        db)).
Proof.
  intros Hok. unfold analyze_pbix_file.
  destruct available; [| done]. destruct loaded as [model |]; [| done].
  simpl. destruct (select_by_name _ db) as [[i h] |].
  - destruct (String.eqb h (content_hash f)); [done |].
    by apply normalized_ok_replace.
  - by apply normalized_ok_replace.
Qed.

End NormalizedAnalyzeFacts.

Module NormalizedAnalyzeClaims.
Import Py Sqlite Host Normalized Spec SqliteFacts PyFacts NormalizedFacts
  OrphanFacts NormalizedStoreSpec NormalizedStoreFacts NormalizedReadFacts
  NormalizedReplaceSpec NormalizedReplaceFacts NormalizedAnalyzeFacts Fixtures.

(** X14.  What the normalized analyzer stores is the model.  When a new
    or changed file is analyzed on a well formed store, the call returns
    an id under which the store then holds exactly the tables of the
    model in their order, each with its row count, its column count and
    its columns, and the measures, relationships and queries of the
    model; the project row of the name is the new one, with the numbers
    of tables and of measures of the model; and what is stored under
    every other id is as before. *)
Theorem analysis_stores_the_model (model : pbix_model) (f : pbix_file)
    (project_name : option string) (now : Z) (db : database) :
  let n := default (stem f) project_name in
  let db' := fst (analyze_pbix_file true (Some model) f project_name now db) in
  normalized_ok db →
  (∀ i, select_by_name n db ≠ Some (i, content_hash f)) →
  ∃ j,
    snd (analyze_pbix_file true (Some model) f project_name now db) = Some j ∧
    filter (λ p, name p = n) (rows (projects db'))
      = [project_row j n f now model] ∧
    stored_tables j db' = model_tables_view model ∧
    stored_measures j db' = model_measures_view model ∧
    stored_relationships j db' = model_relationships_view model ∧
    stored_queries j db' = model_queries_view model ∧
    ∀ i, i ≠ j →
      stored_tables i db' = stored_tables i db ∧
      stored_measures i db' = stored_measures i db ∧
      stored_relationships i db' = stored_relationships i db ∧
      stored_queries i db' = stored_queries i db.
Proof.
  intros n db' (Hnames & Hids & Hissued & Hrefs & Htabs & Hcounts) Hnew.
  subst db'. rewrite (analyze_replaces model f project_name now db Hnew).
  fold n. exists (next_rowid id (projects db)).
  destruct (replace_project_read n f now model (select_by_name n db) db
              Hrefs Htabs) as (_ & _ & _ & _ & Ht & Hm & Hr & Hq).
  pose proof (next_rowid_above_seq id (projects db)) as Hfresh.
  destruct (references_le_none (seq (projects db))
              (next_rowid id (projects db)) db Hrefs Hfresh)
    as (Ht0 & Hm0 & Hr0 & Hq0).
  split; [apply replace_project_id |].
  split; [apply select_after_replace |].
  rewrite Ht, Hm, Hr, Hq, Ht0, Hm0, Hr0, Hq0, !decide_True by done.
  do 4 (split; [done |]).
  intros i Hi. rewrite Ht, Hm, Hr, Hq, !decide_False by done.
  by rewrite !app_nil_r.
Qed.

(** X15.  The normalized store stays well formed: on a fresh database and
    after every call of [analyze_pbix_file], whatever its arguments, no
    two project rows share a name or an id, no rowid and no reference is
    above its counter, and the table count and the measure count on every
    project row are the numbers of table rows and measure rows stored
    under its id. *)
Theorem normalized_store_stays_well_formed :
  normalized_ok init_database ∧
  ∀ (available : bool) (loaded : option pbix_model) (f : pbix_file)
    (project_name : option string) (now : Z) (db : database),
    normalized_ok db →
    normalized_ok (fst (analyze_pbix_file available loaded f project_name
                          now db)).
Proof. split; [apply normalized_ok_init | apply normalized_ok_analyze]. Qed.

(** X16.  An analysis of the normalized analyzer that returned an id has
    stored the file under the project name with that id and the hash of
    the file, so analyzing the same file again leaves the store as it is
    and returns the same id. *)
Theorem normalized_analysis_is_idempotent (available : bool)
    (loaded : option pbix_model) (model' : pbix_model) (f : pbix_file)
    (project_name : option string) (now now' : Z) (db : database) (j : Z) :
  snd (analyze_pbix_file available loaded f project_name now db) = Some j →
  let db' := fst (analyze_pbix_file available loaded f project_name now db) in
  select_by_name (default (stem f) project_name) db'
    = Some (j, content_hash f) ∧
  analyze_pbix_file true (Some model') f project_name now' db' = (db', Some j).
Proof.
  intros Hres db'.
  assert (Hsel : select_by_name (default (stem f) project_name) db'
                 = Some (j, content_hash f)).
  { subst db'. unfold analyze_pbix_file in *.
    destruct available; [| done]. destruct loaded as [model |]; [| done].
    simpl in *.
    destruct (select_by_name (default (stem f) project_name) db)
      as [[i h] |] eqn:Hsel.
    - destruct (String.eqb_spec h (content_hash f)) as [-> | Hne].
      + simpl in *. by simplify_eq.
      + rewrite replace_project_id in Hres. simplify_eq.
        apply select_after_replace.
    - rewrite replace_project_id in Hres. simplify_eq.
      apply select_after_replace. }
  split; [done |]. by rewrite (normalized_unchanged _ _ _ _ _ _ j).
Qed.

(** [Report] analyzed on an empty database: table Sales with its column
    Amount is read back under id 1. *)
Lemma analysis_stores_the_model_witness :
  normalized_ok init_database ∧
  stored_tables 1 normalized_v1
    = [("Sales", 10, 1, [("Amount", "Decimal", false)])].
Proof.
  split; [apply normalized_ok_init |].
  destruct (analysis_stores_the_model model_v1 report_v1 None 100
              init_database normalized_ok_init) as (j & Hj & _ & Ht & _).
  { intros i. vm_compute. discriminate. }
  vm_compute in Hj. injection Hj as <-. exact Ht.
Defined.

Lemma normalized_analysis_is_idempotent_witness :
  snd (analyze_pbix_file true (Some model_v1) report_v1 None 100
         init_database) = Some 1 ∧
  analyze_pbix_file true (Some model_v2) report_v1 None 200 normalized_v1
    = (normalized_v1, Some 1).
Proof.
  assert (Hres : snd (analyze_pbix_file true (Some model_v1) report_v1 None
                        100 init_database) = Some 1)
    by (vm_compute; reflexivity).
  split; [exact Hres |].
  apply (normalized_analysis_is_idempotent true (Some model_v1) model_v2
           report_v1 None 100 200 init_database 1 Hres).
Defined.

End NormalizedAnalyzeClaims.

(** ** The report on shared tables and the impact of a table *)

Module NormalizedReportFacts.
Import Py Sqlite Host Normalized Spec PyFacts NormalizedQueryFacts
  NormalizedSearchFacts.

Lemma tables_of_projects_elem (db : database) (tn pn : string) :
  (tn, pn) ∈ tables_of_projects db ↔
  ∃ p t, p ∈ rows (projects db) ∧ t ∈ rows (tables db) ∧
         id p = table_project_id t ∧ table_name t = tn ∧ name p = pn.
Proof.
  unfold tables_of_projects. rewrite list_elem_of_bind. split.
  - intros (t & Hin & Ht). apply list_elem_of_bind in Hin as (p & Hin & Hp).
    destruct (decide (table_project_id t = id p));
      [| by apply elem_of_nil in Hin].
    apply list_elem_of_singleton in Hin. simplify_eq. by exists p, t.
  - intros (p & t & Hp & Ht & Hid & <- & <-). exists t. split; [| done].
    apply list_elem_of_bind. exists p. split; [| done].
    rewrite decide_True by done. by apply list_elem_of_singleton.
Qed.

(** The projects the impact analysis lists for a table name are the
    owners the report counts for it. *)
Lemma using_table_owners (n : string) (db : database) :
  let found :=
    distinct (map (λ pt, name (fst pt))
                  (filter (λ pt, table_name (snd pt) = n)
                          (projects_with_tables db))) in
  NoDup found ∧
  pair_owners n (tables_of_projects db) = list_to_set found.
Proof.
  intros found. split; [apply NoDup_distinct |].
  apply set_eq. intros pn. unfold pair_owners, found.
  rewrite !elem_of_list_to_set, elem_of_distinct, !list_elem_of_fmap. split.
  - intros ([tn pn'] & -> & Hin). apply list_elem_of_filter in Hin as [Htn Hin].
    simpl in *. subst tn.
    apply tables_of_projects_elem in Hin as (p & t & Hp & Ht & Hid & Hn & <-).
    exists (p, t). split; [done |]. apply list_elem_of_filter. split; [done |].
    by apply projects_with_tables_elem.
  - intros ([p t] & -> & Hin). apply list_elem_of_filter in Hin as [Htn Hin].
    simpl in *. apply projects_with_tables_elem in Hin as (Hp & Ht & Hid).
    exists (n, name p). split; [done |]. apply list_elem_of_filter.
    split; [done |]. apply tables_of_projects_elem. by exists p, t.
Qed.

End NormalizedReportFacts.

Module NormalizedReportClaims.
Import Py Sqlite Host Normalized Spec PyFacts NormalizedQueryFacts
  NormalizedSearchFacts NormalizedReportFacts Fixtures.

(** X17.  In the normalized analyzer the report on shared tables and the
    impact of a table agree: the report has a row for a table name
    exactly when the impact analysis lists more than one project for it,
    and the row then carries the number of those projects and their
    names, joined by commas in some order. *)
Theorem shared_tables_agree_with_impact (n : string) (db : database) :
  n ≠ EmptyString →
  ∃ r found,
    analyze_impact (Some n) None None db = Ok r ∧
    projects_using_table r = Some found ∧
    NoDup found ∧
    ((∃ row, row ∈ get_shared_tables db ∧ entity_name row = n) ↔
     (1 < length found)%nat) ∧
    ∀ row, row ∈ get_shared_tables db → entity_name row = n →
      project_count row = length found ∧
      ∃ names, names ≡ₚ found ∧ shared_projects row = join "," names.
Proof.
  intros Hn. rewrite (analyze_impact_of_table n db Hn).
  eexists _, _. split; [done |]. split; [done |].
  destruct (using_table_owners n db) as [Hnd Hown].
  set (found := distinct _) in *.
  assert (Hsize : size (pair_owners n (tables_of_projects db)) = length found).
  { rewrite Hown. by apply size_list_to_set. }
  assert (Helems : elements (pair_owners n (tables_of_projects db)) ≡ₚ found).
  { rewrite Hown. by apply elements_list_to_set. }
  destruct (group_report_spec (tables_of_projects db))
    as (_ & _ & Hhas & Hrow).
  split; [done |]. split.
  - split.
    + intros (row & Hin & <-). destruct (Hrow row Hin) as (Hgt & _).
      by rewrite <- Hsize.
    + intros Hgt. apply Hhas. by rewrite Hsize.
  - intros row Hin <-. destruct (Hrow row Hin) as (_ & Hcount & names & Hperm & Hjoin).
    split; [by rewrite Hcount |]. exists names. split; [| done].
    by rewrite Hperm.
Qed.

(** Table Sales of the three projects: the impact analysis lists A and
    B, and the report counts 2. *)
Lemma shared_tables_agree_with_impact_witness :
  "Sales" ≠ EmptyString ∧
  ∃ r, analyze_impact (Some "Sales") None None normalized_three = Ok r ∧
       projects_using_table r = Some ["A"; "B"] ∧
       project_count <$> get_shared_tables normalized_three = [2%nat].
Proof.
  split; [discriminate |].
  destruct (shared_tables_agree_with_impact "Sales" normalized_three)
    as (r & found & Hr & Hfound & _); [discriminate |].
  exists r. split; [exact Hr |].
  vm_compute in Hr. injection Hr as <-. split; vm_compute; reflexivity.
Defined.

End NormalizedReportClaims.

(** ** The dependency network *)

Module SplitFacts.
Import Py PyFacts PyText NetworkSpec.

Lemma split_comma_free (s : string) :
  comma_free s → split "," s = [s].
Proof.
  unfold comma_free. induction s as [| c s IH]; intros Hs; [done |].
  simpl in Hs. apply Forall_cons in Hs as [Hc Hs].
  cbn [split]. apply Ascii.eqb_neq in Hc as ->. by rewrite IH.
Qed.

Lemma split_app_comma (s t : string) :
  comma_free s →
  split "," (s ++ "," ++ t) = s :: split "," t.
Proof.
  unfold comma_free. induction s as [| c s IH]; intros Hs.
  - by rewrite app_empty.
  - simpl in Hs. apply Forall_cons in Hs as [Hc Hs].
    rewrite app_cons. cbn [split]. apply Ascii.eqb_neq in Hc as ->.
    by rewrite IH.
Qed.

(** Splitting at the commas gives back the names that were joined, when
    no name has a comma. *)
Lemma split_join (l : list string) :
  l ≠ [] → Forall comma_free l → split "," (join "," l) = l.
Proof.
  induction l as [| x l IH]; intros Hne Hl; [done |].
  apply Forall_cons in Hl as [Hx Hl]. destruct l as [| y l].
  - by apply split_comma_free.
  - change (join "," (x :: y :: l)) with (x ++ "," ++ join "," (y :: l))%string.
    rewrite split_app_comma by done. by rewrite IH.
Qed.

End SplitFacts.

Module NetworkFacts.
Import Py Sqlite Host Normalized PyText Network NetworkSpec.

Lemma eqb_sym (s t : string) : String.eqb s t = String.eqb t s.
Proof.
  destruct (String.eqb_spec s t) as [-> | Hne].
  - by rewrite String.eqb_refl.
  - symmetry. apply String.eqb_neq. congruence.
Qed.

Lemma same_pair_sym (a b x y : string) : same_pair a b x y = same_pair x y a b.
Proof.
  unfold same_pair. rewrite (eqb_sym x a), (eqb_sym y b), (eqb_sym x b),
    (eqb_sym y a).
  destruct (String.eqb a x), (String.eqb b y), (String.eqb b x),
    (String.eqb a y); done.
Qed.

Lemma same_pair_swap (a b x y : string) : same_pair a b x y = same_pair b a x y.
Proof. unfold same_pair. apply orb_comm. Qed.

Lemma same_pair_spec (a b x y : string) :
  same_pair a b x y = true ↔ (x = a ∧ y = b) ∨ (x = b ∧ y = a).
Proof.
  unfold same_pair. rewrite orb_true_iff, !andb_true_iff, !String.eqb_eq.
  done.
Qed.

(** An edge joins the two ends of one pair only. *)
Lemma joins_same (a b x y : string) (e : edge) :
  same_pair a b x y = true → joins x y e = joins a b e.
Proof.
  unfold joins. intros [[-> ->] | [-> ->]]%same_pair_spec; [done |].
  apply same_pair_swap.
Qed.

Lemma joins_other (a b x y : string) (e : edge) :
  same_pair a b x y = false → joins a b e = true → joins x y e = false.
Proof.
  unfold joins. intros Hne [[Hu Hv] | [Hu Hv]]%same_pair_spec.
  - rewrite Hu, Hv. by rewrite same_pair_sym.
  - rewrite Hu, Hv. by rewrite same_pair_sym, same_pair_swap.
Qed.

Lemma find_map (p : edge → bool) (f : edge → edge) (l : list edge) :
  (∀ e, p (f e) = p e) →
  List.find p (map f l) = f <$> List.find p l.
Proof.
  intros Hp. induction l as [| e l IH]; [done |].
  simpl. rewrite Hp. by destruct (p e).
Qed.

Lemma find_ext (p q : edge → bool) (l : list edge) :
  (∀ e, p e = q e) → List.find p l = List.find q l.
Proof.
  intros Hpq. induction l as [| e l IH]; [done |]. simpl.
  by rewrite Hpq, IH.
Qed.

Lemma find_app_l (p : edge → bool) (l1 l2 : list edge) :
  List.find p (l1 ++ l2) =
    match List.find p l1 with
    | Some e => Some e
    | None => List.find p l2
    end.
Proof.
  induction l1 as [| e l1 IH]; [done |]. simpl. by destruct (p e).
Qed.

Lemma find_existsb (p : edge → bool) (l : list edge) :
  existsb p l = match List.find p l with Some _ => true | None => false end.
Proof.
  induction l as [| e l IH]; [done |]. simpl. by destruct (p e).
Qed.

Lemma weight_of_nodes (a b : string) (G : graph) (ns : list string) :
  edges G = [] → weight_of a b {| nodes := ns; edges := edges G |} = 0.
Proof. intros HG. unfold weight_of. simpl. by rewrite HG. Qed.

Lemma add_node_edges (n : string) (G : graph) :
  edges (add_node n G) = edges G.
Proof. unfold add_node. by destruct (decide _). Qed.

Lemma add_edge_new (a b t : string) (G : graph) :
  has_edge a b G = false →
  edges (add_edge a b t G) =
    (edges G ++ [{| edge_u := a; edge_v := b; weight := 1;
                    shared_tables := [t] |}])%list.
Proof.
  intros Hnone. unfold add_edge. cbv zeta.
  assert (has_edge a b (add_node b (add_node a G)) = has_edge a b G) as ->
    by (unfold has_edge; by rewrite !add_node_edges).
  rewrite Hnone. cbn [edges]. by rewrite !add_node_edges.
Qed.

(** One pair of the loop adds 1 to the weight between its two ends and
    leaves the other weights. *)
Lemma link_weight (a b t : string) (G : graph) (pair : string * string) :
  weight_of a b (link t G pair) =
    weight_of a b G + (if same_pair a b pair.1 pair.2 then 1 else 0).
Proof.
  destruct pair as [x y]. unfold link, weight_of. cbn [fst snd].
  destruct (has_edge x y G) eqn:Hhas.
  - unfold add_weight. cbn [edges]. rewrite find_map
      by (intros e'; by destruct (joins x y e')).
    destruct (same_pair a b x y) eqn:Hsame.
    + unfold has_edge in Hhas. rewrite find_existsb in Hhas.
      rewrite (find_ext (joins x y) (joins a b)) in Hhas
        by (intros e; by apply joins_same).
      destruct (List.find (joins a b) (edges G)) as [e |] eqn:Hfind;
        [| done].
      simpl. apply List.find_some in Hfind as [_ He].
      by rewrite (joins_same a b x y e Hsame), He.
    + destruct (List.find (joins a b) (edges G)) as [e |] eqn:Hfind;
        simpl; [| lia].
      apply List.find_some in Hfind as [_ He].
      rewrite (joins_other a b x y e Hsame He). lia.
  - rewrite (add_edge_new x y t G Hhas), find_app_l.
    unfold has_edge in Hhas. rewrite find_existsb in Hhas.
    destruct (same_pair a b x y) eqn:Hsame.
    + rewrite (find_ext (joins x y) (joins a b)) in Hhas
        by (intros e; by apply joins_same).
      destruct (List.find (joins a b) (edges G)) as [e |]; [done |].
      simpl. unfold joins. simpl. by rewrite Hsame.
    + destruct (List.find (joins a b) (edges G)) as [e |]; [lia |].
      simpl. unfold joins. simpl. rewrite Hsame. lia.
Qed.

Lemma links_weight (a b t : string) (ps : list (string * string))
    (G : graph) :
  weight_of a b (foldl (link t) G ps) =
    weight_of a b G +
    Z.of_nat (length (filter (λ p, same_pair a b p.1 p.2 = true) ps)).
Proof.
  revert G. induction ps as [| p ps IH]; intros G; cbn [foldl].
  - simpl. lia.
  - rewrite IH, link_weight, filter_cons.
    destruct (same_pair a b p.1 p.2) eqn:Hp.
    + rewrite decide_True by done. simpl length. lia.
    + rewrite decide_False by done. lia.
Qed.

Lemma add_shared_tables_weight (a b : string) (report : list shared_row)
    (G : graph) :
  weight_of a b (foldl add_shared_table G report) =
    weight_of a b G +
    Z.of_nat (length (filter (λ p, same_pair a b p.1 p.2 = true)
                             (linked_pairs report))).
Proof.
  revert G. induction report as [| row report IH]; intros G; cbn [foldl].
  - simpl. lia.
  - rewrite IH. unfold linked_pairs. rewrite bind_cons, filter_app, length_app.
    unfold add_shared_table.
    destruct (1 <? project_count row)%nat.
    + rewrite links_weight. lia.
    + simpl. lia.
Qed.

Lemma add_nodes_edges (ns : list project) (G : graph) :
  edges (foldl (λ G project, add_node (name project) G) G ns) = edges G.
Proof.
  revert G. induction ns as [| p ns IH]; intros G; cbn [foldl]; [done |].
  by rewrite IH, add_node_edges.
Qed.

(** The weight of an edge of the network is the number of pairs of the
    report that link its ends. *)
Lemma network_weight (a b : string) (db : database) :
  weight_of a b (create_dependency_network db) =
    Z.of_nat (length (filter (λ p, same_pair a b p.1 p.2 = true)
                             (linked_pairs (get_shared_tables db)))).
Proof.
  unfold create_dependency_network. rewrite add_shared_tables_weight.
  unfold weight_of at 1. by rewrite add_nodes_edges.
Qed.

Lemma link_edges_ok (t : string) (G : graph) (pair : string * string) :
  Forall edge_ok (edges G) → Forall edge_ok (edges (link t G pair)).
Proof.
  intros HG. destruct pair as [x y]. unfold link.
  destruct (has_edge x y G) eqn:Hhas.
  - unfold add_weight. cbn [edges]. apply Forall_fmap.
    eapply Forall_impl; [exact HG |]. intros e [Hl Hw]. simpl.
    destruct (joins x y e); split; simpl; try done. lia.
  - rewrite (add_edge_new x y t G Hhas). apply Forall_app.
    split; [done |]. by repeat constructor.
Qed.

Lemma network_edges_ok (db : database) :
  Forall edge_ok (edges (create_dependency_network db)).
Proof.
  unfold create_dependency_network.
  assert (Hstart : Forall edge_ok
            (edges (foldl (λ G project, add_node (name project) G) empty_graph
                          (get_all_projects db)))).
  { rewrite add_nodes_edges. constructor. }
  revert Hstart. generalize (foldl (λ G project, add_node (name project) G)
                               empty_graph (get_all_projects db)).
  induction (get_shared_tables db) as [| row report IH]; intros G HG;
    cbn [foldl]; [done |].
  apply IH. unfold add_shared_table. destruct (1 <? _)%nat; [| done].
  revert G HG. induction (pairs _) as [| p ps IHp]; intros G HG;
    cbn [foldl]; [done |].
  by apply IHp, link_edges_ok.
Qed.

End NetworkFacts.

Module NetworkCountFacts.
Import Py Sqlite Host Normalized Spec PyText Network NetworkSpec PyFacts
  NormalizedQueryFacts NormalizedReportFacts SplitFacts NetworkFacts.

(** The rows of the report, by the name of their group. *)
Lemma group_report_rows (pairs : list (string * string)) :
  group_report pairs ≡ₚ
    filter (λ r, (1 < project_count r)%nat)
      ((λ n, {| entity_name := n;
                project_count := length (group_names n pairs);
                shared_projects := join "," (group_names n pairs) |}) <$>
       distinct (pairs.*1)).
Proof. apply merge_sort_Permutation. Qed.

Lemma group_report_elem (pairs : list (string * string)) (row : shared_row) :
  row ∈ group_report pairs →
  (1 < length (group_names (entity_name row) pairs))%nat ∧
  project_count row = length (group_names (entity_name row) pairs) ∧
  shared_projects row = join "," (group_names (entity_name row) pairs).
Proof.
  rewrite group_report_rows. intros Hrow.
  apply list_elem_of_filter in Hrow as [Hcount Hrow].
  apply list_elem_of_fmap in Hrow as (n & -> & _). done.
Qed.

(** The projects of a group are names of stored projects. *)
Lemma group_names_projects (db : database) (n pn : string) :
  pn ∈ group_names n (tables_of_projects db) →
  pn ∈ name <$> rows (projects db).
Proof.
  unfold group_names. intros Hin. apply (proj1 (elem_of_distinct _ _)) in Hin.
  apply (list_elem_of_fmap_1 snd) in Hin as ([tn pn'] & -> & Hin).
  apply list_elem_of_filter in Hin as [_ Hin].
  apply tables_of_projects_elem in Hin as (p & t & Hp & _ & _ & _ & <-).
  cbn [snd]. by apply list_elem_of_fmap_2.
Qed.

Lemma group_names_comma_free (db : database) (n : string) :
  Forall (λ p, comma_free (name p)) (rows (projects db)) →
  Forall comma_free (group_names n (tables_of_projects db)).
Proof.
  intros Hfree. apply Forall_forall. intros pn Hpn.
  apply group_names_projects, list_elem_of_fmap in Hpn as (p & -> & Hp).
  rewrite Forall_forall in Hfree. by apply Hfree.
Qed.

(** Splitting the projects column of a row gives back the projects of
    its group. *)
Lemma split_projects (db : database) (row : shared_row) :
  Forall (λ p, comma_free (name p)) (rows (projects db)) →
  row ∈ get_shared_tables db →
  split "," (shared_projects row) =
    group_names (entity_name row) (tables_of_projects db).
Proof.
  intros Hfree Hrow. apply group_report_elem in Hrow as (Hlen & _ & ->).
  apply split_join; [| by apply group_names_comma_free].
  intros Hnil. rewrite Hnil in Hlen. simpl in Hlen. lia.
Qed.

Lemma count_eq (l : list string) (b : string) :
  NoDup l →
  length (filter (λ y, y = b) l) = if decide (b ∈ l) then 1%nat else 0%nat.
Proof.
  induction 1 as [| x l Hx Hnd IH]; [done |].
  rewrite filter_cons. destruct (decide (x = b)) as [-> | Hne].
  - simpl. rewrite IH, decide_False by done.
    by rewrite decide_True by left.
  - rewrite IH. destruct (decide (b ∈ l)) as [Hin | Hout].
    + by rewrite decide_True by by right.
    + rewrite decide_False; [done |]. rewrite elem_of_cons. naive_solver.
Qed.

Lemma count_pairs_with (a b x : string) (l : list string) :
  NoDup l →
  length (filter (λ p : string * string, same_pair a b p.1 p.2 = true)
                 (map (pair x) l)) =
    ((if decide (x = a ∧ b ∈ l) then 1 else 0) +
     (if decide (x = b ∧ a ∈ l ∧ a ≠ b) then 1 else 0))%nat.
Proof.
  induction 1 as [| y l Hy Hnd IH]; simpl map.
  - rewrite filter_nil. simpl.
    repeat case_decide; rewrite ?elem_of_nil in *; try done; naive_solver.
  - rewrite filter_cons. cbn [fst snd].
    destruct (decide (same_pair a b x y = true)) as [Hs | Hs].
    + simpl length. rewrite IH.
      apply same_pair_spec in Hs.
      repeat case_decide; rewrite ?elem_of_cons in *; try done;
        exfalso; naive_solver.
    + rewrite IH.
      assert (Hnot : ¬ ((x = a ∧ y = b) ∨ (x = b ∧ y = a)))
        by (by rewrite <- same_pair_spec).
      repeat case_decide; rewrite ?elem_of_cons in *; try done;
        exfalso; naive_solver.
Qed.

(** Among the pairs of a list without repetition, one links two
    different names when both are in the list, and none otherwise. *)
Lemma count_pairs (a b : string) (l : list string) :
  NoDup l → a ≠ b →
  length (filter (λ p : string * string, same_pair a b p.1 p.2 = true)
                 (pairs l)) =
    if decide (a ∈ l ∧ b ∈ l) then 1%nat else 0%nat.
Proof.
  intros Hnd Hab. induction Hnd as [| x l Hx Hnd IH]; cbn [pairs].
  - rewrite filter_nil.
    case_decide; rewrite ?elem_of_nil in *; try done; naive_solver.
  - rewrite filter_app, length_app, count_pairs_with, IH by done.
    repeat case_decide; rewrite ?elem_of_cons in *; try done;
      exfalso; naive_solver.
Qed.

Lemma pairs_elem (l : list string) (x y : string) :
  (x, y) ∈ pairs l → x ∈ l ∧ y ∈ l.
Proof.
  induction l as [| z l IH]; cbn [pairs]; [by intros ?%elem_of_nil |].
  rewrite elem_of_app, list_elem_of_fmap.
  intros [(y' & [= -> ->] & Hin) | Hin].
  - split; [left | by right].
  - destruct (IH Hin). split; by right.
Qed.

Lemma length_two (l : list string) (a b : string) :
  a ∈ l → b ∈ l → a ≠ b → (1 < length l)%nat.
Proof.
  destruct l as [| x [| y l]]; simpl; [by intros ?%elem_of_nil | | lia].
  intros ->%list_elem_of_singleton ->%list_elem_of_singleton. done.
Qed.

(** The pairs the rows of a report of groups link, counted by group. *)
Lemma count_linked (a b : string) (pairs_of : list (string * string))
    (ns : list string) :
  a ≠ b →
  (∀ n, Forall comma_free (group_names n pairs_of)) →
  length (filter (λ p : string * string, same_pair a b p.1 p.2 = true)
    (linked_pairs
       (filter (λ r, (1 < project_count r)%nat)
          ((λ n, {| entity_name := n;
                    project_count := length (group_names n pairs_of);
                    shared_projects := join "," (group_names n pairs_of) |})
           <$> ns)))) =
  length (filter (λ n, a ∈ group_names n pairs_of ∧
                       b ∈ group_names n pairs_of) ns).
Proof.
  intros Hab Hfree. induction ns as [| n ns IH]; [done |].
  rewrite fmap_cons, filter_cons. cbn [project_count].
  rewrite (filter_cons _ n).
  destruct (decide (1 < length (group_names n pairs_of))%nat) as [Hlen | Hlen].
  - unfold linked_pairs. rewrite bind_cons. fold (linked_pairs).
    cbn [project_count shared_projects].
    apply Nat.ltb_lt in Hlen as Hltb. rewrite Hltb.
    rewrite split_join; [| | done].
    + rewrite filter_app, length_app, count_pairs;
        [| apply NoDup_distinct | done].
      unfold linked_pairs in IH. rewrite IH.
      by destruct (decide (_ ∧ _)).
    + intros Hnil. rewrite Hnil in Hlen. simpl in Hlen. lia.
  - rewrite IH. rewrite decide_False; [done |].
    intros [Ha Hb]. apply Hlen. exact (length_two _ a b Ha Hb Hab).
Qed.

(** The projects of a group are those the join pairs with its name. *)
Lemma group_names_elem (n x : string) (pairs_of : list (string * string)) :
  x ∈ group_names n pairs_of ↔ (n, x) ∈ pairs_of.
Proof.
  unfold group_names. rewrite elem_of_distinct. split.
  - intros Hx. apply (list_elem_of_fmap_1 snd) in Hx as ([n' x'] & -> & Hx).
    apply list_elem_of_filter in Hx as [Hn Hx]. simpl in Hn. subst n'.
    exact Hx.
  - intros Hx. apply (list_elem_of_fmap_2' snd _ (n, x)); [| done].
    by apply list_elem_of_filter.
Qed.

(** The same count, read off the join of the tables with the
    projects. *)
Lemma count_groups (a b : string) (pairs_of : list (string * string))
    (ns : list string) :
  filter (λ n, a ∈ group_names n pairs_of ∧ b ∈ group_names n pairs_of) ns =
  filter (λ n, (n, a) ∈ pairs_of ∧ (n, b) ∈ pairs_of) ns.
Proof.
  apply list_filter_iff. intros n. by rewrite !group_names_elem.
Qed.

(** Adding the projects as nodes. *)
Lemma add_nodes_nodes (ps : list project) (G : graph) :
  NoDup (nodes G ++ (name <$> ps)) →
  nodes (foldl (λ G project, add_node (name project) G) G ps) =
    (nodes G ++ (name <$> ps))%list.
Proof.
  revert G. induction ps as [| p ps IH]; intros G Hnd; cbn [foldl].
  - by rewrite fmap_nil, app_nil_r.
  - rewrite fmap_cons in Hnd |- *.
    assert (Hout : name p ∉ nodes G).
    { apply NoDup_app in Hnd as (_ & Hdis & _). intros Hin.
      apply (Hdis _ Hin). left. }
    rewrite IH; unfold add_node; rewrite decide_False by done; cbn [nodes].
    + by rewrite <- app_assoc.
    + by rewrite <- app_assoc.
Qed.

Lemma add_node_known (n : string) (G : graph) :
  n ∈ nodes G → add_node n G = G.
Proof. intros Hin. unfold add_node. by rewrite decide_True. Qed.

Lemma link_nodes (t : string) (G : graph) (pair : string * string) :
  pair.1 ∈ nodes G → pair.2 ∈ nodes G → nodes (link t G pair) = nodes G.
Proof.
  destruct pair as [a b]. cbn [fst snd]. intros Ha Hb. unfold link.
  destruct (has_edge a b G); [done |].
  unfold add_edge. cbv zeta. rewrite (add_node_known a) by done.
  rewrite (add_node_known b) by done.
  by destruct (has_edge a b G).
Qed.

Lemma links_nodes (t : string) (ps : list (string * string)) (G : graph) :
  Forall (λ p, p.1 ∈ nodes G ∧ p.2 ∈ nodes G) ps →
  nodes (foldl (link t) G ps) = nodes G.
Proof.
  revert G. induction ps as [| p ps IH]; intros G Hps; cbn [foldl]; [done |].
  apply Forall_cons in Hps as [[Ha Hb] Hps].
  assert (Hsame : nodes (link t G p) = nodes G) by by apply link_nodes.
  rewrite IH; [done |]. by rewrite Hsame.
Qed.

Lemma add_shared_tables_nodes (report : list shared_row) (G : graph) :
  Forall (λ row, Forall (λ x, x ∈ nodes G)
                        (split "," (shared_projects row))) report →
  nodes (foldl add_shared_table G report) = nodes G.
Proof.
  revert G. induction report as [| row report IH]; intros G Hrep;
    cbn [foldl]; [done |].
  apply Forall_cons in Hrep as [Hrow Hrep].
  assert (Hsame : nodes (add_shared_table G row) = nodes G).
  { unfold add_shared_table. destruct (1 <? project_count row)%nat; [| done].
    apply links_nodes. apply Forall_forall. intros [x y] Hxy.
    apply pairs_elem in Hxy as [Hx Hy]. rewrite Forall_forall in Hrow.
    split; by apply Hrow. }
  rewrite IH; [done |]. by rewrite Hsame.
Qed.





(** The weight between two projects, for names without commas. *)
Lemma network_weight_tables (db : database) (a b : string) :
  Forall (λ p, comma_free (name p)) (rows (projects db)) →
  a ≠ b →
  weight_of a b (create_dependency_network db) =
    Z.of_nat (length (filter (λ n, (n, a) ∈ tables_of_projects db ∧
                                   (n, b) ∈ tables_of_projects db)
                             (distinct (tables_of_projects db).*1))).
Proof.
  intros Hfree Hab. rewrite network_weight. f_equal.
  rewrite <- count_groups.
  rewrite <- (count_linked a b (tables_of_projects db)); [| done |].
  - apply Permutation_length. apply filter_Permutation.
    unfold linked_pairs. apply bind_Permutation.
    unfold get_shared_tables. apply group_report_rows.
  - intros n. by apply group_names_comma_free.
Qed.

(** The nodes, for unique names without commas. *)
Lemma network_nodes (db : database) :
  NoDup (name <$> rows (projects db)) →
  Forall (λ p, comma_free (name p)) (rows (projects db)) →
  nodes (create_dependency_network db) = name <$> get_all_projects db.
Proof.
  intros Hnd Hfree. unfold create_dependency_network.
  assert (Hperm : name <$> get_all_projects db ≡ₚ name <$> rows (projects db)).
  { apply fmap_Permutation. apply merge_sort_Permutation. }
  assert (Hnodes : nodes (foldl (λ G project, add_node (name project) G)
                                empty_graph (get_all_projects db)) =
                   name <$> get_all_projects db).
  { rewrite add_nodes_nodes; [done |]. simpl. by rewrite Hperm. }
  rewrite add_shared_tables_nodes; [done |].
  apply Forall_forall. intros row Hrow.
  rewrite (split_projects db row Hfree Hrow).
  apply Forall_forall. intros x Hx. rewrite Hnodes, Hperm.
  by eapply group_names_projects.
Qed.

(** An edge is there when the weight is positive. *)
Lemma has_edge_weight (a b : string) (G : graph) :
  Forall edge_ok (edges G) →
  has_edge a b G = true ↔ 0 < weight_of a b G.
Proof.
  intros Hok. unfold has_edge, weight_of. rewrite find_existsb.
  destruct (List.find (joins a b) (edges G)) as [e |] eqn:Hfind.
  - apply find_some in Hfind as [Hin _]. apply list_elem_of_In in Hin.
    rewrite Forall_forall in Hok. destruct (Hok e Hin) as [_ Hw].
    split; [lia | done].
  - split; [done | lia].
Qed.

Lemma has_edge_shared (db : database) (a b : string) :
  Forall (λ p, comma_free (name p)) (rows (projects db)) →
  a ≠ b →
  has_edge a b (create_dependency_network db) = true ↔
  ∃ n, (n, a) ∈ tables_of_projects db ∧ (n, b) ∈ tables_of_projects db.
Proof.
  intros Hfree Hab.
  rewrite (has_edge_weight a b _ (network_edges_ok db)).
  rewrite network_weight_tables by done. split.
  - intros Hpos.
    destruct (filter _ (distinct (tables_of_projects db).*1))
      as [| n ns] eqn:Hfilter; [simpl in Hpos; lia |].
    assert (Hn : n ∈ filter (λ n, (n, a) ∈ tables_of_projects db ∧
                                  (n, b) ∈ tables_of_projects db)
                            (distinct (tables_of_projects db).*1))
      by (rewrite Hfilter; left).
    apply list_elem_of_filter in Hn as [Hn _]. by exists n.
  - intros (n & Ha & Hb).
    assert (Hn : n ∈ filter (λ n, (n, a) ∈ tables_of_projects db ∧
                                  (n, b) ∈ tables_of_projects db)
                            (distinct (tables_of_projects db).*1)).
    { apply list_elem_of_filter. split; [done |].
      apply elem_of_distinct. by apply (list_elem_of_fmap_2' fst _ (n, a)). }
    destruct (filter _ (distinct (tables_of_projects db).*1));
      [by apply elem_of_nil in Hn | simpl; lia].
Qed.

End NetworkCountFacts.

Module NetworkClaims.
Import Py Sqlite Host Normalized Spec PyText Network NetworkSpec PyFacts
  NormalizedQueryFacts SplitFacts NetworkFacts NetworkCountFacts Fixtures.

(** X18. The dependency network reads the projects of a shared table back
    from the comma-joined column of the report: when no stored project
    name contains a comma, splitting the column of a row at the commas
    gives exactly the projects that own the table, as many as the row's
    project count. *)
Theorem projects_column_splits_back (db : database) (row : shared_row) :
  Forall (λ p, comma_free (name p)) (rows (projects db)) →
  row ∈ get_shared_tables db →
  split "," (shared_projects row) =
    group_names (entity_name row) (tables_of_projects db) ∧
  length (split "," (shared_projects row)) = project_count row ∧
  ∀ pn, pn ∈ split "," (shared_projects row) ↔
        (entity_name row, pn) ∈ tables_of_projects db.
Proof.
  intros Hfree Hrow. rewrite (split_projects db row Hfree Hrow).
  split; [done |]. split.
  - by apply group_report_elem in Hrow as (_ & -> & _).
  - intros pn. apply group_names_elem.
Qed.

Lemma projects_column_splits_back_witness :
  let row := {| entity_name := "Sales"; project_count := 2;
                shared_projects := "A,B" |} in
  split "," (shared_projects row) =
    group_names (entity_name row) (tables_of_projects normalized_three) ∧
  length (split "," (shared_projects row)) = project_count row ∧
  ∀ pn, pn ∈ split "," (shared_projects row) ↔
        (entity_name row, pn) ∈ tables_of_projects normalized_three.
Proof.
  intros row. apply (projects_column_splits_back normalized_three row).
  - vm_compute. repeat constructor; discriminate.
  - vm_compute. left.
Defined.


(** X20. When the stored project names are unique and contain no comma,
    the dependency network has one node per project, in the order of the
    project list (latest analysis first), and the weight between two
    different projects is the number of table names that both of them
    own; there is no edge (weight 0) when they share none. *)
Theorem network_counts_the_shared_tables (db : database) :
  NoDup (name <$> rows (projects db)) →
  Forall (λ p, comma_free (name p)) (rows (projects db)) →
  nodes (create_dependency_network db) = name <$> get_all_projects db ∧
  ∀ a b, a ≠ b →
    weight_of a b (create_dependency_network db) =
      Z.of_nat (length (filter (λ n, (n, a) ∈ tables_of_projects db ∧
                                     (n, b) ∈ tables_of_projects db)
                               (distinct (tables_of_projects db).*1))) ∧
    (has_edge a b (create_dependency_network db) = true ↔
     ∃ n, (n, a) ∈ tables_of_projects db ∧ (n, b) ∈ tables_of_projects db).
Proof.
  intros Hnd Hfree. split; [by apply network_nodes |].
  intros a b Hab. split; [by apply network_weight_tables |].
  apply has_edge_shared; done.
Qed.

Lemma network_counts_the_shared_tables_witness :
  nodes (create_dependency_network normalized_three) =
    name <$> get_all_projects normalized_three ∧
  ∀ a b, a ≠ b →
    weight_of a b (create_dependency_network normalized_three) =
      Z.of_nat (length
        (filter (λ n, (n, a) ∈ tables_of_projects normalized_three ∧
                      (n, b) ∈ tables_of_projects normalized_three)
                (distinct (tables_of_projects normalized_three).*1))) ∧
    (has_edge a b (create_dependency_network normalized_three) = true ↔
     ∃ n, (n, a) ∈ tables_of_projects normalized_three ∧
          (n, b) ∈ tables_of_projects normalized_three).
Proof.
  apply (network_counts_the_shared_tables normalized_three).
  - vm_compute. repeat constructor; set_solver.
  - vm_compute. repeat constructor; discriminate.
Defined.

End NetworkClaims.

(** ** A deleted project *)

Module McpDeleteFacts.
Import Py Sqlite Host Mcp Spec PyFacts SharingFacts SearchFacts
  SearchRefinement SearchOrderFacts SharingOrderFacts SharingRowFacts
  McpPages McpStoreSpec McpStoreFacts.




Section WithCodec.
Context `{Codec}.





End WithCodec.
End McpDeleteFacts.

Module McpDeleteClaims.
Import Py Sqlite Host Mcp Spec PyFacts SharingFacts SearchFacts
  SearchRefinement McpPages McpStoreSpec McpStoreFacts McpDeleteFacts Fixtures.

Section WithCodec.
Context `{Codec}.


End WithCodec.


End McpDeleteClaims.

(** ** The page Project Overview of the normalized analyzer *)

Module NormalizedOverviewFacts.
Import Py Sqlite Host Normalized Spec Network NormalizedStoreSpec
  NormalizedPages NormalizedOverviewSpec OverviewSpec OverviewFacts.

Lemma int64_small (z : Z) : - 2 ^ 63 ≤ z < 2 ^ 63 → int64 z = z.
Proof. intros Hz. unfold int64. rewrite Z.mod_small; lia. Qed.

Lemma int64_add (a x : Z) : int64 (int64 a + x) = int64 (a + x).
Proof.
  unfold int64.
  replace ((a + 2 ^ 63) mod 2 ^ 64 - 2 ^ 63 + x + 2 ^ 63)
    with ((a + 2 ^ 63) mod 2 ^ 64 + x) by lia.
  rewrite Z.add_mod_idemp_l by lia. do 2 f_equal. lia.
Qed.

Lemma column_sum_from (l : list Z) (a : Z) :
  foldl (λ total x, int64 (total + x)) (int64 a) l = int64 (a + sum l).
Proof.
  revert a. induction l as [| x l IH]; intros a; simpl.
  - unfold sum. simpl. f_equal. lia.
  - rewrite int64_add, IH. unfold sum. simpl. f_equal. lia.
Qed.

(** The sum of the column is the sum of its values, wrapped once. *)
Lemma column_sum_spec (l : list Z) : column_sum l = int64 (sum l).
Proof.
  unfold column_sum. change 0 with (int64 0) at 1.
  by rewrite column_sum_from.
Qed.

(** The rows that refer to one of the ids, counted id by id. *)
Lemma count_owned {A : Type} (ref : A → Z) (ids : list Z) (l : list A) :
  NoDup ids →
  sum ((λ i, Z.of_nat (length (filter (λ x, ref x = i) l))) <$> ids) =
    Z.of_nat (length (filter (λ x, ref x ∈ ids) l)).
Proof.
  induction 1 as [| i ids Hi Hnd IH].
  - unfold sum. simpl. rewrite (McpAnalyzeFacts.filter_none _ l); [done |].
    apply Forall_forall. intros x _. by intros ?%elem_of_nil.
  - rewrite fmap_cons. unfold sum in *. simpl. rewrite IH. clear IH.
    induction l as [| x l IHl]; [done |].
    rewrite !(filter_cons _ x).
    destruct (decide (ref x = i)) as [Hx | Hx].
    + rewrite (decide_False (P := ref x ∈ ids)) by by rewrite Hx.
      rewrite (decide_True (P := ref x ∈ i :: ids)) by (rewrite Hx; left).
      simpl length. lia.
    + destruct (decide (ref x ∈ ids)) as [Hin | Hout].
      * rewrite (decide_True (P := ref x ∈ i :: ids)) by by right.
        simpl length. lia.
      * rewrite (decide_False (P := ref x ∈ i :: ids)); [done |].
        rewrite elem_of_cons. tauto.
Qed.

(** In a well formed store the counts on the project rows add up to the
    child rows that refer to a stored project. *)
Lemma counts_owned (db : database) :
  normalized_ok db →
  sum (table_count <$> rows (projects db)) =
    Z.of_nat (length (owned table_project_id (tables db) db)) ∧
  sum (measure_count <$> rows (projects db)) =
    Z.of_nat (length (owned measure_project_id (measures db) db)).
Proof.
  intros (_ & Hids & _ & _ & _ & Hcounts). unfold owned.
  rewrite <- !count_owned by done. unfold counts_agree in Hcounts.
  rewrite <- !list_fmap_compose.
  split; f_equal; apply Forall_fmap_ext_1;
    (eapply Forall_impl; [exact Hcounts |]); intros p [Ht Hm]; simpl.
  - rewrite Ht. unfold stored_tables. by rewrite length_fmap.
  - rewrite Hm. unfold stored_measures. by rewrite length_fmap.
Qed.

End NormalizedOverviewFacts.

Module NormalizedOverviewClaims.
Import Py Sqlite Host Normalized Spec Network NormalizedStoreSpec
  NormalizedPages NormalizedOverviewSpec OverviewSpec OverviewFacts
  NormalizedOverviewFacts NormalizedAnalyzeFacts Fixtures.

(** X22.  The page Project Overview of the normalized analyzer.  Without
    projects it shows its hint.  On a well formed store it shows the
    number of projects, and as Total Tables and Total Measures the
    numbers of table rows and of measure rows that refer to a stored
    project (as long as they fit the 64 bits of the column sum): rows
    that an earlier analysis left behind under an id that no project
    carries are not counted. *)
Theorem overview_counts_the_owned_rows (db : database) :
  normalized_ok db →
  (project_overview db = None ↔ rows (projects db) = []) ∧
  (rows (projects db) ≠ [] →
   Z.of_nat (length (rows (tables db))) < 2 ^ 63 →
   Z.of_nat (length (rows (measures db))) < 2 ^ 63 →
   project_overview db =
     Some (length (rows (projects db)),
           Z.of_nat (length (owned table_project_id (tables db) db)),
           Z.of_nat (length (owned measure_project_id (measures db) db)))).
Proof.
  intros Hok.
  assert (Hperm : get_all_projects db ≡ₚ rows (projects db))
    by apply merge_sort_Permutation.
  unfold project_overview. split.
  - destruct (get_all_projects db) as [| p l] eqn:Hall.
    + split; [| done]. intros _. by apply Permutation_nil_l in Hperm.
    + split; [done |]. intros Hnil. rewrite Hnil in Hperm.
      by apply Permutation_nil_r in Hperm.
  - intros Hne Htables Hmeasures.
    destruct (counts_owned db Hok) as [Ht Hm].
    assert (Hlt : ∀ (A : Type) (P : A → Prop) `{!∀ x, Decision (P x)}
                    (l : list A),
              (length (filter P l) ≤ length l)%nat).
    { intros A P ? l. apply sublist_length, sublist_filter. }
    rewrite !column_sum_spec.
    rewrite (sum_Permutation (table_count <$> get_all_projects db)
               (table_count <$> rows (projects db))) by by rewrite Hperm.
    rewrite (sum_Permutation (measure_count <$> get_all_projects db)
               (measure_count <$> rows (projects db))) by by rewrite Hperm.
    rewrite Ht, Hm, (Permutation_length Hperm).
    pose proof (Hlt _ (λ x, table_project_id x ∈ id <$> rows (projects db))
                  _ (rows (tables db))) as Hlt1.
    pose proof (Hlt _ (λ x, measure_project_id x ∈ id <$> rows (projects db))
                  _ (rows (measures db))) as Hlt2.
    unfold owned in *.
    rewrite !int64_small by lia.
    destruct (get_all_projects db) as [| p l]; [| done].
    by apply Permutation_nil_l in Hperm.
Qed.

(** [Report] analyzed, edited and analyzed again: the table of the first
    analysis is still stored, and the page counts the one table of the
    second. *)
Lemma overview_counts_the_owned_rows_witness :
  let db := fst (analyze_pbix_file true (Some model_v2) report_v2 None 200
                   normalized_v1) in
  normalized_ok db ∧
  length (rows (tables db)) = 2%nat ∧
  project_overview db = Some (1%nat, 1, 0).
Proof.
  intros db.
  assert (Hok : normalized_ok db).
  { unfold db, normalized_v1.
    repeat apply normalized_ok_analyze. apply normalized_ok_init. }
  split; [exact Hok |]. split; [vm_compute; reflexivity |].
  destruct (overview_counts_the_owned_rows db Hok) as [_ Hshown].
  rewrite Hshown; [vm_compute; reflexivity | vm_compute; discriminate | |];
    vm_compute; reflexivity.
Defined.

End NormalizedOverviewClaims.

(** ** The list of projects *)

Module ProjectListFacts.
Import Py Sqlite Host Mcp Spec SqliteFacts PyFacts McpAnalyzeFacts McpPages
  OverviewFacts.

Lemma later_trans : Transitive later.
Proof. intros p q r. unfold later. lia. Qed.

(** The list of projects holds the stored rows, the later analysis
    first. *)
Lemma get_all_projects_sorted (db : database) :
  StronglySorted later (get_all_projects db) ∧
  get_all_projects db ≡ₚ rows db.
Proof.
  split; [| apply merge_sort_Permutation].
  apply StronglySorted_merge_sort; [apply later_trans | apply later_total].
Qed.

(** A row that was analyzed after all the others is the first of the
    list. *)
Lemma latest_first (db : database) (olds : list project) (x : project) :
  rows db = (olds ++ [x])%list →
  Forall (λ q, last_analyzed q < last_analyzed x) olds →
  ∃ rest, get_all_projects db = x :: rest.
Proof.
  intros Hrows Holds.
  destruct (get_all_projects_sorted db) as [Hsorted Hperm].
  rewrite Hrows in Hperm.
  destruct (get_all_projects db) as [| h rest].
  { apply Permutation_nil_l in Hperm. by destruct olds. }
  exists rest. f_equal.
  apply StronglySorted_inv in Hsorted as [_ Hrest].
  assert (Hh : h ∈ (olds ++ [x])%list) by (rewrite <- Hperm; left).
  apply elem_of_app in Hh as [Hh | Hh];
    [| by apply list_elem_of_singleton in Hh].
  exfalso. rewrite Forall_forall in Holds, Hrest.
  specialize (Holds h Hh).
  assert (Hx : x ∈ h :: rest).
  { rewrite Hperm. apply elem_of_app. right. left. }
  apply elem_of_cons in Hx as [-> | Hx]; [lia |].
  specialize (Hrest x Hx). unfold later in Hrest. lia.
Qed.

Section WithCodec.
Context `{Codec}.

Lemma project_of_payload_time (project_name : string) (f : pbix_file)
    (now : Z) (data : json) (row : project) :
  project_of_payload project_name f now data = Ok row →
  last_analyzed row = now.
Proof.
  unfold project_of_payload. intros Hrow.
  destruct (getitem data "tables"); [| done].
  destruct (getitem data "metadata"); [| done].
  destruct (get data "schema" (JArr [])); [| done].
  destruct (getitem data "measures"); [| done].
  destruct (getitem data "relationships"); [| done].
  by simplify_eq/=.
Qed.

(** The row a successful extraction stores goes to the front of the
    list when its time is after the others. *)
Lemma extract_and_store_first (n : string) (f : pbix_file) (now : Z)
    (run : run_result) (existing : option (Z * string)) (db : database) :
  ¬ extraction_fails run →
  Forall (λ q, last_analyzed q < now) (rows db) →
  ∃ row rest,
    get_all_projects (fst (extract_and_store n f now run existing db))
      = row :: rest ∧
    name row = n ∧ file_hash row = content_hash f ∧
    last_analyzed row = now ∧
    snd (extract_and_store n f now run existing db) = Some (id row).
Proof.
  intros Hgood Hold.
  destruct (extract_and_store_success n f now run existing db Hgood)
    as (out & err & data & row & _ & _ & Hrow & ->).
  pose proof (project_of_payload_time _ _ _ _ _ Hrow) as Htime.
  apply project_of_payload_name in Hrow as [Hname Hhash].
  destruct (latest_first (fst (insert_project row db))
              (filter (λ p, ¬ name p = name row) (rows db))
              (with_id row (next_rowid id db))) as [rest Hrest].
  - done.
  - simpl. rewrite Htime. apply Forall_forall. intros q Hq.
    apply list_elem_of_filter in Hq as [_ Hq].
    rewrite Forall_forall in Hold. by apply Hold.
  - exists (with_id row (next_rowid id db)), rest. cbn [fst snd].
    by rewrite Hrest.
Qed.

End WithCodec.
End ProjectListFacts.

Module ProjectListClaims.
Import Py Sqlite Host Mcp Spec SqliteFacts PyFacts McpAnalyzeFacts McpPages
  ProjectListFacts Fixtures.

Section WithCodec.
Context `{Codec}.

(** X23.  The list of projects holds every stored project once, the later
    analysis before the earlier.  When the analysis of a new or changed
    file returns an id, at a time after every stored analysis, the
    project comes first in the list, with that id; an unchanged file
    keeps its time and leaves the list as it is. *)
Theorem latest_analysis_is_listed_first (f : pbix_file)
    (project_name : option string) (now : Z) (run : run_result)
    (db : database) :
  let n := default (stem f) project_name in
  let result := analyze_pbix_file_with_mcp f project_name now run db in
  (StronglySorted later (get_all_projects db) ∧
   get_all_projects db ≡ₚ rows db) ∧
  (∀ j, (∀ i, select_by_name n db ≠ Some (i, content_hash f)) →
        snd result = Some j →
        (∀ q, q ∈ rows db → last_analyzed q < now) →
        ∃ row rest,
          get_all_projects (fst result) = row :: rest ∧
          id row = j ∧ name row = n ∧ file_hash row = content_hash f ∧
          last_analyzed row = now) ∧
  (∀ i, select_by_name n db = Some (i, content_hash f) →
        get_all_projects (fst result) = get_all_projects db).
Proof.
  intros n result. split; [apply get_all_projects_sorted |]. split.
  - intros j Hnew Hres Hold. subst result.
    apply Forall_forall in Hold.
    assert (Hstore : ∀ existing db0,
              Forall (λ q, last_analyzed q < now) (rows db0) →
              snd (extract_and_store n f now run existing db0) = Some j →
              ∃ row rest,
                get_all_projects
                  (fst (extract_and_store n f now run existing db0))
                  = row :: rest ∧
                id row = j ∧ name row = n ∧
                file_hash row = content_hash f ∧ last_analyzed row = now).
    { intros existing db0 Hold0 Hres0.
      destruct (extraction_fails_dec run) as [Hfail | Hgood].
      - by rewrite extract_and_store_failure in Hres0.
      - destruct (extract_and_store_first n f now run existing db0 Hgood
                    Hold0) as (row & rest & Hlist & Hn & Hh & Ht & Hid).
        exists row, rest. rewrite Hid in Hres0. by simplify_eq. }
    destruct (select_by_name n db) as [[i h] |] eqn:Hsel.
    + rewrite (analyze_changed _ _ _ _ _ i h) in * by (done || congruence).
      apply Hstore; [| done]. apply Forall_forall. intros q Hq.
      apply list_elem_of_filter in Hq as [_ Hq].
      rewrite Forall_forall in Hold. by apply Hold.
    + rewrite analyze_new in * by done. by apply Hstore.
  - intros i Hsel. subst result.
    by rewrite (analyze_unchanged _ _ _ _ _ i).
Qed.

End WithCodec.

(** The edited [Report] is analyzed at time 200 on the store that holds
    the analysis of time 100. *)
Lemma latest_analysis_is_listed_first_witness :
  ∃ row rest,
    get_all_projects
      (fst (analyze_pbix_file_with_mcp (H := Reference.codec) report_v2 None
              200 good_run stored_v1)) = row :: rest ∧
    id row = 2 ∧ name row = "Report" ∧ last_analyzed row = 200.
Proof.
  destruct (@latest_analysis_is_listed_first Reference.codec report_v2 None
              200 good_run stored_v1) as (_ & Hfirst & _).
  destruct (Hfirst 2) as (row & rest & Hlist & Hid & Hname & _ & Htime).
  - intros i. vm_compute. discriminate.
  - vm_compute. reflexivity.
  - intros q Hq. vm_compute in Hq.
    apply list_elem_of_singleton in Hq as ->. vm_compute. reflexivity.
  - exists row, rest. split; [exact Hlist |].
    split; [exact Hid |]. split; [exact Hname | exact Htime].
Defined.

End ProjectListClaims.
